(** * Market Cairo server: trust and lifecycle engine

    A shallow embedding of the request handlers of the marketplace backend
    (listing lifecycle, identity verification, messaging with the contact
    filter, notification fan-out) together with the properties that the
    specification states about them.

    Conventions.
    - A JavaScript string is a list of UTF-16 code units ([cu], an [N]).
    - A [Date] is its time value, a [Z] number of milliseconds.
    - A Mongo [ObjectId] is an [Id] (a [positive]); collections are finite
      maps from [Id] to documents.
    - A handler is a function from the store, the clock and the request to
      the new store and the HTTP response. *)

From Stdlib Require Import ZArith NArith Lia String Ascii List Sorted.
From stdpp Require Import base option list gmap strings pretty.

Local Open Scope Z_scope.

(** ** JavaScript strings *)

Definition cu := N.
Abbreviation jsstring := (list cu).

Definition utf16 (s : string) : jsstring :=
  List.map N_of_ascii (list_ascii_of_string s).

(** ** Regular expressions (the fragment used by [PATTERNS]) *)

Module Regex.

Definition in_range (lo hi : N) (c : cu) : bool :=
  ((lo <=? c) && (c <=? hi))%N.

Definition one_of (s : string) (c : cu) : bool :=
  existsb (N.eqb c) (utf16 s).

Definition is_digit : cu -> bool := in_range 48 57.
Definition is_upper : cu -> bool := in_range 65 90.
Definition is_lower : cu -> bool := in_range 97 122.
Definition is_alnum (c : cu) : bool := is_lower c || is_upper c || is_digit c.

(** [\w] *)
Definition is_word (c : cu) : bool := is_alnum c || (c =? 95)%N.

(** [\s]: ECMAScript WhiteSpace and LineTerminator code units. *)
Definition is_space (c : cu) : bool :=
  existsb (N.eqb c)
    [9; 10; 11; 12; 13; 32; 160; 5760; 8232; 8233; 8239; 8287; 12288; 65279]%N
  || in_range 8192 8202 c.

(** Canonicalize of a non-unicode [/i] pattern: only ASCII letters fold onto
    ASCII letters. *)
Definition fold_case (c : cu) : cu :=
  if is_lower c then (c - 32)%N else c.

Inductive re : Type :=
| Eps
| Set_ (f : cu -> bool)
| Bnd
| Cat (r1 r2 : re)
| Alt (r1 r2 : re)
| Opt (r : re)
| Rep (f : cu -> bool) (lo : nat) (hi : option nat).

Definition Chr (a : ascii) : re := Set_ (N.eqb (N_of_ascii a)).
Definition ChrI (a : ascii) : re :=
  Set_ (fun c => (fold_case c =? fold_case (N_of_ascii a))%N).

Definition seq (rs : list re) : re := fold_right Cat Eps rs.
Definition alt (rs : list re) : re :=
  match rs with
  | [] => Eps
  | r :: rs' => fold_left Alt rs' r
  end.
Definition Str (s : string) : re := seq (List.map Chr (list_ascii_of_string s)).
Definition StrI (s : string) : re := seq (List.map ChrI (list_ascii_of_string s)).

(** A continuation receives the previous code unit and the rest of the input
    and answers with the input left after the whole match. *)
Definition cont := option cu -> jsstring -> option jsstring.

Definition is_word_opt (o : option cu) : bool :=
  match o with Some c => is_word c | None => false end.

Definition at_boundary (prev : option cu) (s : jsstring) : bool :=
  xorb (is_word_opt prev) (is_word_opt (head s)).

Definition more (hi : option nat) : bool :=
  match hi with Some O => false | _ => true end.

(** Greedy quantifier over a class, [{lo,hi}]: longest run first, then
    shorter ones on backtracking. *)
Fixpoint rep (f : cu -> bool) (lo : nat) (hi : option nat)
    (prev : option cu) (s : jsstring) (k : cont) : option jsstring :=
  let stop := match lo with O => k prev s | S _ => None end in
  match s with
  | c :: s' =>
      if f c && more hi then
        match rep f (Nat.pred lo) (Nat.pred <$> hi) (Some c) s' k with
        | Some r => Some r
        | None => stop
        end
      else stop
  | [] => stop
  end.

(** The backtracking matcher: alternatives in priority order. *)
Fixpoint run (r : re) (prev : option cu) (s : jsstring) (k : cont)
    : option jsstring :=
  match r with
  | Eps => k prev s
  | Set_ f =>
      match s with
      | c :: s' => if f c then k (Some c) s' else None
      | [] => None
      end
  | Bnd => if at_boundary prev s then k prev s else None
  | Cat r1 r2 => run r1 prev s (fun p' s' => run r2 p' s' k)
  | Alt r1 r2 =>
      match run r1 prev s k with
      | Some x => Some x
      | None => run r2 prev s k
      end
  | Opt r1 =>
      match run r1 prev s k with
      | Some x => Some x
      | None => k prev s
      end
  | Rep f lo hi => rep f lo hi prev s k
  end.

(** A match anchored at the current position: the input left after it. *)
Definition matchAt (r : re) (prev : option cu) (s : jsstring) : option jsstring :=
  run r prev s (fun _ s' => Some s').

(** One pass of a [/g] pattern over the string: the unmatched code units and
    the matches, left to right.  [skip] code units belong to the match that
    was found last. *)
Inductive token : Type :=
| Lit (c : cu)
| Hit (m : jsstring).

Fixpoint scan (r : re) (prev : option cu) (s : jsstring) (skip : nat) : list token :=
  match skip with
  | S n =>
      match s with
      | c :: s' => scan r (Some c) s' n
      | [] => []
      end
  | O =>
      match matchAt r prev s with
      | Some rest =>
          let len := (length s - length rest)%nat in
          Hit (take len s) ::
            match s with
            | c :: s' =>
                match len with
                | O => Lit c :: scan r (Some c) s' O
                | S n => scan r (Some c) s' n
                end
            | [] => []
            end
      | None =>
          match s with
          | c :: s' => Lit c :: scan r (Some c) s' O
          | [] => []
          end
      end
  end.

Definition hits (ts : list token) : list jsstring :=
  omap (fun t => match t with Hit m => Some m | Lit _ => None end) ts.

(** [String.prototype.match] with a [/g] pattern: [null] or every match. *)
Definition jsMatch (r : re) (s : jsstring) : option (list jsstring) :=
  match hits (scan r None s O) with
  | [] => None
  | ms => Some ms
  end.

(** [String.prototype.replace] with a [/g] pattern and a replacement without
    [$] patterns. *)
Definition jsReplace (r : re) (s : jsstring) (replacement : jsstring) : jsstring :=
  mjoin ((fun t => match t with Hit _ => replacement | Lit c => [c] end)
           <$> scan r None s O).

Definition jsTest (r : re) (s : jsstring) : bool :=
  bool_decide (is_Some (jsMatch r s)).

End Regex.

(** ** The content filter ([utils/contentFilter.js]) *)

Module ContentFilter.
Import Regex.

Definition digits (lo : nat) (hi : option nat) : re := Rep is_digit lo hi.
Definition space_opt : re := Rep is_space 0 (Some 1%nat).

(** [/\b0?1[0125]\d{8}\b/g] *)
Definition phone_0 : re :=
  seq [Bnd; Opt (Chr "0"); Chr "1"; Set_ (one_of "0125"); digits 8 (Some 8%nat); Bnd].

(** [/\b(\+?20|0020)\s?1[0125]\s?\d{3,4}\s?\d{4}\b/g] *)
Definition phone_1 : re :=
  seq [Bnd; Alt (Cat (Opt (Chr "+")) (Str "20")) (Str "0020"); space_opt;
       Chr "1"; Set_ (one_of "0125"); space_opt; digits 3 (Some 4%nat);
       space_opt; digits 4 (Some 4%nat); Bnd].

(** [/\b\d{4}\s?\d{3}\s?\d{4}\b/g] *)
Definition phone_2 : re :=
  seq [Bnd; digits 4 (Some 4%nat); space_opt; digits 3 (Some 3%nat);
       space_opt; digits 4 (Some 4%nat); Bnd].

Definition phoneNumbers : list re := [phone_0; phone_1; phone_2].

(** [/\b[A-Za-z0-9._%+-]+@[A-Za-z0-9.-]+\.[A-Z|a-z]{2,}\b/g] *)
Definition emails : re :=
  seq [Bnd;
       Rep (fun c => is_alnum c || one_of "._%+-" c) 1 None;
       Chr "@";
       Rep (fun c => is_alnum c || one_of ".-" c) 1 None;
       Chr ".";
       Rep (fun c => is_upper c || is_lower c || one_of "|" c) 2 None;
       Bnd].

Definition url_host (c : cu) : bool := is_alnum c || one_of "-@:%._+~#=" c.
Definition url_tld (c : cu) : bool := is_alnum c || one_of "()" c.
Definition url_path (c : cu) : bool := is_alnum c || one_of "-()@:%_+.~#?&/=" c.

(** [urls[0]], flag [g]: [https?:\/\/] then [(www\.)?], the host class
    [[-a-zA-Z0-9@:%._\+~#=]{1,256}], [\.], the class [[a-zA-Z0-9()]{1,6}],
    [\b], and a starred group of the path class [[-a-zA-Z0-9()@:%_\+.~#?&//=]]. *)
Definition url_0 : re :=
  seq [Str "http"; Opt (Chr "s"); Str "://"; Opt (Str "www.");
       Rep url_host 1 (Some 256%nat); Chr "."; Rep url_tld 1 (Some 6%nat); Bnd;
       Rep url_path 0 None].

(** [urls[1]], flag [g]: [\bwww\.] followed by the same host, dot, class and
    path parts as [urls[0]]. *)
Definition url_1 : re :=
  seq [Bnd; Str "www.";
       Rep url_host 1 (Some 256%nat); Chr "."; Rep url_tld 1 (Some 6%nat); Bnd;
       Rep url_path 0 None].

(** [/\b[a-zA-Z0-9-]+\.(com|net|org|info|eg|me|io|co|online|site)\b/gi] *)
Definition url_2 : re :=
  seq [Bnd; Rep (fun c => is_alnum c || one_of "-" c) 1 None; Chr ".";
       alt (List.map StrI ["com"; "net"; "org"; "info"; "eg"; "me"; "io"; "co";
                           "online"; "site"]%string);
       Bnd].

Definition urls : list re := [url_0; url_1; url_2].

Definition handle_char (c : cu) : bool := is_alnum c || one_of "._-" c.

(** [/@[a-zA-Z0-9_]{3,}/g] *)
Definition social_0 : re := seq [Chr "@"; Rep is_word 3 None].

(** [/\b(facebook|fb|whatsapp|wa|telegram|tg|instagram|insta|twitter|tiktok)\.com\/[a-zA-Z0-9._-]+/gi] *)
Definition social_1 : re :=
  seq [Bnd;
       alt (List.map StrI ["facebook"; "fb"; "whatsapp"; "wa"; "telegram"; "tg";
                           "instagram"; "insta"; "twitter"; "tiktok"]%string);
       Chr "."; StrI "com"; Chr "/"; Rep handle_char 1 None].

(** [/\b(facebook|fb|whatsapp|wa|telegram|instagram|insta):\s?[a-zA-Z0-9._-]+/gi] *)
Definition social_2 : re :=
  seq [Bnd;
       alt (List.map StrI ["facebook"; "fb"; "whatsapp"; "wa"; "telegram";
                           "instagram"; "insta"]%string);
       Chr ":"; space_opt; Rep handle_char 1 None].

Definition socialMedia : list re := [social_0; social_1; social_2].

(** [/\b(call|text|message|whatsapp|wa|telegram)\s+(me|m)\s+(on|at|@)?\s*:?\s*\d{4,}/gi] *)
Definition contact_0 : re :=
  seq [Bnd;
       alt (List.map StrI ["call"; "text"; "message"; "whatsapp"; "wa"; "telegram"]%string);
       Rep is_space 1 None;
       Alt (StrI "me") (StrI "m");
       Rep is_space 1 None;
       Opt (alt [StrI "on"; StrI "at"; Chr "@"]);
       Rep is_space 0 None; Opt (Chr ":"); Rep is_space 0 None;
       digits 4 None].

Definition contactPrompts : list re := [contact_0].

Record options := {
  replacement : jsstring;
  preserveLength : bool;
  returnMatches : bool
}.

Definition default_options : options :=
  {| replacement := utf16 "[HIDDEN]"; preserveLength := false; returnMatches := false |}.

(** The three locals of [filterPersonalInfo]; [matches] keeps the insertion
    order of the object's keys. *)
Record acc := {
  filtered : jsstring;
  hasFiltered : bool;
  matches : list (string * list jsstring)
}.

(** The body shared by every block of [filterPersonalInfo]: the pattern is
    looked for in the input [text], and replaced in [filtered]. *)
Definition apply_pattern (o : options) (text : jsstring) (key : string)
    (a : acc) (pattern : re) : acc :=
  match jsMatch pattern text with
  | Some found =>
      {| filtered := jsReplace pattern (filtered a) (replacement o);
         hasFiltered := true;
         matches := if returnMatches o then matches a ++ [(key, found)] else matches a |}
  | None => a
  end.

(** [patterns.forEach((pattern, index) => ...)] with key [`${prefix}${index}`]. *)
Definition for_each (o : options) (text : jsstring) (prefix : string)
    (patterns : list re) (a : acc) : acc :=
  foldl (fun a ip => apply_pattern o text (prefix +:+ pretty (fst ip)) a (snd ip))
        a (imap pair patterns).

Record filterResult := {
  r_filtered : jsstring;
  r_hasFiltered : bool;
  r_matches : option (list (string * list jsstring))
}.

(** The pattern categories in the order [filterPersonalInfo] walks them. *)
Definition run_filter (o : options) (text : jsstring) : acc :=
  let a0 := {| filtered := text; hasFiltered := false; matches := [] |} in
  let a1 := for_each o text "phone_" phoneNumbers a0 in
  let a2 := apply_pattern o text "emails" a1 emails in
  let a3 := for_each o text "url_" urls a2 in
  let a4 := for_each o text "social_" socialMedia a3 in
  for_each o text "contact_" contactPrompts a4.

Definition filterPersonalInfo (text : jsstring) (o : options) : filterResult :=
  let a := run_filter o text in
  {| r_filtered := filtered a;
     r_hasFiltered := hasFiltered a;
     r_matches := if returnMatches o then Some (matches a) else None |}.

Definition containsPersonalInfo (text : jsstring) : bool :=
  r_hasFiltered
    (filterPersonalInfo text
       {| replacement := utf16 "[HIDDEN]"; preserveLength := false; returnMatches := true |}).

(** Every pattern of [PATTERNS], in the order of the walk. *)
Definition all_patterns : list re :=
  phoneNumbers ++ [emails] ++ urls ++ socialMedia ++ contactPrompts.

End ContentFilter.

(** ** Data model ([models/User.js], [models/Listing.js], [models/Message.js]) *)

Definition Id := positive.
Definition Date := Z.

Module Notification.
Inductive kind := message | listing | system.
Record t := {
  type : kind;
  title : string;
  content : string;
  read : bool;
  relatedId : option Id;
  createdAt : Date
}.
End Notification.

Module Verification.
Inductive state := unverified | pending | approved | rejected.
Record image := { url : string; filename : string }.
Record t := {
  status : state;
  documentType : option string;
  documentImages : list image;
  submittedAt : option Date;
  reviewedAt : option Date;
  reviewedBy : option Id;
  rejectionReason : option string
}.
#[global] Instance state_eq_dec : EqDecision state.
Proof. solve_decision. Defined.
End Verification.

Module User.
Record t := {
  name : string;
  email : string;
  salesCount : Z;
  favorites : list Id;
  notifications : list Notification.t;
  isAdmin : bool;
  isActive : bool;
  verification : option Verification.t;
  lastSeen : Date
}.

Definition set_favorites (u : t) (f : list Id) : t :=
  {| name := name u; email := email u; salesCount := salesCount u;
     favorites := f; notifications := notifications u; isAdmin := isAdmin u;
     isActive := isActive u; verification := verification u;
     lastSeen := lastSeen u |}.
Definition set_notifications (u : t) (n : list Notification.t) : t :=
  {| name := name u; email := email u; salesCount := salesCount u;
     favorites := favorites u; notifications := n; isAdmin := isAdmin u;
     isActive := isActive u; verification := verification u;
     lastSeen := lastSeen u |}.
Definition set_verification (u : t) (v : option Verification.t) : t :=
  {| name := name u; email := email u; salesCount := salesCount u;
     favorites := favorites u; notifications := notifications u;
     isAdmin := isAdmin u; isActive := isActive u; verification := v;
     lastSeen := lastSeen u |}.
Definition set_lastSeen (u : t) (d : Date) : t :=
  {| name := name u; email := email u; salesCount := salesCount u;
     favorites := favorites u; notifications := notifications u;
     isAdmin := isAdmin u; isActive := isActive u;
     verification := verification u; lastSeen := d |}.

(** [user.verification?.status] *)
Definition verification_status (u : t) : option Verification.state :=
  Verification.status <$> verification u.
End User.

Module Listing.
Inductive state := active | sold | pending | removed.
Inductive moderation := mod_pending | mod_approved | mod_rejected.
Record image := { url : string; filename : string }.
Record place := { area : string; city : string }.
Record report := { user : Id; reason : string; reportedAt : Date }.
Record t := {
  title : string;
  description : string;
  price : Z;
  category : string;
  condition : string;
  images : list image;
  location : place;
  seller : Id;
  status : state;
  featured : bool;
  views : Z;
  favoritesCount : Z;
  reports : list report;
  moderationStatus : moderation;
  moderationNote : option string;
  isDeleted : bool;
  deletedAt : option Date;
  deleteReason : option string;
  createdAt : Date
}.
#[global] Instance state_eq_dec : EqDecision state.
Proof. solve_decision. Defined.
#[global] Instance moderation_eq_dec : EqDecision moderation.
Proof. solve_decision. Defined.

Definition set_favoritesCount (l : t) (n : Z) : t :=
  {| title := title l; description := description l; price := price l;
     category := category l; condition := condition l; images := images l;
     location := location l; seller := seller l; status := status l;
     featured := featured l; views := views l; favoritesCount := n;
     reports := reports l; moderationStatus := moderationStatus l;
     moderationNote := moderationNote l; isDeleted := isDeleted l;
     deletedAt := deletedAt l; deleteReason := deleteReason l;
     createdAt := createdAt l |}.
Definition set_views (l : t) (n : Z) : t :=
  {| title := title l; description := description l; price := price l;
     category := category l; condition := condition l; images := images l;
     location := location l; seller := seller l; status := status l;
     featured := featured l; views := n; favoritesCount := favoritesCount l;
     reports := reports l; moderationStatus := moderationStatus l;
     moderationNote := moderationNote l; isDeleted := isDeleted l;
     deletedAt := deletedAt l; deleteReason := deleteReason l;
     createdAt := createdAt l |}.
Definition set_status (l : t) (s : state) : t :=
  {| title := title l; description := description l; price := price l;
     category := category l; condition := condition l; images := images l;
     location := location l; seller := seller l; status := s;
     featured := featured l; views := views l;
     favoritesCount := favoritesCount l; reports := reports l;
     moderationStatus := moderationStatus l;
     moderationNote := moderationNote l; isDeleted := isDeleted l;
     deletedAt := deletedAt l; deleteReason := deleteReason l;
     createdAt := createdAt l |}.
Definition set_reports (l : t) (r : list report) : t :=
  {| title := title l; description := description l; price := price l;
     category := category l; condition := condition l; images := images l;
     location := location l; seller := seller l; status := status l;
     featured := featured l; views := views l;
     favoritesCount := favoritesCount l; reports := r;
     moderationStatus := moderationStatus l;
     moderationNote := moderationNote l; isDeleted := isDeleted l;
     deletedAt := deletedAt l; deleteReason := deleteReason l;
     createdAt := createdAt l |}.
Definition set_moderation (l : t) (m : moderation) (note : option string) : t :=
  {| title := title l; description := description l; price := price l;
     category := category l; condition := condition l; images := images l;
     location := location l; seller := seller l; status := status l;
     featured := featured l; views := views l;
     favoritesCount := favoritesCount l; reports := reports l;
     moderationStatus := m; moderationNote := note;
     isDeleted := isDeleted l; deletedAt := deletedAt l;
     deleteReason := deleteReason l; createdAt := createdAt l |}.
Definition set_deleted (l : t) (d : Date) (why : string) : t :=
  {| title := title l; description := description l; price := price l;
     category := category l; condition := condition l; images := images l;
     location := location l; seller := seller l; status := status l;
     featured := featured l; views := views l;
     favoritesCount := favoritesCount l; reports := reports l;
     moderationStatus := moderationStatus l;
     moderationNote := moderationNote l; isDeleted := true;
     deletedAt := Some d; deleteReason := Some why;
     createdAt := createdAt l |}.
End Listing.

Module Message.
Inductive kind := text | image | system.
Record t := {
  conversation : Id;
  sender : Id;
  content : jsstring;
  originalContent : option jsstring;
  isFiltered : bool;
  type : kind;
  read : bool;
  readAt : option Date;
  createdAt : Date
}.
End Message.

Module Conversation.
Record snapshot := { content : jsstring; sender : Id; createdAt : Date }.
Record t := {
  participants : list Id;
  listing : Id;
  lastMessage : option snapshot;
  unreadCount : gmap Id Z;
  isActive : bool;
  updatedAt : Date
}.
End Conversation.

(** The durable store: the four collections and the source of fresh
    [ObjectId]s. *)
Record Store := {
  users : gmap Id User.t;
  listings : gmap Id Listing.t;
  conversations : gmap Id Conversation.t;
  messages : gmap Id Message.t;
  nextId : Id
}.

Definition set_users (s : Store) (u : gmap Id User.t) : Store :=
  {| users := u; listings := listings s; conversations := conversations s;
     messages := messages s; nextId := nextId s |}.
Definition set_listings (s : Store) (l : gmap Id Listing.t) : Store :=
  {| users := users s; listings := l; conversations := conversations s;
     messages := messages s; nextId := nextId s |}.
Definition set_conversations (s : Store) (c : gmap Id Conversation.t) : Store :=
  {| users := users s; listings := listings s; conversations := c;
     messages := messages s; nextId := nextId s |}.

(** [user.save()] and [listing.save()] of a document read from the store. *)
Definition save_user (s : Store) (id : Id) (u : User.t) : Store :=
  set_users s (<[id := u]> (users s)).
Definition save_listing (s : Store) (id : Id) (l : Listing.t) : Store :=
  set_listings s (<[id := l]> (listings s)).
Definition save_conversation (s : Store) (id : Id) (c : Conversation.t) : Store :=
  set_conversations s (<[id := c]> (conversations s)).

(** ** HTTP responses *)

Inductive Failure : Type :=
| Message_ (message : string)
| Errors (message : option string) (errors : list string)
| RequiresVerification (message : string).

Inductive Response (A : Type) : Type :=
| Success (code : Z) (payload : A)
| Fail (code : Z) (why : Failure).
Arguments Success {A} code payload.
Arguments Fail {A} code why.

(** ** JavaScript idioms on optional strings *)

(** [x || fallback] on a string that may be missing: the empty string is
    falsy as well. *)
Definition or_else (x : option string) (fallback : string) : string :=
  match x with
  | Some v => if String.eqb v "" then fallback else v
  | None => fallback
  end.

(** [!reason] *)
Definition falsy (x : option string) : bool :=
  match x with
  | Some v => String.eqb v ""
  | None => true
  end.

Definition equals (x : option string) (v : string) : bool :=
  match x with
  | Some w => String.eqb w v
  | None => false
  end.

(** ** Authentication middleware ([middleware/auth.js]) *)

Module Auth.

(** [protect].  The credential service is the boundary: [token] is the user
    id that [jwt.verify] decodes, [None] when the header is missing or the
    token does not verify. *)
Definition protect {A} (s : Store) (now : Date) (token : option Id)
    : Store * (Response A + Id * User.t) :=
  match token with
  | None => (s, inl (Fail 401 (Message_ "Not authorized to access this route")))
  | Some id =>
      match users s !! id with
      | None => (s, inl (Fail 401 (Message_ "User not found")))
      | Some u =>
          if negb (User.isActive u)
          then (s, inl (Fail 401 (Message_ "Account has been deactivated")))
          else
            let u' := User.set_lastSeen u now in
            (save_user s id u', inr (id, u'))
      end
  end.

(** [optionalAuth]: attaches whatever [User.findById] returns. *)
Definition optionalAuth (s : Store) (token : option Id) : option (Id * User.t) :=
  match token with
  | None => None
  | Some id => (fun u => (id, u)) <$> users s !! id
  end.

(** [adminOnly] *)
Definition adminOnly {A} (u : User.t) : option (Response A) :=
  if negb (User.isAdmin u)
  then Some (Fail 403 (Message_ "Access denied. Admin only."))
  else None.

(** [verifiedOnly]: [req.user?.verification?.status !== 'approved'] *)
Definition verifiedOnly {A} (u : User.t) : option (Response A) :=
  if bool_decide (User.verification_status u = Some Verification.approved)
  then None
  else Some (Fail 403 (RequiresVerification "Identity verification required")).

End Auth.

(** ** Side channels: outbound email and realtime push *)

Inductive Email : Type :=
| VerificationApproved (to name : string)
| VerificationRejected (to name reason : string)
| ListingApproved (to name title : string)
| ListingRejected (to name title : string) (note : option string).

(** What a call into [utils/emailService] does: it returns, or it throws
    into the caller. *)
Inductive Dispatch := Returned | Threw.
Definition Mailer := Email -> Dispatch.

(** ** Identity verification ([routes/verification.js]) *)

Module VerificationRoutes.

Record File := { filename : string; dataUrl : option string }.

Definition documentTypes : list string :=
  ["passport"; "student_card"; "residential_card"]%string.

(** [Array.prototype.includes] on strings; a missing body field is [None]. *)
Definition includes (l : list string) (x : option string) : bool :=
  match x with
  | Some v => existsb (String.eqb v) l
  | None => false
  end.

(** [documentType.replace('_', ' ')]: the first underscore only. *)
Fixpoint replace_underscore (s : string) : string :=
  match s with
  | EmptyString => EmptyString
  | String c s' =>
      if Ascii.eqb c "_" then String " " s' else String c (replace_underscore s')
  end.

Definition toImage (f : File) : Verification.image :=
  {| Verification.url := or_else (dataUrl f) ("/uploads/" +:+ filename f);
     Verification.filename := filename f |}.

(** [POST /api/verification/submit].  [files] is [req.files] as the upload
    middleware leaves it. *)
Definition submit (s : Store) (now : Date) (token : option Id)
    (documentType : option string) (files : option (list File))
    : Store * Response Verification.t :=
  match Auth.protect s now token with
  | (s, inl r) => (s, r)
  | (s, inr (uid, _)) =>
      if negb (includes documentTypes documentType)
      then (s, Fail 400 (Message_ "Invalid document type"))
      else
        match files with
        | None | Some [] => (s, Fail 400 (Message_ "Please upload document images"))
        | Some fs =>
            let requiredCount :=
              if includes ["passport"%string] documentType then 1%nat else 2%nat in
            if negb (length fs =? requiredCount)%nat
            then
              (s, Fail 400 (Message_
                 (if includes ["passport"%string] documentType
                  then "Passport requires exactly 1 image"
                  else replace_underscore (default "" documentType)
                       +:+ " requires 2 images (front and back)")))
            else
              match users s !! uid with
              | None => (s, Fail 500 (Message_ "Server error"))
              | Some user =>
                  match User.verification_status user with
                  | Some Verification.approved =>
                      (s, Fail 400 (Message_ "Already verified"))
                  | Some Verification.pending =>
                      (s, Fail 400 (Message_ "Verification already pending review"))
                  | _ =>
                      let v :=
                        {| Verification.status := Verification.pending;
                           Verification.documentType := documentType;
                           Verification.documentImages := toImage <$> fs;
                           Verification.submittedAt := Some now;
                           Verification.reviewedAt := None;
                           Verification.reviewedBy := None;
                           Verification.rejectionReason := None |} in
                      (save_user s uid (User.set_verification user (Some v)),
                       Success 200 v)
                  end
              end
        end
  end.

End VerificationRoutes.

(** ** Admin routes ([routes/admin.js]) *)

Module AdminRoutes.

Definition dquote : string := String (ascii_of_nat 34) EmptyString.

Definition valid_action (action : option string) : bool :=
  equals action "approve" || equals action "reject".

(** [router.use(protect); router.use(adminOnly)] *)
Definition guard {A} (s : Store) (now : Date) (token : option Id)
    : Store * (Response A + Id * User.t) :=
  match Auth.protect s now token with
  | (s, inl r) => (s, inl r)
  | (s, inr (uid, u)) =>
      match Auth.adminOnly u with
      | Some r => (s, inl r)
      | None => (s, inr (uid, u))
      end
  end.

Definition moderation_notice (now : Date) (lid : Id) (l : Listing.t)
    (action note : option string) : Notification.t :=
  {| Notification.type := Notification.listing;
     Notification.title :=
       if equals action "approve" then "Listing Approved!" else "Listing Rejected";
     Notification.content :=
       if equals action "approve"
       then "Your listing " +:+ dquote +:+ Listing.title l +:+ dquote
            +:+ " has been approved and is now live!"
       else "Your listing " +:+ dquote +:+ Listing.title l +:+ dquote
            +:+ " was rejected. Reason: " +:+ or_else note "Policy violation";
     Notification.read := false;
     Notification.relatedId := Some lid;
     Notification.createdAt := now |}.

(** [PUT /api/admin/listings/:id/moderate].  The result carries the emails
    handed to the dispatcher. *)
Definition moderate (mail : Mailer) (s : Store) (now : Date) (token : option Id)
    (lid : Id) (action note : option string)
    : Store * list Email * Response Listing.t :=
  match guard s now token with
  | (s, inl r) => (s, [], r)
  | (s, inr _) =>
      if negb (valid_action action)
      then (s, [], Fail 400 (Message_ "Invalid action. Use approve or reject"))
      else
        match listings s !! lid with
        | None => (s, [], Fail 404 (Message_ "Listing not found"))
        | Some l =>
            let l1 :=
              Listing.set_moderation l
                (if equals action "approve" then Listing.mod_approved
                 else Listing.mod_rejected)
                (Some (or_else note "")) in
            let l2 :=
              if equals action "reject" then Listing.set_status l1 Listing.removed
              else l1 in
            let s1 := save_listing s lid l2 in
            match users s1 !! Listing.seller l2 with
            | None => (s1, [], Success 200 l2)
            | Some seller =>
                let seller' :=
                  User.set_notifications seller
                    (User.notifications seller
                       ++ [moderation_notice now lid l2 action note]) in
                let s2 := save_user s1 (Listing.seller l2) seller' in
                let e :=
                  if equals action "approve"
                  then ListingApproved (User.email seller) (User.name seller)
                         (Listing.title l2)
                  else ListingRejected (User.email seller) (User.name seller)
                         (Listing.title l2) note in
                (* the notification and the email share one try/catch, and the
                   email comes last: whatever [mail e] does, the response is
                   the same *)
                match mail e with
                | Returned | Threw => (s2, [e], Success 200 l2)
                end
            end
        end
  end.

Definition review_notice (now : Date) (action reason : option string)
    : Notification.t :=
  {| Notification.type := Notification.system;
     Notification.title :=
       if equals action "approve" then "Identity Verified!" else "Verification Rejected";
     Notification.content :=
       if equals action "approve"
       then "Your identity has been verified. You can now post listings!"
       else "Your verification was rejected: " +:+ default "" reason
            +:+ ". You can resubmit with new documents.";
     Notification.read := false;
     Notification.relatedId := None;
     Notification.createdAt := now |}.

(** [PUT /api/admin/verifications/:userId/review] *)
Definition review (mail : Mailer) (s : Store) (now : Date) (token : option Id)
    (userId : Id) (action reason : option string)
    : Store * list Email * Response Verification.t :=
  match guard s now token with
  | (s, inl r) => (s, [], r)
  | (s, inr (adminId, _)) =>
      if negb (valid_action action)
      then (s, [], Fail 400 (Message_ "Invalid action. Use approve or reject"))
      else if equals action "reject" && falsy reason
      then (s, [], Fail 400 (Message_ "Rejection reason is required"))
      else
        match users s !! userId with
        | None => (s, [], Fail 404 (Message_ "User not found"))
        | Some user =>
            match User.verification user with
            | Some v =>
                if negb (bool_decide (Verification.status v = Verification.pending))
                then (s, [], Fail 400 (Message_ "No pending verification for this user"))
                else
                  let v' :=
                    {| Verification.status :=
                         if equals action "approve" then Verification.approved
                         else Verification.rejected;
                       Verification.documentType := Verification.documentType v;
                       Verification.documentImages := Verification.documentImages v;
                       Verification.submittedAt := Verification.submittedAt v;
                       Verification.reviewedAt := Some now;
                       Verification.reviewedBy := Some adminId;
                       Verification.rejectionReason :=
                         if equals action "reject" then reason
                         else Verification.rejectionReason v |} in
                  let user' :=
                    User.set_notifications
                      (User.set_verification user (Some v'))
                      (User.notifications user ++ [review_notice now action reason]) in
                  let e :=
                    if equals action "approve"
                    then VerificationApproved (User.email user) (User.name user)
                    else VerificationRejected (User.email user) (User.name user)
                           (default "" reason) in
                  (* the dispatch sits in its own try/catch: whatever [mail e]
                     does, the handler goes on to the same response *)
                  match mail e with
                  | Returned | Threw => (save_user s userId user', [e], Success 200 v')
                  end
            | None => (s, [], Fail 400 (Message_ "No pending verification for this user"))
            end
        end
  end.

End AdminRoutes.

(** ** Listing routes ([routes/listings.js]) and the retention sweeper *)

Module ListingRoutes.
Import Listing.

(** [2 * 24 * 60 * 60 * 1000] *)
Definition twoDaysInMs : Z := 2 * 24 * 60 * 60 * 1000.

(** The query object shared by [GET /api/listings], [/featured], [/recent]
    and [/:id/similar]:
    [{ moderationStatus: 'approved',
       $or: [ { status: 'active', isDeleted: { $ne: true } },
              { isDeleted: true, deletedAt: { $gt: twoDaysAgo } } ] }].
    A [null] date never satisfies [$gt]. *)
Definition queryObj (now : Date) (l : Listing.t) : bool :=
  let twoDaysAgo := now - twoDaysInMs in
  bool_decide (moderationStatus l = mod_approved)
  && ((bool_decide (status l = active) && negb (isDeleted l))
      || (isDeleted l
          && match deletedAt l with
             | Some d => twoDaysAgo <? d
             | None => false
             end)).

(** [Listing.find(q)]: the documents that match the query, before the cursor
    sorts, skips and limits them. *)
Definition find (q : Listing.t -> bool) (s : Store) : gmap Id Listing.t :=
  filter (fun kv => q (snd kv) = true) (listings s).

(** [sortOption] of [GET /api/listings]: [{ price: 1 }], [{ price: -1 }],
    [{ views: -1 }] and, for [recent] and anything else, [{ createdAt: -1 }]. *)
Inductive sortOption := recent | price_low | price_high | popular.

Definition parse_sort (sort : option string) : sortOption :=
  match sort with
  | Some v =>
      if String.eqb v "price_low" then price_low
      else if String.eqb v "price_high" then price_high
      else if String.eqb v "popular" then popular
      else recent
  | None => recent
  end.

(** [a] may stand before [b] under the sort option. *)
Definition in_order (o : sortOption) (a b : Listing.t) : bool :=
  match o with
  | recent => createdAt b <=? createdAt a
  | price_low => price a <=? price b
  | price_high => price b <=? price a
  | popular => views b <=? views a
  end.

(** [cursor.sort(sortOption)].  Documents with equal keys come in the order
    in which the collection is enumerated; MongoDB leaves that order open. *)
Fixpoint insert_by (o : sortOption) (x : Id * Listing.t) (l : list (Id * Listing.t))
    : list (Id * Listing.t) :=
  match l with
  | [] => [x]
  | y :: l' =>
      if in_order o (snd x) (snd y) then x :: l else y :: insert_by o x l'
  end.

Definition sort_by (o : sortOption) (l : list (Id * Listing.t))
    : list (Id * Listing.t) :=
  foldr (insert_by o) [] l.

(** [cursor.limit(n)]: a limit of [0] is no limit. *)
Definition cursor_limit (n : nat) (l : list (Id * Listing.t)) : list (Id * Listing.t) :=
  match n with
  | O => l
  | S _ => take n l
  end.

(** [.sort(sortOption).skip(skip).limit(limit)] over the matching documents. *)
Definition page (o : sortOption) (skip limit : nat) (m : gmap Id Listing.t)
    : list (Id * Listing.t) :=
  cursor_limit limit (drop skip (sort_by o (map_to_list m))).

Record pagination := {
  p_page : nat;
  p_limit : nat;
  p_total : nat;
  p_pages : option nat
}.

(** The body of [GET /api/listings]. *)
Record listing_page := {
  l_listings : list (Id * Listing.t);
  l_pagination : pagination
}.

(** [GET /api/listings]: every optional filter of the request (category,
    condition, area, seller, featured, price range, text search) adds one
    more condition, [extra], to the query object.  [page_] and [limit] are
    [Number(page)] and [Number(limit)], natural numbers here (1 and 20 when
    the request has none).  Page 0 with a positive limit asks for a negative
    skip, which the database refuses; [pages] is [Math.ceil(total / limit)],
    not a number that JSON can carry when the limit is 0. *)
Definition getListings (s : Store) (now : Date) (extra : Listing.t -> bool)
    (sort : option string) (page_ limit : nat) : Response listing_page :=
  let q := fun l => queryObj now l && extra l in
  if (page_ =? 0)%nat && negb (limit =? 0)%nat
  then Fail 500 (Message_ "Server error")
  else
    let skip := ((page_ - 1) * limit)%nat in
    let total := size (find q s) in
    Success 200
      {| l_listings := page (parse_sort sort) skip limit (find q s);
         l_pagination :=
           {| p_page := page_; p_limit := limit; p_total := total;
              p_pages :=
                if (limit =? 0)%nat then None
                else Some ((total + limit - 1) / limit)%nat |} |}.

(** [GET /api/listings/featured]: the newest eight. *)
Definition getFeatured (s : Store) (now : Date) : list (Id * Listing.t) :=
  page recent 0 8 (find (fun l => queryObj now l && featured l) s).

(** [GET /api/listings/recent]; [limit] is [Number(limit)], 8 when the
    request has none. *)
Definition getRecent (s : Store) (now : Date) (limit : nat) : list (Id * Listing.t) :=
  page recent 0 limit (find (queryObj now) s).

Record deleteInfo := {
  info_isDeleted : bool;
  info_reason : option string;
  info_deletedAt : Date
}.

(** The body of a successful [GET /api/listings/:id]. *)
Record view := {
  shown : Listing.t;
  deleteInfo_ : option deleteInfo;
  isFavorited : bool
}.

(** [GET /api/listings/:id].  [listing.seller] is populated: it is [null]
    when the seller document is gone, and reading [_id] from it throws. *)
Definition getListing (s : Store) (now : Date) (token : option Id) (id : Id)
    : Store * Response view :=
  let user := Auth.optionalAuth s token in
  match listings s !! id with
  | None => (s, Fail 404 (Message_ "Listing not found"))
  | Some l =>
      if isDeleted l then
        match deletedAt l with
        | None => (s, Fail 500 (Message_ "Server error"))
        | Some d =>
            let timeSinceDeletion := now - d in
            if twoDaysInMs <? timeSinceDeletion
            then (s, Fail 404 (Message_ "Listing no longer available"))
            else
              (s, Success 200
                    {| shown := set_status l sold;
                       deleteInfo_ :=
                         Some {| info_isDeleted := true;
                                 info_reason := deleteReason l;
                                 info_deletedAt := d |};
                       isFavorited := false |})
        end
      else
        let populated := is_Some (users s !! seller l) in
        let is_seller (uid : Id) := bool_decide (uid = seller l) in
        let serve :=
          match user with
          | Some (uid, u) =>
              if bool_decide populated then
                let l' := if is_seller uid then l else set_views l (views l + 1) in
                let s' := if is_seller uid then s else save_listing s id l' in
                (s', Success 200
                       {| shown := l'; deleteInfo_ := None;
                          isFavorited := bool_decide (id ∈ User.favorites u) |})
              else (s, Fail 500 (Message_ "Server error"))
          | None =>
              let l' := set_views l (views l + 1) in
              (save_listing s id l',
               Success 200 {| shown := l'; deleteInfo_ := None; isFavorited := false |})
          end in
        if negb (bool_decide (moderationStatus l = mod_approved)) then
          match user with
          | None => (s, Fail 403 (Message_ "This listing is pending approval"))
          | Some (uid, u) =>
              if bool_decide populated then
                if negb (is_seller uid) && negb (User.isAdmin u)
                then (s, Fail 403 (Message_ "This listing is pending approval"))
                else serve
              else (s, Fail 500 (Message_ "Server error"))
          end
        else serve
  end.

(** [GET /api/listings/:id/similar]: the newest four of the same category. *)
Definition getSimilar (s : Store) (now : Date) (id : Id)
    : Response (list (Id * Listing.t)) :=
  match listings s !! id with
  | None => Fail 404 (Message_ "Listing not found")
  | Some l =>
      Success 200
        (page recent 0 4
           (filter (fun kv => fst kv ≠ id
                              ∧ category (snd kv) = category l
                              ∧ queryObj now (snd kv) = true) (listings s)))
  end.

(** The cleanup job of [server.js]:
    [Listing.deleteMany({ isDeleted: true, deletedAt: { $lte: twoDaysAgo } })] *)
Definition purgeable (now : Date) (l : Listing.t) : bool :=
  let twoDaysAgo := now - twoDaysInMs in
  isDeleted l
  && match deletedAt l with
     | Some d => d <=? twoDaysAgo
     | None => false
     end.

Definition cleanupDeletedListings (s : Store) (now : Date) : Store :=
  set_listings s (filter (fun kv => purgeable now (snd kv) = false) (listings s)).

End ListingRoutes.

Module ListingWrites.
Import Listing.

Record File := { filename : string }.

(** [req.body.location]: a JSON string that [JSON.parse] accepts or rejects
    (with the message of its [SyntaxError]), or an object already. *)
Inductive LocationInput : Type :=
| Malformed (message : string)
| Place (area : option string) (city : option string).

(** [req.body] of [POST /api/listings] after the validation chain ran its
    sanitizers ([trim] on title and description).  [price] is [None] when
    [isNumeric] rejects it, otherwise [Number(price)]. *)
Record CreateBody := {
  b_title : string;
  b_description : string;
  b_price : option Z;
  b_category : string;
  b_condition : string;
  b_location : option LocationInput
}.

Definition nonEmpty (x : string) : bool := negb (String.eqb x "").

(** The checks of the express-validator chain; the messages they collect. *)
Definition chain_errors (b : CreateBody) : list string :=
  (if nonEmpty (b_title b) then [] else ["Title is required"%string])
  ++ (if nonEmpty (b_description b) then [] else ["Description is required"%string])
  ++ (match b_price b with Some _ => [] | None => ["Valid price is required"%string] end)
  ++ (if nonEmpty (b_category b) then [] else ["Category is required"%string])
  ++ (if nonEmpty (b_condition b) then [] else ["Condition is required"%string])
  ++ (match b_location b with Some _ => [] | None => ["Location is required"%string] end).

Definition categories : list string :=
  ["Furniture"; "Electronics"; "Books"; "Kitchen"; "Clothing"; "Sports";
   "Toys"; "Other"]%string.
Definition conditions : list string := ["New"; "Like New"; "Good"; "Fair"]%string.
Definition areas : list string :=
  ["Maadi"; "New Cairo"; "Zamalek"; "Downtown"; "Heliopolis"; "Nasr City";
   "Sheikh Zayed"; "6th of October"; "Giza"; "Mohandessin"; "Dokki"; "Tagamoa";
   "Rehab"; "Madinet Nasr"; "El Mokattam"; "Ain Shams"; "Shubra"; "Other"]%string.
Definition deleteReasons : list string :=
  ["Item Sold"; "No Longer Available"; "Posted by Mistake"; "Price Changed";
   "Found Better Buyer"; "Item Damaged"; "Other"]%string.

Definition member (x : string) (l : list string) : bool := existsb (String.eqb x) l.

(** The validators of [listingSchema] that [Listing.create] runs; the paths
    that fail. *)
Definition schema_errors (title description : string) (price : Z)
    (category condition : string) (area : option string) : list string :=
  (if (String.length title <=? 100)%nat then [] else ["title"%string])
  ++ (if (String.length description <=? 2000)%nat then [] else ["description"%string])
  ++ (if 1 <=? price then [] else ["price"%string])
  ++ (if member category categories then [] else ["category"%string])
  ++ (if member condition conditions then [] else ["condition"%string])
  ++ (match area with
      | Some a => if member a areas then [] else ["location.area"%string]
      | None => ["location.area"%string]
      end).

(** The document [Listing.create] stores: the fields of the request and the
    defaults of the schema. *)
Definition new_listing (now : Date) (sellerId : Id) (title description : string)
    (price : Z) (category condition : string) (area : string)
    (city : option string) (files : list File) : Listing.t :=
  {| title := title; description := description; price := price;
     category := category; condition := condition;
     images :=
       (fun f => {| Listing.url := "/uploads/" +:+ filename f;
                    Listing.filename := filename f |}) <$> files;
     location := {| area := area; city := default "Cairo" city |};
     seller := sellerId;
     status := active;
     featured := false;
     views := 0;
     favoritesCount := 0;
     reports := [];
     moderationStatus := mod_pending;
     moderationNote := None;
     isDeleted := false;
     deletedAt := None;
     deleteReason := None;
     createdAt := now |}.

(** [POST /api/listings]: [protect], [verifiedOnly], the upload and the
    validation chain, then the handler. *)
Definition createListing (s : Store) (now : Date) (token : option Id)
    (b : CreateBody) (files : list File) : Store * Response (Id * Listing.t) :=
  match Auth.protect s now token with
  | (s, inl r) => (s, r)
  | (s, inr (uid, user)) =>
      match Auth.verifiedOnly user with
      | Some r => (s, r)
      | None =>
          match chain_errors b, b_price b, b_location b with
          | [], Some price, Some loc =>
              match loc with
              | Malformed m =>
                  (s, Fail 500 (Message_ (if nonEmpty m then m else "Server error")))
              | Place area city =>
                  match schema_errors (b_title b) (b_description b) price
                          (b_category b) (b_condition b) area, area with
                  | [], Some a =>
                      let id := nextId s in
                      let l := new_listing now uid (b_title b) (b_description b)
                                 price (b_category b) (b_condition b) a city files in
                      ({| users := users s;
                          listings := <[id := l]> (listings s);
                          conversations := conversations s;
                          messages := messages s;
                          nextId := Pos.succ id |},
                       Success 201 (id, l))
                  | errs, _ => (s, Fail 400 (Errors (Some "Validation error"%string) errs))
                  end
              end
          | errs, _, _ => (s, Fail 400 (Errors (Some "Validation failed"%string) errs))
          end
      end
  end.

(** [Array.prototype.indexOf] on an array of ids; [None] stands for [-1]. *)
Fixpoint indexOf (x : Id) (l : list Id) : option nat :=
  match l with
  | [] => None
  | y :: l' => if bool_decide (y = x) then Some O else S <$> indexOf x l'
  end.

(** [array.splice(i, 1)] *)
Definition splice1 (i : nat) (l : list Id) : list Id := take i l ++ drop (S i) l.

(** [POST /api/listings/:id/favorite]; the body is
    [{ isFavorited, favoritesCount }]. *)
Definition favorite (s : Store) (now : Date) (token : option Id) (id : Id)
    : Store * Response (bool * Z) :=
  match Auth.protect s now token with
  | (s, inl r) => (s, r)
  | (s, inr (uid, user)) =>
      match listings s !! id with
      | None => (s, Fail 404 (Message_ "Listing not found"))
      | Some l =>
          let favoriteIndex := indexOf id (User.favorites user) in
          let '(user', l') :=
            match favoriteIndex with
            | Some i =>
                (User.set_favorites user (splice1 i (User.favorites user)),
                 set_favoritesCount l (Z.max 0 (favoritesCount l - 1)))
            | None =>
                (User.set_favorites user (User.favorites user ++ [id]),
                 set_favoritesCount l (favoritesCount l + 1))
            end in
          (save_listing (save_user s uid user') id l',
           Success 200 (bool_decide (favoriteIndex = None), favoritesCount l'))
      end
  end.

(** [POST /api/listings/:id/report]; [reason] is the trimmed body field. *)
Definition report (s : Store) (now : Date) (token : option Id) (id : Id)
    (reason : string) : Store * Response unit :=
  match Auth.protect s now token with
  | (s, inl r) => (s, r)
  | (s, inr (uid, _)) =>
      if negb (nonEmpty reason)
      then (s, Fail 400 (Errors None ["Reason is required"%string]))
      else
        match listings s !! id with
        | None => (s, Fail 404 (Message_ "Listing not found"))
        | Some l =>
            let alreadyReported :=
              existsb (fun r => bool_decide (Listing.user r = uid)) (reports l) in
            if alreadyReported
            then (s, Fail 400 (Message_ "You have already reported this listing"))
            else
              let l1 :=
                set_reports l
                  (reports l ++ [{| Listing.user := uid; reason := reason;
                                    reportedAt := now |}]) in
              let l2 :=
                if (3 <=? length (reports l1))%nat
                then set_moderation l1 mod_pending (moderationNote l1)
                else l1 in
              (save_listing s id l2, Success 200 tt)
        end
  end.

(** [DELETE /api/listings/:id]: the soft delete.  A reason outside the enum
    fails the schema validation of [save], which the handler reports as a
    server error. *)
Definition softDelete (s : Store) (now : Date) (token : option Id) (id : Id)
    (reason : string) : Store * Response Listing.t :=
  match Auth.protect s now token with
  | (s, inl r) => (s, r)
  | (s, inr (uid, _)) =>
      if negb (nonEmpty reason)
      then (s, Fail 400 (Errors None ["Please select a reason for deletion"%string]))
      else
        match listings s !! id with
        | None => (s, Fail 404 (Message_ "Listing not found"))
        | Some l =>
            if negb (bool_decide (seller l = uid))
            then (s, Fail 403 (Message_ "Not authorized to delete this listing"))
            else if negb (member reason deleteReasons)
            then (s, Fail 500 (Message_ "Server error"))
            else
              let l' := set_status (set_deleted l now reason) sold in
              (save_listing s id l', Success 200 l')
        end
  end.

End ListingWrites.

(** ** Message routes ([routes/messages.js]) *)

Module MessageRoutes.

(** [io.emit(...)]: a broadcast to every connected client. *)
Inductive Event : Type :=
| newMessage (conversation : Id) (message : Message.t).

(** [const { content, type = 'text' } = req.body], then the enum of the
    schema. *)
Definition parse_type (type : option string) : option Message.kind :=
  match type with
  | None => Some Message.text
  | Some t =>
      if String.eqb t "text" then Some Message.text
      else if String.eqb t "image" then Some Message.image
      else if String.eqb t "system" then Some Message.system
      else None
  end.

(** [$push: { notifications: { $each: [n], $slice: -50 } }] *)
Definition push_slice (l : list Notification.t) (n : Notification.t)
    : list Notification.t :=
  let l' := l ++ [n] in
  drop (length l' - 50) l'.

Definition message_notice (now : Date) (senderName : string) (conversationId : Id)
    : Notification.t :=
  {| Notification.type := Notification.message;
     Notification.title := "New Message";
     Notification.content := senderName +:+ " sent you a message";
     Notification.read := false;
     Notification.relatedId := Some conversationId;
     Notification.createdAt := now |}.

(** [POST /api/messages/:conversationId]; [content] is the trimmed body
    field.  The message is stored before the conversation is touched, so a
    failure after [Message.create] leaves it behind. *)
Definition sendMessage (s : Store) (now : Date) (token : option Id)
    (conversationId : Id) (content : jsstring) (type : option string)
    : Store * list Event * Response (Id * Message.t) :=
  match Auth.protect s now token with
  | (s, inl r) => (s, [], r)
  | (s, inr (uid, user)) =>
      match content with
      | [] => (s, [], Fail 400 (Errors None ["Message content is required"%string]))
      | _ =>
          match conversations s !! conversationId with
          | None => (s, [], Fail 404 (Message_ "Conversation not found"))
          | Some conversation =>
              if negb (bool_decide (uid ∈ Conversation.participants conversation))
              then (s, [], Fail 403 (Message_ "Not authorized"))
              else
                let filterResult :=
                  ContentFilter.filterPersonalInfo content ContentFilter.default_options in
                let stored := ContentFilter.r_filtered filterResult in
                match parse_type type with
                | None => (s, [], Fail 500 (Message_ "Server error"))
                | Some kind =>
                    if (1000 <? length stored)%nat || bool_decide (stored = [])
                    then (s, [], Fail 500 (Message_ "Server error"))
                    else
                      let message :=
                        {| Message.conversation := conversationId;
                           Message.sender := uid;
                           Message.content := stored;
                           Message.originalContent :=
                             if ContentFilter.r_hasFiltered filterResult
                             then Some content else None;
                           Message.isFiltered := ContentFilter.r_hasFiltered filterResult;
                           Message.type := kind;
                           Message.read := false;
                           Message.readAt := None;
                           Message.createdAt := now |} in
                      let mid := nextId s in
                      let s1 :=
                        {| users := users s; listings := listings s;
                           conversations := conversations s;
                           messages := <[mid := message]> (messages s);
                           nextId := Pos.succ mid |} in
                      let lastMessage :=
                        {| Conversation.content := content;
                           Conversation.sender := uid;
                           Conversation.createdAt := now |} in
                      match List.find (fun p => negb (bool_decide (p = uid)))
                              (Conversation.participants conversation) with
                      | None => (s1, [], Fail 500 (Message_ "Server error"))
                      | Some otherParticipant =>
                          let currentUnread :=
                            default 0 (Conversation.unreadCount conversation
                                         !! otherParticipant) in
                          let conversation' :=
                            {| Conversation.participants :=
                                 Conversation.participants conversation;
                               Conversation.listing := Conversation.listing conversation;
                               Conversation.lastMessage := Some lastMessage;
                               Conversation.unreadCount :=
                                 <[otherParticipant := currentUnread + 1]>
                                   (Conversation.unreadCount conversation);
                               Conversation.isActive := Conversation.isActive conversation;
                               Conversation.updatedAt := now |} in
                          let s2 := save_conversation s1 conversationId conversation' in
                          let s3 :=
                            match users s2 !! otherParticipant with
                            | Some receiver =>
                                save_user s2 otherParticipant
                                  (User.set_notifications receiver
                                     (push_slice (User.notifications receiver)
                                        (message_notice now (User.name user)
                                           conversationId)))
                            | None => s2
                            end in
                          (s3, [newMessage conversationId message],
                           Success 201 (mid, message))
                      end
                end
          end
      end
  end.

(** What a query returns of a message: [originalContent] has
    [select: false]. *)
Definition selected (m : Message.t) : Message.t :=
  {| Message.conversation := Message.conversation m;
     Message.sender := Message.sender m;
     Message.content := Message.content m;
     Message.originalContent := None;
     Message.isFiltered := Message.isFiltered m;
     Message.type := Message.type m;
     Message.read := Message.read m;
     Message.readAt := Message.readAt m;
     Message.createdAt := Message.createdAt m |}.

(** [GET /api/messages/conversations]: the active conversations of the
    caller, each with the caller's unread count. *)
Definition getConversations (s : Store) (now : Date) (token : option Id)
    : Store * Response (gmap Id (Conversation.t * Z)) :=
  match Auth.protect s now token with
  | (s, inl r) => (s, r)
  | (s, inr (uid, _)) =>
      (s, Success 200
            ((fun c => (c, default 0 (Conversation.unreadCount c !! uid)))
               <$> filter (fun kv => uid ∈ Conversation.participants (snd kv)
                                     ∧ Conversation.isActive (snd kv) = true)
                     (conversations s)))
  end.

Definition mark_read (now : Date) (m : Message.t) : Message.t :=
  {| Message.conversation := Message.conversation m;
     Message.sender := Message.sender m;
     Message.content := Message.content m;
     Message.originalContent := Message.originalContent m;
     Message.isFiltered := Message.isFiltered m;
     Message.type := Message.type m;
     Message.read := true;
     Message.readAt := Some now;
     Message.createdAt := Message.createdAt m |}.

(** [GET /api/messages/conversations/:id]: the thread as it was read, before
    its messages are marked. *)
Definition getConversation (s : Store) (now : Date) (token : option Id) (id : Id)
    : Store * Response (Conversation.t * gmap Id Message.t) :=
  match Auth.protect s now token with
  | (s, inl r) => (s, r)
  | (s, inr (uid, _)) =>
      match conversations s !! id with
      | None => (s, Fail 404 (Message_ "Conversation not found"))
      | Some conversation =>
          if negb (bool_decide (uid ∈ Conversation.participants conversation))
          then (s, Fail 403 (Message_ "Not authorized"))
          else
            let found :=
              selected <$> filter (fun kv => Message.conversation (snd kv) = id)
                             (messages s) in
            let marked :=
              (fun m =>
                 if bool_decide (Message.conversation m = id)
                    && negb (bool_decide (Message.sender m = uid))
                    && negb (Message.read m)
                 then mark_read now m else m) <$> messages s in
            let conversation' :=
              {| Conversation.participants := Conversation.participants conversation;
                 Conversation.listing := Conversation.listing conversation;
                 Conversation.lastMessage := Conversation.lastMessage conversation;
                 Conversation.unreadCount :=
                   <[uid := 0]> (Conversation.unreadCount conversation);
                 Conversation.isActive := Conversation.isActive conversation;
                 Conversation.updatedAt := now |} in
            (save_conversation
               {| users := users s; listings := listings s;
                  conversations := conversations s; messages := marked;
                  nextId := nextId s |} id conversation',
             Success 200 (conversation', found))
      end
  end.

(** The body of [GET /api/messages/:messageId/original]. *)
Record original := {
  o_content : jsstring;
  o_originalContent : jsstring;
  o_isFiltered : bool;
  o_sender : Id;
  o_createdAt : Date
}.

(** [GET /api/messages/:messageId/original] *)
Definition getOriginal (s : Store) (now : Date) (token : option Id) (messageId : Id)
    : Store * Response original :=
  match Auth.protect s now token with
  | (s, inl r) => (s, r)
  | (s, inr (_, user)) =>
      if negb (User.isAdmin user)
      then (s, Fail 403 (Message_ "Not authorized - Admin access required"))
      else
        match messages s !! messageId with
        | None => (s, Fail 404 (Message_ "Message not found"))
        | Some m =>
            (s, Success 200
                  {| o_content := Message.content m;
                     o_originalContent :=
                       match Message.originalContent m with
                       | Some o => match o with [] => Message.content m | _ => o end
                       | None => Message.content m
                       end;
                     o_isFiltered := Message.isFiltered m;
                     o_sender := Message.sender m;
                     o_createdAt := Message.createdAt m |})
        end
  end.

End MessageRoutes.

(** ** The vocabulary of the specification *)

Module Spec.

(** The failure kinds of the specification.  The handlers answer with a
    status code and a message; state-precondition and duplicate rejections
    share status 400 with input validation, so they are told apart by the
    message of the rejecting guard. *)
Inductive ErrorKind :=
| ValidationError
| AuthorizationError
| NotFoundError
| ConflictError
| DuplicateError
| InternalError.

Definition conflict_messages : list string :=
  ["Already verified"; "Verification already pending review";
   "No pending verification for this user"]%string.

Definition duplicate_messages : list string :=
  ["You have already reported this listing"]%string.

Definition errorKind {A} (r : Response A) : option ErrorKind :=
  match r with
  | Success _ _ => None
  | Fail code why =>
      if code =? 404 then Some NotFoundError
      else if (code =? 401) || (code =? 403) then Some AuthorizationError
      else if code =? 400 then
        match why with
        | Message_ m =>
            if existsb (String.eqb m) conflict_messages then Some ConflictError
            else if existsb (String.eqb m) duplicate_messages then Some DuplicateError
            else Some ValidationError
        | _ => Some ValidationError
        end
      else Some InternalError
  end.


(** The submission rule in the words of the specification: a known document
    type, one image for a passport and two otherwise. *)
Definition acceptable_documents (documentType : option string) (images : nat) : bool :=
  match documentType with
  | Some t =>
      if String.eqb t "passport" then (images =? 1)%nat
      else if String.eqb t "student_card" || String.eqb t "residential_card"
      then (images =? 2)%nat
      else false
  | None => false
  end.

End Spec.


(** ** Further routes of the same files *)

(** Field updates on a user document. *)
Definition with_salesCount (u : User.t) (n : Z) : User.t :=
  {| User.name := User.name u; User.email := User.email u; User.salesCount := n;
     User.favorites := User.favorites u; User.notifications := User.notifications u;
     User.isAdmin := User.isAdmin u; User.isActive := User.isActive u;
     User.verification := User.verification u; User.lastSeen := User.lastSeen u |}.
Definition with_isAdmin (u : User.t) (b : bool) : User.t :=
  {| User.name := User.name u; User.email := User.email u;
     User.salesCount := User.salesCount u; User.favorites := User.favorites u;
     User.notifications := User.notifications u; User.isAdmin := b;
     User.isActive := User.isActive u; User.verification := User.verification u;
     User.lastSeen := User.lastSeen u |}.
Definition with_isActive (u : User.t) (b : bool) : User.t :=
  {| User.name := User.name u; User.email := User.email u;
     User.salesCount := User.salesCount u; User.favorites := User.favorites u;
     User.notifications := User.notifications u; User.isAdmin := User.isAdmin u;
     User.isActive := b; User.verification := User.verification u;
     User.lastSeen := User.lastSeen u |}.

Module FilterStats.
Import ContentFilter.

(** The result of [getFilterStats]. *)
Record stats := {
  hasPersonalInfo : bool;
  types : list string;
  count : nat;
  found : option (list (string * list jsstring))
}.

(** [getFilterStats]: the keys of [matches] and the number of matches over
    all keys. *)
Definition getFilterStats (text : jsstring) : stats :=
  let result :=
    filterPersonalInfo text
      {| replacement := utf16 "[HIDDEN]"; preserveLength := false;
         returnMatches := true |} in
  let ms := default [] (r_matches result) in
  {| hasPersonalInfo := r_hasFiltered result;
     types := fst <$> ms;
     count := foldl (fun sum arr => (sum + length (snd arr))%nat) 0%nat ms;
     found := r_matches result |}.

End FilterStats.

Module ListingOwner.
Import Listing.

(** [PUT /api/listings/:id/sold] *)
Definition markSold (s : Store) (now : Date) (token : option Id) (id : Id)
    : Store * Response unit :=
  match Auth.protect s now token with
  | (s, inl r) => (s, r)
  | (s, inr (uid, _)) =>
      match listings s !! id with
      | None => (s, Fail 404 (Message_ "Listing not found"))
      | Some l =>
          if negb (bool_decide (seller l = uid))
          then (s, Fail 403 (Message_ "Not authorized"))
          else
            let s1 := save_listing s id (set_status l sold) in
            (* [User.findByIdAndUpdate(req.user._id, { $inc: { salesCount: 1 } })] *)
            let s2 :=
              match users s1 !! uid with
              | Some u => save_user s1 uid (with_salesCount u (User.salesCount u + 1))
              | None => s1
              end in
            (s2, Success 200 tt)
      end
  end.

End ListingOwner.

Module AdminUsers.

(** The user summary that the toggles answer with. *)
Record summary := {
  sum_id : Id;
  sum_name : string;
  sum_email : string;
  sum_isAdmin : bool;
  sum_isActive : bool
}.

Definition summarize (id : Id) (u : User.t) : summary :=
  {| sum_id := id; sum_name := User.name u; sum_email := User.email u;
     sum_isAdmin := User.isAdmin u; sum_isActive := User.isActive u |}.

(** [PUT /api/admin/users/:id/role] *)
Definition toggleRole (s : Store) (now : Date) (token : option Id) (id : Id)
    : Store * Response (string * summary) :=
  match AdminRoutes.guard s now token with
  | (s, inl r) => (s, r)
  | (s, inr (adminId, _)) =>
      match users s !! id with
      | None => (s, Fail 404 (Message_ "User not found"))
      | Some user =>
          if bool_decide (id = adminId)
          then (s, Fail 400 (Message_ "Cannot modify your own admin role"))
          else
            let user' := with_isAdmin user (negb (User.isAdmin user)) in
            (save_user s id user',
             Success 200
               ("User " +:+ (if User.isAdmin user' then "promoted to" else "removed from")
                  +:+ " admin",
                summarize id user'))
      end
  end.

(** [PUT /api/admin/users/:id/status] *)
Definition toggleStatus (s : Store) (now : Date) (token : option Id) (id : Id)
    : Store * Response (string * summary) :=
  match AdminRoutes.guard s now token with
  | (s, inl r) => (s, r)
  | (s, inr (adminId, _)) =>
      match users s !! id with
      | None => (s, Fail 404 (Message_ "User not found"))
      | Some user =>
          if bool_decide (id = adminId)
          then (s, Fail 400 (Message_ "Cannot deactivate your own account"))
          else
            let user' := with_isActive user (negb (User.isActive user)) in
            (save_user s id user',
             Success 200
               ("User account "
                  +:+ (if User.isActive user' then "activated" else "deactivated"),
                summarize id user'))
      end
  end.

(** [PUT /api/users/:id/status] of [routes/users.js]: the same toggle behind
    [protect] and [adminOnly], without the check on the caller's own
    account. *)
Definition toggleStatusUsers (s : Store) (now : Date) (token : option Id) (id : Id)
    : Store * Response (Id * string * string * bool) :=
  match AdminRoutes.guard s now token with
  | (s, inl r) => (s, r)
  | (s, inr _) =>
      match users s !! id with
      | None => (s, Fail 404 (Message_ "User not found"))
      | Some user =>
          let user' := with_isActive user (negb (User.isActive user)) in
          (save_user s id user',
           Success 200 (id, User.name user', User.email user', User.isActive user'))
      end
  end.

(** [DELETE /api/admin/listings/:id]: the hard delete. *)
Definition deleteListing (s : Store) (now : Date) (token : option Id) (id : Id)
    : Store * Response unit :=
  match AdminRoutes.guard s now token with
  | (s, inl r) => (s, r)
  | (s, inr _) =>
      match listings s !! id with
      | None => (s, Fail 404 (Message_ "Listing not found"))
      | Some _ => (set_listings s (delete id (listings s)), Success 200 tt)
      end
  end.

End AdminUsers.

Module ConversationRoutes.

(** [Conversation.findOne({ participants: { $all: [a, b] }, listing })]: a
    conversation on that listing whose participants include both users.
    When several match, Mongo returns the first in its own order; here the
    first in the enumeration of the collection. *)
Definition between (a b listingId : Id) (c : Conversation.t) : Prop :=
  a ∈ Conversation.participants c ∧ b ∈ Conversation.participants c
  ∧ Conversation.listing c = listingId.

#[global] Instance between_dec a b listingId c : Decision (between a b listingId c).
Proof. unfold between. apply _. Defined.

Definition findOne (a b listingId : Id) (s : Store) : option (Id * Conversation.t) :=
  head (map_to_list (filter (fun kv => between a b listingId (snd kv))
                       (conversations s))).

(** The body of a successful [POST /api/messages/conversations]. *)
Record started := {
  conversationId : Id;
  conversation : Conversation.t;
  isNew : bool
}.

(** A body field that is to hold an id, as the handler receives it: the raw
    value of the request body.  [Spelled id canonical] is a value that
    Mongoose casts to [id]; [canonical] tells whether the value is the very
    string that [id.toString()] gives, 24 lower-case hex digits.  Other
    spellings, with upper-case digits for instance, cast to the same id and
    are different strings.  [Uncastable] is a non-empty value that Mongoose
    refuses with a CastError. *)
Inductive IdInput : Type :=
| Spelled (id : Id) (canonical : bool)
| Uncastable.

(** What Mongoose makes of the value in a query or a document. *)
Definition cast (v : IdInput) : option Id :=
  match v with
  | Spelled id _ => Some id
  | Uncastable => None
  end.

(** [sellerId === req.user._id.toString()]: the comparison of the raw value
    with the caller's id as a string. *)
Definition is_string_of (v : IdInput) (uid : Id) : bool :=
  match v with
  | Spelled id true => bool_decide (id = uid)
  | _ => false
  end.

(** [POST /api/messages/conversations]; a missing or empty body field is
    [None].  The guard against messaging oneself compares the raw body
    value, the queries and the new document cast it; a CastError is caught
    and answered with 500. *)
Definition startConversation (s : Store) (now : Date) (token : option Id)
    (listingId sellerId : option IdInput) : Store * Response started :=
  match Auth.protect s now token with
  | (s, inl r) => (s, r)
  | (s, inr (uid, _)) =>
      match listingId, sellerId with
      | Some listingId, Some sellerId =>
          if is_string_of sellerId uid
          then (s, Fail 400 (Message_ "You cannot message yourself"))
          else
            match cast listingId with
            | None => (s, Fail 500 (Message_ "Server error"))
            | Some lid =>
                match listings s !! lid with
                | None => (s, Fail 404 (Message_ "Listing not found"))
                | Some _ =>
                    match cast sellerId with
                    | None => (s, Fail 500 (Message_ "Server error"))
                    | Some sid =>
                        match findOne uid sid lid s with
                        | Some (cid, c) =>
                            (s, Success 200
                                  {| conversationId := cid; conversation := c;
                                     isNew := false |})
                        | None =>
                            let cid := nextId s in
                            let c :=
                              {| Conversation.participants := [uid; sid];
                                 Conversation.listing := lid;
                                 Conversation.lastMessage := None;
                                 Conversation.unreadCount := ∅;
                                 Conversation.isActive := true;
                                 Conversation.updatedAt := now |} in
                            ({| users := users s; listings := listings s;
                                conversations := <[cid := c]> (conversations s);
                                messages := messages s;
                                nextId := Pos.succ cid |},
                             Success 201
                               {| conversationId := cid; conversation := c;
                                  isNew := true |})
                        end
                    end
                end
            end
      | _, _ =>
          (s, Fail 400 (Errors None
                 ((match listingId with
                   | Some _ => []
                   | None => ["Listing ID is required"%string]
                   end)
                  ++ (match sellerId with
                      | Some _ => []
                      | None => ["Seller ID is required"%string]
                      end))))
      end
  end.

(** [DELETE /api/messages/conversations/:id]: the archive. *)
Definition archiveConversation (s : Store) (now : Date) (token : option Id) (id : Id)
    : Store * Response unit :=
  match Auth.protect s now token with
  | (s, inl r) => (s, r)
  | (s, inr (uid, _)) =>
      match conversations s !! id with
      | None => (s, Fail 404 (Message_ "Conversation not found"))
      | Some c =>
          if negb (bool_decide (uid ∈ Conversation.participants c))
          then (s, Fail 403 (Message_ "Not authorized"))
          else
            (save_conversation s id
               {| Conversation.participants := Conversation.participants c;
                  Conversation.listing := Conversation.listing c;
                  Conversation.lastMessage := Conversation.lastMessage c;
                  Conversation.unreadCount := Conversation.unreadCount c;
                  Conversation.isActive := false;
                  Conversation.updatedAt := now |},
             Success 200 tt)
      end
  end.

(** [GET /api/messages/unread/count]: the caller's counters over the active
    conversations, added up. *)
Definition unreadCount (s : Store) (now : Date) (token : option Id)
    : Store * Response Z :=
  match Auth.protect s now token with
  | (s, inl r) => (s, r)
  | (s, inr (uid, _)) =>
      (s, Success 200
            (map_fold
               (fun _ conv totalUnread =>
                  totalUnread + default 0 (Conversation.unreadCount conv !! uid))
               0
               (filter (fun kv => uid ∈ Conversation.participants (snd kv)
                                  ∧ Conversation.isActive (snd kv) = true)
                  (conversations s))))
  end.

End ConversationRoutes.

Module NotificationRoutes.

(** [array.sort((a, b) => new Date(b.createdAt) - new Date(a.createdAt))]:
    newest first; the sort of the language is stable, so notifications of
    the same instant keep their order. *)
Fixpoint insert_sorted (n : Notification.t) (l : list Notification.t)
    : list Notification.t :=
  match l with
  | [] => [n]
  | m :: l' =>
      if Notification.createdAt m <=? Notification.createdAt n
      then n :: l
      else m :: insert_sorted n l'
  end.

Definition sort_newest_first (l : list Notification.t) : list Notification.t :=
  foldr insert_sorted [] l.

(** [GET /api/auth/notifications]; the body is
    [{ notifications, unreadCount }]. *)
Definition getNotifications (s : Store) (now : Date) (token : option Id)
    : Store * Response (list Notification.t * nat) :=
  match Auth.protect s now token with
  | (s, inl r) => (s, r)
  | (s, inr (uid, _)) =>
      match users s !! uid with
      | None => (s, Fail 500 (Message_ "Server error"))
      | Some user =>
          let notifications :=
            take 30 (sort_newest_first (User.notifications user)) in
          let unreadCount :=
            length (filter (fun n => Notification.read n = false) notifications) in
          (s, Success 200 (notifications, unreadCount))
      end
  end.

Definition mark (n : Notification.t) : Notification.t :=
  {| Notification.type := Notification.type n;
     Notification.title := Notification.title n;
     Notification.content := Notification.content n;
     Notification.read := true;
     Notification.relatedId := Notification.relatedId n;
     Notification.createdAt := Notification.createdAt n |}.

(** [PUT /api/auth/notifications/read]:
    [$set: { 'notifications.$[].read': true }] on the caller's document. *)
Definition markAllRead (s : Store) (now : Date) (token : option Id)
    : Store * Response unit :=
  match Auth.protect s now token with
  | (s, inl r) => (s, r)
  | (s, inr (uid, _)) =>
      let s' :=
        match users s !! uid with
        | Some user =>
            save_user s uid
              (User.set_notifications user (mark <$> User.notifications user))
        | None => s
        end in
      (s', Success 200 tt)
  end.

End NotificationRoutes.

(** ** The socket registry of [server.js] *)

Module Sockets.

Definition SocketId := positive.

(** [connectedUsers] and the [userId] property of each open socket.  User ids
    travel as strings. *)
Record Hub := {
  connectedUsers : gmap string SocketId;
  userId : gmap SocketId string
}.

Inductive payload : Type :=
| userOnline (user : string)
| userOffline (user : string)
| newMessage (senderId receiverId : string) (content : jsstring)
    (listingId : string) (createdAt : Date)
| userTyping (senderId : option string).

(** [io.emit] and [io.to(socketId).emit]. *)
Inductive emit : Type :=
| ToAll (p : payload)
| To (socket : SocketId) (p : payload).

(** [socket.on('join', ...)] *)
Definition join (h : Hub) (socket : SocketId) (user : string) : Hub * list emit :=
  ({| connectedUsers := <[user := socket]> (connectedUsers h);
      userId := <[socket := user]> (userId h) |},
   [ToAll (userOnline user)]).

(** [socket.on('sendMessage', ...)] *)
Definition sendMessage (h : Hub) (now : Date) (senderId receiverId : string)
    (content : jsstring) (listingId : string) : Hub * list emit :=
  match connectedUsers h !! receiverId with
  | Some receiverSocketId =>
      (h, [To receiverSocketId (newMessage senderId receiverId content listingId now)])
  | None => (h, [])
  end.

(** [socket.on('typing', ...)] *)
Definition typing (h : Hub) (socket : SocketId) (receiverId : string)
    : Hub * list emit :=
  match connectedUsers h !! receiverId with
  | Some receiverSocketId =>
      (h, [To receiverSocketId (userTyping (userId h !! socket))])
  | None => (h, [])
  end.

(** [socket.on('disconnect', ...)]: [if (socket.userId)] is false for a
    socket that never joined and for one that joined under the empty
    string. *)
Definition disconnect (h : Hub) (socket : SocketId) : Hub * list emit :=
  match userId h !! socket with
  | Some user =>
      if String.eqb user ""
      then ({| connectedUsers := connectedUsers h;
               userId := delete socket (userId h) |}, [])
      else
        ({| connectedUsers := delete user (connectedUsers h);
            userId := delete socket (userId h) |},
         [ToAll (userOffline user)])
  | None => (h, [])
  end.

End Sockets.
(** An authenticated request: the token names an active account. *)
Definition signed_in (s : Store) (uid : Id) (u : User.t) : Prop :=
  users s !! uid = Some u ∧ User.isActive u = true.

(** ** A small store used to exercise the handlers *)

Module Sample.

Definition no_verification : Verification.t :=
  {| Verification.status := Verification.unverified;
     Verification.documentType := None;
     Verification.documentImages := [];
     Verification.submittedAt := None;
     Verification.reviewedAt := None;
     Verification.reviewedBy := None;
     Verification.rejectionReason := None |}.

Definition verification_in (st : Verification.state) (why : option string)
    : Verification.t :=
  {| Verification.status := st;
     Verification.documentType := Some "passport"%string;
     Verification.documentImages :=
       [{| Verification.url := "/uploads/p.jpg"; Verification.filename := "p.jpg" |}];
     Verification.submittedAt := Some 100;
     Verification.reviewedAt := None;
     Verification.reviewedBy := None;
     Verification.rejectionReason := why |}.

Definition account (name : string) (admin : bool) (v : option Verification.t)
    : User.t :=
  {| User.name := name; User.email := name +:+ "@example.org";
     User.salesCount := 0; User.favorites := []; User.notifications := [];
     User.isAdmin := admin; User.isActive := true; User.verification := v;
     User.lastSeen := 0 |}.

Definition admin : Id := 1%positive.
Definition sara : Id := 2%positive.
Definition omar : Id := 3%positive.
Definition rami : Id := 4%positive.
Definition lina : Id := 5%positive.
Definition mona : Id := 6%positive.

Definition admin_user := account "admin" true (Some (verification_in Verification.approved None)).
Definition sara_user := account "sara" false (Some (verification_in Verification.approved None)).
Definition omar_user := account "omar" false (Some no_verification).
Definition rami_user :=
  account "rami" false (Some (verification_in Verification.rejected (Some "blurred"%string))).
Definition lina_user := account "lina" false (Some (verification_in Verification.pending None)).
Definition mona_user := account "mona" false None.

Definition lamp (moderation : Listing.moderation) (st : Listing.state)
    (deleted : option Date) : Listing.t :=
  {| Listing.title := "Desk lamp"; Listing.description := "Works fine";
     Listing.price := 150; Listing.category := "Furniture";
     Listing.condition := "Good"; Listing.images := [];
     Listing.location := {| Listing.area := "Maadi"; Listing.city := "Cairo" |};
     Listing.seller := sara; Listing.status := st; Listing.featured := false;
     Listing.views := 0; Listing.favoritesCount := 0; Listing.reports := [];
     Listing.moderationStatus := moderation; Listing.moderationNote := None;
     Listing.isDeleted := bool_decide (is_Some deleted);
     Listing.deletedAt := deleted;
     Listing.deleteReason :=
       match deleted with Some _ => Some "Item Sold"%string | None => None end;
     Listing.createdAt := 0 |}.

Definition live : Id := 10%positive.
Definition gone : Id := 11%positive.
Definition hidden_gone : Id := 12%positive.

Definition thread : Id := 20%positive.

Definition chat : Conversation.t :=
  {| Conversation.participants := [omar; sara];
     Conversation.listing := live;
     Conversation.lastMessage := None;
     Conversation.unreadCount := ∅;
     Conversation.isActive := true;
     Conversation.updatedAt := 0 |}.

Definition store : Store :=
  {| users :=
       list_to_map
         [(admin, admin_user); (sara, sara_user); (omar, omar_user);
          (rami, rami_user); (lina, lina_user); (mona, mona_user)];
     listings :=
       list_to_map
         [(live, lamp Listing.mod_approved Listing.active None);
          (gone, lamp Listing.mod_approved Listing.sold (Some 0));
          (hidden_gone, lamp Listing.mod_pending Listing.sold (Some 0))];
     conversations := {[ thread := chat ]};
     messages := ∅;
     nextId := 100%positive |}.

Definition scan1 : VerificationRoutes.File :=
  {| VerificationRoutes.filename := "front.jpg"; VerificationRoutes.dataUrl := None |}.
Definition scan2 : VerificationRoutes.File :=
  {| VerificationRoutes.filename := "back.jpg"; VerificationRoutes.dataUrl := None |}.

Definition old_notice (i : nat) : Notification.t :=
  {| Notification.type := Notification.system;
     Notification.title := "Notice";
     Notification.content := pretty i;
     Notification.read := true;
     Notification.relatedId := None;
     Notification.createdAt := Z.of_nat i |}.

(** The sample store once sara and lina hold fifty notifications each. *)
Definition crowded : Store :=
  save_user
    (save_user store sara
       (User.set_notifications sara_user (old_notice <$> seq 0 50)))
    lina (User.set_notifications lina_user (old_notice <$> seq 0 50)).

Definition inbox (s : Store) (uid : Id) : list Notification.t :=
  default [] (User.notifications <$> users s !! uid).

(** A dispatcher whose every call throws. *)
Definition broken_mailer : Mailer := fun _ => Threw.
Definition working_mailer : Mailer := fun _ => Returned.

End Sample.

Module SampleRequests.

Definition chair : ListingWrites.CreateBody :=
  {| ListingWrites.b_title := "Office chair";
     ListingWrites.b_description := "Barely used";
     ListingWrites.b_price := Some 900;
     ListingWrites.b_category := "Furniture";
     ListingWrites.b_condition := "Like New";
     ListingWrites.b_location :=
       Some (ListingWrites.Place (Some "Zamalek"%string) None) |}.

End SampleRequests.

(** ** The routes that write to the store, as [server.js] mounts them *)

Inductive Request : Type :=
| PostVerificationSubmit (token : option Id) (documentType : option string)
    (files : option (list VerificationRoutes.File))
| PutAdminModerate (mail : Mailer) (token : option Id) (id : Id)
    (action note : option string)
| PutAdminReview (mail : Mailer) (token : option Id) (userId : Id)
    (action reason : option string)
| GetListing (token : option Id) (id : Id)
| PostListing (token : option Id) (body : ListingWrites.CreateBody)
    (files : list ListingWrites.File)
| PostFavorite (token : option Id) (id : Id)
| PostReport (token : option Id) (id : Id) (reason : string)
| DeleteListing (token : option Id) (id : Id) (reason : string)
| PostMessage (token : option Id) (conversationId : Id) (content : jsstring)
    (type : option string)
| GetConversations (token : option Id)
| GetConversation (token : option Id) (id : Id)
| GetOriginalMessage (token : option Id) (messageId : Id)
| Sweep.

(** The store after a request is served at time [now]. *)
Definition serve (s : Store) (now : Date) (r : Request) : Store :=
  match r with
  | PostVerificationSubmit token documentType files =>
      (VerificationRoutes.submit s now token documentType files).1
  | PutAdminModerate mail token id action note =>
      (AdminRoutes.moderate mail s now token id action note).1.1
  | PutAdminReview mail token userId action reason =>
      (AdminRoutes.review mail s now token userId action reason).1.1
  | GetListing token id => (ListingRoutes.getListing s now token id).1
  | PostListing token body files =>
      (ListingWrites.createListing s now token body files).1
  | PostFavorite token id => (ListingWrites.favorite s now token id).1
  | PostReport token id reason => (ListingWrites.report s now token id reason).1
  | DeleteListing token id reason =>
      (ListingWrites.softDelete s now token id reason).1
  | PostMessage token conversationId content type =>
      (MessageRoutes.sendMessage s now token conversationId content type).1.1
  | GetConversations token => (MessageRoutes.getConversations s now token).1
  | GetConversation token id => (MessageRoutes.getConversation s now token id).1
  | GetOriginalMessage token messageId =>
      (MessageRoutes.getOriginal s now token messageId).1
  | Sweep => ListingRoutes.cleanupDeletedListings s now
  end.

(** A run of the server: requests served one after the other, each at its
    own time. *)
Definition serve_all (s : Store) (rs : list (Date * Request)) : Store :=
  foldl (fun s r => serve s (fst r) (snd r)) s rs.


(** ** Every modelled route *)

Inductive Call : Type :=
| Served (r : Request)
| PutSold (token : option Id) (id : Id)
| PutAdminRole (token : option Id) (id : Id)
| PutAdminStatus (token : option Id) (id : Id)
| PutUserStatus (token : option Id) (id : Id)
| DeleteAdminListing (token : option Id) (id : Id)
| PostConversation (token : option Id)
    (listingId sellerId : option ConversationRoutes.IdInput)
| DeleteConversation (token : option Id) (id : Id)
| GetUnreadCount (token : option Id)
| GetNotifications (token : option Id)
| PutNotificationsRead (token : option Id).

(** The store after a call is handled at time [now]. *)
Definition perform (s : Store) (now : Date) (c : Call) : Store :=
  match c with
  | Served r => serve s now r
  | PutSold token id => (ListingOwner.markSold s now token id).1
  | PutAdminRole token id => (AdminUsers.toggleRole s now token id).1
  | PutAdminStatus token id => (AdminUsers.toggleStatus s now token id).1
  | PutUserStatus token id => (AdminUsers.toggleStatusUsers s now token id).1
  | DeleteAdminListing token id => (AdminUsers.deleteListing s now token id).1
  | PostConversation token listingId sellerId =>
      (ConversationRoutes.startConversation s now token listingId sellerId).1
  | DeleteConversation token id =>
      (ConversationRoutes.archiveConversation s now token id).1
  | GetUnreadCount token => (ConversationRoutes.unreadCount s now token).1
  | GetNotifications token => (NotificationRoutes.getNotifications s now token).1
  | PutNotificationsRead token => (NotificationRoutes.markAllRead s now token).1
  end.

Definition perform_all (s : Store) (cs : list (Date * Call)) : Store :=
  foldl (fun s c => perform s (fst c) (snd c)) s cs.

(** The credential a call carries; the sweep and the public fetch of a
    listing run without [protect]. *)
Definition credential (c : Call) : option (option Id) :=
  match c with
  | Served (PostVerificationSubmit token _ _)
  | Served (PutAdminModerate _ token _ _ _)
  | Served (PutAdminReview _ token _ _ _)
  | Served (PostListing token _ _)
  | Served (PostFavorite token _)
  | Served (PostReport token _ _)
  | Served (DeleteListing token _ _)
  | Served (PostMessage token _ _ _)
  | Served (GetConversations token)
  | Served (GetConversation token _)
  | Served (GetOriginalMessage token _)
  | PutSold token _
  | PutAdminRole token _
  | PutAdminStatus token _
  | PutUserStatus token _
  | DeleteAdminListing token _
  | PostConversation token _ _
  | DeleteConversation token _
  | GetUnreadCount token
  | GetNotifications token
  | PutNotificationsRead token => Some token
  | Served (GetListing _ _) | Served Sweep => None
  end.
(** ** Auxiliary notions used in the statements *)

(** A request the review handler does not reject on its own: approve, or
    reject with a non-empty reason. *)
Definition well_formed_review (action reason : option string) : Prop :=
  action = Some "approve"%string
  ∨ (action = Some "reject"%string ∧ ∃ r, reason = Some r ∧ r ≠ ""%string).

Definition signed_in_admin (s : Store) (uid : Id) (u : User.t) : Prop :=
  signed_in s uid u ∧ User.isAdmin u = true.

(** The stored record after a successful review. *)
Definition reviewed (now : Date) (adminId : Id) (action reason : option string)
    (v : Verification.t) : Verification.t :=
  {| Verification.status :=
       if equals action "approve" then Verification.approved
       else Verification.rejected;
     Verification.documentType := Verification.documentType v;
     Verification.documentImages := Verification.documentImages v;
     Verification.submittedAt := Verification.submittedAt v;
     Verification.reviewedAt := Some now;
     Verification.reviewedBy := Some adminId;
     Verification.rejectionReason :=
       if equals action "reject" then reason
       else Verification.rejectionReason v |}.


(** A request body that passes the validation chain and the validators of
    the listing schema. *)
Definition valid_payload (b : ListingWrites.CreateBody) : Prop :=
  ListingWrites.chain_errors b = []
  ∧ ∃ price area city,
      ListingWrites.b_price b = Some price
      ∧ ListingWrites.b_location b = Some (ListingWrites.Place (Some area) city)
      ∧ ListingWrites.schema_errors (ListingWrites.b_title b)
          (ListingWrites.b_description b) price (ListingWrites.b_category b)
          (ListingWrites.b_condition b) (Some area) = [].

(** The users who hold listing [id] among their favorites. *)
Definition fans (s : Store) (id : Id) : gmap Id User.t :=
  filter (fun kv => id ∈ User.favorites (snd kv)) (users s).

(** The store invariant behind the favorites counter: no user holds a
    listing twice, and the counter of a listing is the number of users who
    hold it. *)
Definition favorites_in_sync (s : Store) : Prop :=
  (∀ uid u, users s !! uid = Some u → NoDup (User.favorites u))
  ∧ (∀ id l, listings s !! id = Some l →
       Listing.favoritesCount l = Z.of_nat (size (fans s id))).

Definition nonneg_counts (s : Store) : Prop :=
  map_Forall (fun _ l => 0 ≤ Listing.favoritesCount l) (listings s).

(** One when user [u] holds listing [id] among the favorites, zero
    otherwise. *)
Definition holds (id : Id) (u : User.t) : Z :=
  if decide (id ∈ User.favorites u) then 1 else 0.

(** The code units a pattern can take into a match. *)
Fixpoint consumes (r : Regex.re) (c : cu) : bool :=
  match r with
  | Regex.Eps | Regex.Bnd => false
  | Regex.Set_ f => f c
  | Regex.Cat r1 r2 | Regex.Alt r1 r2 => consumes r1 c || consumes r2 c
  | Regex.Opt r1 => consumes r1 c
  | Regex.Rep f _ _ => f c
  end.

(** The opening bracket of the redaction token, and how often a string
    holds it. *)
Definition bracket : cu := 91%N.
Definition brackets (s : jsstring) : nat := length (filter (fun c => c = bracket) s).

(** The text a token of a scan stands for. *)
Definition token_text (t : Regex.token) : jsstring :=
  match t with
  | Regex.Lit c => [c]
  | Regex.Hit m => m
  end.

(** The state of the filter is either untouched, or flagged and holding more
    opening brackets than the input. *)
Definition tracked (text : jsstring) (a : ContentFilter.acc) : Prop :=
  (ContentFilter.hasFiltered a = false ∧ ContentFilter.filtered a = text)
  ∨ (ContentFilter.hasFiltered a = true
     ∧ (brackets text < brackets (ContentFilter.filtered a))%nat).

(** Ids are handed out in increasing order: no favorite and no listing
    carries an id that is still to come. *)
Definition fresh_ids (s : Store) : Prop :=
  (∀ uid u, users s !! uid = Some u →
     ∀ x, x ∈ User.favorites u → (x < nextId s)%positive)
  ∧ (∀ id l, listings s !! id = Some l → (id < nextId s)%positive).

Definition consistent (s : Store) : Prop := favorites_in_sync s ∧ fresh_ids s.

(** [s'] differs from [s] in nothing that the favorites depend on: the
    favorites of every user are the same, the listings of [s'] are listings
    of [s] with the same counter, and ids only move forward. *)
Definition frames (s s' : Store) : Prop :=
  (nextId s ≤ nextId s')%positive
  ∧ (∀ uid, User.favorites <$> users s' !! uid = User.favorites <$> users s !! uid)
  ∧ (∀ id l', listings s' !! id = Some l' →
       ∃ l, listings s !! id = Some l
            ∧ Listing.favoritesCount l' = Listing.favoritesCount l).

(** The keys that [filterPersonalInfo] can enter into [matches], in the
    order of the walk. *)
Definition match_keys : list string :=
  ["phone_0"; "phone_1"; "phone_2"; "emails"; "url_0"; "url_1"; "url_2";
   "social_0"; "social_1"; "social_2"; "contact_0"]%string.

(** What the walk of [filterPersonalInfo] keeps true of its locals when
    matches are recorded: the flag is set exactly when a key was entered,
    and no key holds an empty array. *)
Definition recorded (a : ContentFilter.acc) : Prop :=
  (ContentFilter.hasFiltered a = true ↔ ContentFilter.matches a ≠ [])
  ∧ Forall (fun kv => snd kv ≠ []) (ContentFilter.matches a).

(** [s'] holds the accounts of [s], and [f] reads the same from each. *)
Definition accounts_keep {B} (f : User.t → B) (s s' : Store) : Prop :=
  ∀ uid, f <$> users s' !! uid = f <$> users s !! uid.

(** The two flags that decide what an account may do. *)
Definition flags (u : User.t) : bool * bool := (User.isAdmin u, User.isActive u).

(** The moves of a verification status: it stays, a submission makes it
    pending unless it is pending or approved already, and a review takes
    pending to approved or rejected. *)
Definition vstep (old new : option Verification.state) : Prop :=
  new = old
  ∨ (new = Some Verification.pending
     ∧ old ≠ Some Verification.pending ∧ old ≠ Some Verification.approved)
  ∨ (old = Some Verification.pending
     ∧ (new = Some Verification.approved ∨ new = Some Verification.rejected)).

(** Marking sold, call after call. *)
Definition sold_at (uid id : Id) (s : Store) (ts : list Date) : Store :=
  foldl (fun s t => (ListingOwner.markSold s t (Some uid) id).1) s ts.

(** A credential that [protect] turns away: none, one of an unknown account,
    or one of a deactivated account. *)
Definition refused (s : Store) (token : option Id) : Prop :=
  match token with
  | None => True
  | Some uid =>
      match users s !! uid with
      | None => True
      | Some u => User.isActive u = false
      end
  end.

(** The three routes that flip a flag of an account. *)
Definition is_toggle (c : Call) : bool :=
  match c with
  | PutAdminRole _ _ | PutAdminStatus _ _ | PutUserStatus _ _ => true
  | _ => false
  end.

(** The call carries the credential of an active admin. *)
Definition admin_call (s : Store) (c : Call) : Prop :=
  ∃ uid u, credential c = Some (Some uid) ∧ signed_in_admin s uid u.

(** Newest first. *)
Definition newer_or_same (a b : Notification.t) : Prop :=
  Notification.createdAt b ≤ Notification.createdAt a.

(** What may happen to a stored conversation: the participants and the
    listing stay, and an archived conversation stays archived. *)
Definition conv_step (c c' : Conversation.t) : Prop :=
  Conversation.participants c' = Conversation.participants c
  ∧ Conversation.listing c' = Conversation.listing c
  ∧ (Conversation.isActive c = false → Conversation.isActive c' = false).

(** What may happen to a stored message: it is marked read. *)
Definition msg_step (m m' : Message.t) : Prop :=
  Message.conversation m' = Message.conversation m
  ∧ Message.sender m' = Message.sender m
  ∧ Message.content m' = Message.content m
  ∧ Message.originalContent m' = Message.originalContent m
  ∧ Message.isFiltered m' = Message.isFiltered m
  ∧ Message.type m' = Message.type m
  ∧ Message.createdAt m' = Message.createdAt m
  ∧ (Message.read m = true → Message.read m' = true).

(** A handler that leaves conversations and messages alone. *)
Definition quiet (s s' : Store) : Prop :=
  conversations s' = conversations s ∧ messages s' = messages s
  ∧ (nextId s ≤ nextId s')%positive.

(** Conversations and messages of [s] are still there in [s'], moved along
    [conv_step] and [msg_step]. *)
Definition chats_evolve (s s' : Store) : Prop :=
  (nextId s ≤ nextId s')%positive
  ∧ (∀ cid c, conversations s !! cid = Some c →
       ∃ c', conversations s' !! cid = Some c' ∧ conv_step c c')
  ∧ (∀ mid m, messages s !! mid = Some m →
       ∃ m', messages s' !! mid = Some m' ∧ msg_step m m').

(** The invariant of the chat collections: a conversation has two
    participant entries, two conversations never share both the listing and
    the participants, and no conversation or message carries an id that is
    still to come.  The two entries may name the same user: the guard of
    [POST /api/messages/conversations] compares strings, and lets a caller
    through who spells their own id in another way. *)
Definition paired (c : Conversation.t) : Prop :=
  ∃ a b, Conversation.participants c = [a; b].

Definition chats_ok (s : Store) : Prop :=
  (∀ cid c, conversations s !! cid = Some c →
     paired c ∧ (cid < nextId s)%positive)
  ∧ (∀ i j ci cj,
       conversations s !! i = Some ci → conversations s !! j = Some cj →
       Conversation.listing ci = Conversation.listing cj →
       Conversation.participants ci ≡ₚ Conversation.participants cj →
       i = j)
  ∧ (∀ mid m, messages s !! mid = Some m → (mid < nextId s)%positive).

(** From a store whose chats are in order, [s'] is one too, and it holds the
    chats of [s] moved forward. *)
Definition chats_move (s s' : Store) : Prop :=
  chats_ok s → chats_ok s' ∧ chats_evolve s s'.

(** The store after a successful send: the caller is stamped, the message
    sits under the next id, the conversation carries the snapshot and the
    counter of the other participant, and the other participant, if the
    account exists, holds one more notification. *)
Definition sent_message (now : Date) (uid cid : Id) (content : jsstring)
    (kind : Message.kind) : Message.t :=
  let filterResult :=
    ContentFilter.filterPersonalInfo content ContentFilter.default_options in
  {| Message.conversation := cid;
     Message.sender := uid;
     Message.content := ContentFilter.r_filtered filterResult;
     Message.originalContent :=
       if ContentFilter.r_hasFiltered filterResult then Some content else None;
     Message.isFiltered := ContentFilter.r_hasFiltered filterResult;
     Message.type := kind;
     Message.read := false;
     Message.readAt := None;
     Message.createdAt := now |}.

Definition sent_conversation (now : Date) (uid other : Id) (content : jsstring)
    (c : Conversation.t) : Conversation.t :=
  {| Conversation.participants := Conversation.participants c;
     Conversation.listing := Conversation.listing c;
     Conversation.lastMessage :=
       Some {| Conversation.content := content; Conversation.sender := uid;
               Conversation.createdAt := now |};
     Conversation.unreadCount :=
       <[other := default 0 (Conversation.unreadCount c !! other) + 1]>
         (Conversation.unreadCount c);
     Conversation.isActive := Conversation.isActive c;
     Conversation.updatedAt := now |}.

(** The number behind the unread badge of a user: the user's counters over
    the active conversations they take part in. *)
Definition badge (s : Store) (uid : Id) : Z :=
  map_fold
    (fun _ conv totalUnread =>
       totalUnread + default 0 (Conversation.unreadCount conv !! uid))
    0
    (filter (fun kv => uid ∈ Conversation.participants (snd kv)
                       ∧ Conversation.isActive (snd kv) = true)
       (conversations s)).

(** What one conversation adds to the badge of a user. *)
Definition counted (uid : Id) (c : Conversation.t) : Z :=
  if decide (uid ∈ Conversation.participants c ∧ Conversation.isActive c = true)
  then default 0 (Conversation.unreadCount c !! uid)
  else 0.



(** The sample store with a counter that lags behind: omar holds the lamp
    among his favorites while the lamp counts no favorite. *)
Definition stale_favorite : Store :=
  save_user Sample.store Sample.omar
    (User.set_favorites Sample.omar_user [Sample.live]).

(** The account stored under [uid] is [u] with the verification record
    [ver] and the last-seen stamp [now]: every other field is as in [u]. *)
Definition account_is (s : Store) (uid : Id) (u : User.t)
    (ver : option Verification.t) (now : Date) : Prop :=
  ∃ stored,
    users s !! uid = Some stored
    ∧ User.verification stored = ver
    ∧ User.lastSeen stored = now
    ∧ User.name stored = User.name u ∧ User.email stored = User.email u
    ∧ User.salesCount stored = User.salesCount u
    ∧ User.favorites stored = User.favorites u
    ∧ User.notifications stored = User.notifications u
    ∧ User.isAdmin stored = User.isAdmin u
    ∧ User.isActive stored = User.isActive u.

(** Two accounts that differ at most in the two flags. *)
Definition same_but_flags (u u' : User.t) : Prop :=
  User.name u' = User.name u ∧ User.email u' = User.email u
  ∧ User.salesCount u' = User.salesCount u
  ∧ User.favorites u' = User.favorites u
  ∧ User.notifications u' = User.notifications u
  ∧ User.verification u' = User.verification u
  ∧ User.lastSeen u' = User.lastSeen u.

(** No public list query returns listing [id] at time [now], whatever the
    filters, the order, the page and the limit. *)
Definition unlisted (s : Store) (now : Date) (id : Id) : Prop :=
  (∀ limit l, (id, l) ∉ ListingRoutes.getRecent s now limit)
  ∧ (∀ l, (id, l) ∉ ListingRoutes.getFeatured s now)
  ∧ (∀ extra sort page limit body,
       ListingRoutes.getListings s now extra sort page limit = Success 200 body →
       ∀ l, (id, l) ∉ ListingRoutes.l_listings body)
  ∧ (∀ other found,
       ListingRoutes.getSimilar s now other = Success 200 found →
       ∀ l, (id, l) ∉ found).
(** * Properties *)

(** ** Middleware *)

Lemma protect_signed_in {A} s now uid u :
  signed_in s uid u →
  Auth.protect (A := A) s now (Some uid)
  = (save_user s uid (User.set_lastSeen u now), inr (uid, User.set_lastSeen u now)).
Proof.
  intros [Hu Ha]. unfold Auth.protect. rewrite Hu, Ha. reflexivity.
Qed.

Lemma users_save_user_eq s uid u : users (save_user s uid u) !! uid = Some u.
Proof. unfold save_user; simpl. apply lookup_insert_eq. Qed.

Lemma users_save_user_ne s uid u other :
  uid ≠ other → users (save_user s uid u) !! other = users s !! other.
Proof. intros. unfold save_user; simpl. by apply lookup_insert_ne. Qed.

Lemma listings_save_user s uid u : listings (save_user s uid u) = listings s.
Proof. reflexivity. Qed.

Lemma listings_save_listing_eq s id l : listings (save_listing s id l) !! id = Some l.
Proof. unfold save_listing; simpl. apply lookup_insert_eq. Qed.

Lemma users_save_listing s id l : users (save_listing s id l) = users s.
Proof. reflexivity. Qed.

Create Rewrite HintDb store.
#[local] Hint Rewrite users_save_user_eq listings_save_user
  listings_save_listing_eq users_save_listing : store.

(** Who is signed in on the sample store is settled by computation. *)
Ltac sample_signed_in := repeat split; reflexivity.

(** ** Public read paths *)

Lemma queryObj_spec now l :
  ListingRoutes.queryObj now l = true
  ↔ Listing.moderationStatus l = Listing.mod_approved
    ∧ ((Listing.status l = Listing.active ∧ Listing.isDeleted l = false)
       ∨ (Listing.isDeleted l = true
          ∧ ∃ d, Listing.deletedAt l = Some d
                 ∧ now - d < ListingRoutes.twoDaysInMs)).
Proof.
  unfold ListingRoutes.queryObj.
  rewrite andb_true_iff, orb_true_iff, !andb_true_iff, bool_decide_eq_true,
    bool_decide_eq_true, negb_true_iff.
  split.
  - intros [Hm [[Hs Hd]|[Hd Hw]]]; split; auto.
    right. split; [exact Hd|].
    destruct (Listing.deletedAt l) as [d|]; [|discriminate].
    exists d. split; [reflexivity|]. apply Z.ltb_lt in Hw. lia.
  - intros [Hm [[Hs Hd]|[Hd (d & Hda & Hw)]]]; split; auto.
    right. split; [exact Hd|]. rewrite Hda. apply Z.ltb_lt. lia.
Qed.

Lemma find_lookup q s id l :
  ListingRoutes.find q s !! id = Some l ↔ listings s !! id = Some l ∧ q l = true.
Proof. unfold ListingRoutes.find. apply map_lookup_filter_Some. Qed.

(** What [GET /api/listings/:id] answers for a soft-deleted listing. *)
Lemma getListing_deleted s now token id l d :
  listings s !! id = Some l →
  Listing.isDeleted l = true →
  Listing.deletedAt l = Some d →
  ListingRoutes.getListing s now token id
  = if ListingRoutes.twoDaysInMs <? now - d
    then (s, Fail 404 (Message_ "Listing no longer available"))
    else (s, Success 200
               {| ListingRoutes.shown := Listing.set_status l Listing.sold;
                  ListingRoutes.deleteInfo_ :=
                    Some {| ListingRoutes.info_isDeleted := true;
                            ListingRoutes.info_reason := Listing.deleteReason l;
                            ListingRoutes.info_deletedAt := d |};
                  ListingRoutes.isFavorited := false |}).
Proof.
  intros Hl Hd Hda. unfold ListingRoutes.getListing. rewrite Hl, Hd, Hda.
  reflexivity.
Qed.

(** *** Sorting, skipping and limiting *)

Section Paging.
Import ListingRoutes.

Lemma insert_by_perm o x l : insert_by o x l ≡ₚ x :: l.
Proof.
  induction l as [|y l IH]; simpl; [reflexivity|].
  destruct (in_order o (snd x) (snd y)); [reflexivity|].
  rewrite IH. apply Permutation_swap.
Qed.

Lemma sort_by_perm o l : sort_by o l ≡ₚ l.
Proof.
  induction l as [|x l IH]; simpl; [reflexivity|].
  rewrite insert_by_perm, IH. reflexivity.
Qed.

Lemma in_order_total o a b : in_order o a b = false → in_order o b a = true.
Proof.
  destruct o; simpl; intros H%Z.leb_gt; apply Z.leb_le; lia.
Qed.

Lemma in_order_trans o a b c :
  in_order o a b = true → in_order o b c = true → in_order o a c = true.
Proof.
  destruct o; simpl; intros H1%Z.leb_le H2%Z.leb_le; apply Z.leb_le; lia.
Qed.

Lemma insert_by_sorted o x l :
  StronglySorted (fun a b => in_order o (snd a) (snd b) = true) l →
  StronglySorted (fun a b => in_order o (snd a) (snd b) = true) (insert_by o x l).
Proof.
  induction 1 as [|y l Hs IH Hall]; simpl.
  - constructor; constructor.
  - destruct (in_order o (snd x) (snd y)) eqn:E.
    + constructor; [constructor; assumption|].
      constructor; [exact E|].
      eapply Forall_impl; [exact Hall|]. simpl. intros z Hz.
      eapply in_order_trans; eassumption.
    + constructor; [exact IH|].
      rewrite insert_by_perm. constructor; [|exact Hall].
      apply in_order_total. exact E.
Qed.

Lemma sort_by_sorted o l :
  StronglySorted (fun a b => in_order o (snd a) (snd b) = true) (sort_by o l).
Proof.
  induction l as [|x l IH]; simpl; [constructor|].
  apply insert_by_sorted. exact IH.
Qed.

Lemma cursor_limit_sublist n l : cursor_limit n l `sublist_of` l.
Proof. destruct n; [reflexivity | apply sublist_take]. Qed.

Lemma page_sublist o skip limit m :
  page o skip limit m `sublist_of` sort_by o (map_to_list m).
Proof.
  unfold page. etransitivity; [apply cursor_limit_sublist | apply sublist_drop].
Qed.

(** What a page holds are documents of the matching set. *)
Lemma page_elem o skip limit (m : gmap Id Listing.t) id l :
  (id, l) ∈ page o skip limit m → m !! id = Some l.
Proof.
  intros H. apply elem_of_map_to_list. rewrite <- (sort_by_perm o).
  eapply elem_of_sublist; [exact H | apply page_sublist].
Qed.


(** A first page that the limit does not cut holds the whole matching set. *)
Lemma page_whole o limit (m : gmap Id Listing.t) id l :
  limit = O ∨ (size m ≤ limit)%nat →
  (id, l) ∈ page o 0 limit m ↔ m !! id = Some l.
Proof.
  intros Hcut. split; [apply page_elem|]. intros Hm.
  assert (E : page o 0 limit m = sort_by o (map_to_list m)).
  { unfold page, cursor_limit. rewrite drop_0. destruct limit; [reflexivity|].
    apply take_ge. rewrite (Permutation_length (sort_by_perm o _)).
    rewrite length_map_to_list. destruct Hcut; [discriminate|assumption]. }
  rewrite E, sort_by_perm. apply elem_of_map_to_list. exact Hm.
Qed.

Lemma page_sorted o skip limit m :
  StronglySorted (fun a b => in_order o (snd a) (snd b) = true) (page o skip limit m).
Proof.
  assert (Hsub : ∀ l1 l2 : list (Id * Listing.t), l1 `sublist_of` l2 →
            StronglySorted (fun a b => in_order o (snd a) (snd b) = true) l2 →
            StronglySorted (fun a b => in_order o (snd a) (snd b) = true) l1).
  { intros l1 l2 Hs. induction Hs as [|x l1 l2 Hs IH|x l1 l2 Hs IH]; intros H2.
    - constructor.
    - apply StronglySorted_inv in H2 as [H2 Hall]. constructor; [auto|].
      apply Forall_forall. intros y Hy. rewrite Forall_forall in Hall.
      apply Hall. eapply elem_of_sublist; eassumption.
    - apply StronglySorted_inv in H2 as [H2 _]. auto. }
  eapply Hsub; [apply page_sublist | apply sort_by_sorted].
Qed.

End Paging.




(** The list queries and the sweeper split the soft-deleted listings
    between them: what the sweeper would purge is never listed, and a
    soft-deleted approved listing that it would not purge is. *)
Lemma listed_or_purgeable now l :
  Listing.isDeleted l = true →
  Listing.moderationStatus l = Listing.mod_approved →
  is_Some (Listing.deletedAt l) →
  ListingRoutes.queryObj now l = negb (ListingRoutes.purgeable now l).
Proof.
  intros Hd Hm [d Hda].
  unfold ListingRoutes.queryObj, ListingRoutes.purgeable.
  rewrite Hd, Hm, Hda. rewrite bool_decide_eq_true_2 by reflexivity. simpl.
  rewrite andb_false_r. simpl.
  destruct (Z.ltb_spec (now - ListingRoutes.twoDaysInMs) d);
    destruct (Z.leb_spec d (now - ListingRoutes.twoDaysInMs)); try reflexivity; lia.
Qed.

(** Sara deletes her listing at time 1000.  Two days later to the
    millisecond it is still served by id, shown as sold, although the list
    queries have dropped it and the sweeper purges it; one millisecond
    later the fetch by id fails as well. *)
Example soft_delete_then_fetch :
  let deleted :=
    (ListingWrites.softDelete Sample.store 1000 (Some Sample.sara) Sample.live
       "Item Sold").1 in
  let at_limit := 1000 + ListingRoutes.twoDaysInMs in
  (∃ v, (ListingRoutes.getListing deleted at_limit None Sample.live).2 = Success 200 v
        ∧ Listing.status (ListingRoutes.shown v) = Listing.sold
        ∧ ListingRoutes.info_reason <$> ListingRoutes.deleteInfo_ v
          = Some (Some "Item Sold"%string))
  ∧ fst <$> ListingRoutes.getRecent deleted (at_limit - 1) 8 = [Sample.live]
  ∧ ListingRoutes.getRecent deleted at_limit 8 = []
  ∧ listings (ListingRoutes.cleanupDeletedListings deleted at_limit) !! Sample.live = None
  ∧ (ListingRoutes.getListing deleted (at_limit + 1) None Sample.live).2
    = Fail 404 (Message_ "Listing no longer available").
Proof.
  split; [eexists; vm_compute; repeat split|].
  vm_compute. repeat split.
Qed.

(** ** Identity verification: submit *)

Lemma acceptable_documents_cases documentType n :
  Spec.acceptable_documents documentType n = true →
  (documentType = Some "passport"%string ∧ n = 1%nat)
  ∨ ((documentType = Some "student_card"%string
      ∨ documentType = Some "residential_card"%string) ∧ n = 2%nat).
Proof.
  destruct documentType as [t|]; simpl; [|discriminate].
  destruct (String.eqb_spec t "passport") as [->|_].
  - intros H%Nat.eqb_eq. auto.
  - destruct (String.eqb_spec t "student_card") as [->|_].
    + intros H%Nat.eqb_eq. auto.
    + destruct (String.eqb_spec t "residential_card") as [->|_]; simpl.
      * intros H%Nat.eqb_eq. auto.
      * discriminate.
Qed.

(** The handler past [protect], as a decision table. *)
Lemma submit_signed_in s now uid u documentType files :
  signed_in s uid u →
  let me := User.set_lastSeen u now in
  let s' := save_user s uid me in
  VerificationRoutes.submit s now (Some uid) documentType files
  = if negb (VerificationRoutes.includes VerificationRoutes.documentTypes documentType)
    then (s', Fail 400 (Message_ "Invalid document type"))
    else
      match files with
      | None | Some [] => (s', Fail 400 (Message_ "Please upload document images"))
      | Some fs =>
          if negb (length fs =?
                   (if VerificationRoutes.includes ["passport"%string] documentType
                    then 1 else 2))%nat
          then
            (s', Fail 400 (Message_
               (if VerificationRoutes.includes ["passport"%string] documentType
                then "Passport requires exactly 1 image"
                else VerificationRoutes.replace_underscore (default "" documentType)
                     +:+ " requires 2 images (front and back)")))
          else
            match User.verification_status u with
            | Some Verification.approved => (s', Fail 400 (Message_ "Already verified"))
            | Some Verification.pending =>
                (s', Fail 400 (Message_ "Verification already pending review"))
            | _ =>
                let v :=
                  {| Verification.status := Verification.pending;
                     Verification.documentType := documentType;
                     Verification.documentImages := VerificationRoutes.toImage <$> fs;
                     Verification.submittedAt := Some now;
                     Verification.reviewedAt := None;
                     Verification.reviewedBy := None;
                     Verification.rejectionReason := None |} in
                (save_user s' uid (User.set_verification me (Some v)), Success 200 v)
            end
      end.
Proof.
  intros Hin me s'. unfold VerificationRoutes.submit.
  rewrite (protect_signed_in s now uid u Hin). fold me. fold s'.
  destruct (negb _); [reflexivity|].
  destruct files as [[|f fs]|]; try reflexivity.
  destruct (negb _); [reflexivity|].
  unfold s'. rewrite users_save_user_eq. reflexivity.
Qed.

Ltac stored_account :=
  repeat split;
  first [ reflexivity
        | eexists; split; [apply users_save_user_eq | repeat split; reflexivity]
        | idtac ].

(** C5.  Submitting verification documents: an unknown document type or a
    wrong number of images (one for a passport, two otherwise) is a
    validation error; an acceptable submission is a conflict while the
    status is pending or approved; otherwise the verification record is
    replaced by a fresh one, with status pending and no rejection reason.
    In each case the stored account is spelled out field by field: the
    verification record is the old one after an error and the fresh one
    after a success, the last-seen stamp is the time of the request, and
    every other field is as before.  No other account and no other
    collection changes. *)
Theorem submit_verification_contract s now uid u documentType files :
  signed_in s uid u →
  let images := length (default [] files) in
  let me := User.set_lastSeen u now in
  let out := VerificationRoutes.submit s now (Some uid) documentType files in
  (Spec.acceptable_documents documentType images = false →
     Spec.errorKind out.2 = Some Spec.ValidationError
     ∧ out.1 = save_user s uid me
     ∧ account_is out.1 uid u (User.verification u) now)
  ∧ (Spec.acceptable_documents documentType images = true →
     User.verification_status u = Some Verification.pending
     ∨ User.verification_status u = Some Verification.approved →
     Spec.errorKind out.2 = Some Spec.ConflictError
     ∧ out.1 = save_user s uid me
     ∧ account_is out.1 uid u (User.verification u) now)
  ∧ (Spec.acceptable_documents documentType images = true →
     User.verification_status u ≠ Some Verification.pending →
     User.verification_status u ≠ Some Verification.approved →
     let v :=
       {| Verification.status := Verification.pending;
          Verification.documentType := documentType;
          Verification.documentImages :=
            VerificationRoutes.toImage <$> default [] files;
          Verification.submittedAt := Some now;
          Verification.reviewedAt := None;
          Verification.reviewedBy := None;
          Verification.rejectionReason := None |} in
     out.2 = Success 200 v
     ∧ out.1 = save_user (save_user s uid me) uid (User.set_verification me (Some v))
     ∧ account_is out.1 uid u (Some v) now
     ∧ Verification.status v = Verification.pending
     ∧ Verification.rejectionReason v = None)
  ∧ (∀ other, other ≠ uid → users out.1 !! other = users s !! other)
  ∧ listings out.1 = listings s
  ∧ conversations out.1 = conversations s
  ∧ messages out.1 = messages s
  ∧ nextId out.1 = nextId s.
Proof.
  intros Hin images me out.
  assert (Hrest : (∀ other, other ≠ uid → users out.1 !! other = users s !! other)
                  ∧ listings out.1 = listings s
                  ∧ conversations out.1 = conversations s
                  ∧ messages out.1 = messages s
                  ∧ nextId out.1 = nextId s).
  { subst out. rewrite (submit_signed_in s now uid u documentType files Hin).
    fold me.
    assert (Hone : ∀ other, other ≠ uid →
              users (save_user s uid me) !! other = users s !! other).
    { intros other Hne. apply users_save_user_ne. congruence. }
    assert (Htwo : ∀ v other, other ≠ uid →
              users (save_user (save_user s uid me) uid v) !! other = users s !! other).
    { intros v other Hne. rewrite users_save_user_ne by congruence. apply Hone, Hne. }
    repeat case_match; cbn [fst]; repeat split; auto. }
  subst out.
  rewrite (submit_signed_in s now uid u documentType files Hin) in *.
  fold me. subst images.
  split; [|split; [|split; [|exact Hrest]]].
  - (* rejected input *)
    intros Hbad.
    destruct documentType as [t|]; [|simpl; stored_account].
    unfold Spec.acceptable_documents in Hbad.
    unfold VerificationRoutes.includes, VerificationRoutes.documentTypes.
    simpl existsb.
    destruct (String.eqb_spec t "passport") as [->|_].
    { destruct files as [[|f [|g fs]]|]; simpl in *; stored_account; discriminate. }
    destruct (String.eqb_spec t "student_card") as [->|_].
    { destruct files as [[|f [|g [|h fs]]]|]; simpl in *; stored_account; discriminate. }
    destruct (String.eqb_spec t "residential_card") as [->|_].
    { destruct files as [[|f [|g [|h fs]]]|]; simpl in *; stored_account; discriminate. }
    simpl. stored_account.
  - intros Hok Hst.
    destruct (acceptable_documents_cases _ _ Hok) as [[-> Hn]|[[->| ->] Hn]];
      destruct files as [[|f [|g [|h fs]]]|]; simpl in Hn; try discriminate;
      destruct Hst as [-> | ->]; simpl; stored_account.
  - intros Hok Hp Ha.
    destruct (acceptable_documents_cases _ _ Hok) as [[-> Hn]|[[->| ->] Hn]];
      destruct files as [[|f [|g [|h fs]]]|]; simpl in Hn; try discriminate;
      simpl; destruct (User.verification_status u) as [[]|];
      try congruence; stored_account.
Qed.

Lemma submit_verification_contract_witness :
  signed_in Sample.store Sample.omar Sample.omar_user
  ∧ Spec.errorKind
      (VerificationRoutes.submit Sample.store 500 (Some Sample.omar)
         (Some "passport"%string) (Some [Sample.scan1; Sample.scan2])).2
    = Some Spec.ValidationError
  ∧ (∃ v,
        (VerificationRoutes.submit Sample.store 500 (Some Sample.omar)
           (Some "passport"%string) (Some [Sample.scan1])).2 = Success 200 v
        ∧ Verification.status v = Verification.pending)
  ∧ User.verification Sample.rami_user
    = Some (Sample.verification_in Verification.rejected (Some "blurred"%string))
  ∧ ∃ stored v,
      users (VerificationRoutes.submit Sample.store 500 (Some Sample.rami)
               (Some "student_card"%string) (Some [Sample.scan1; Sample.scan2])).1
        !! Sample.rami = Some stored
      ∧ User.verification stored = Some v
      ∧ Verification.status v = Verification.pending
      ∧ Verification.rejectionReason v = None
      ∧ User.lastSeen stored = 500.
Proof.
  assert (H : signed_in Sample.store Sample.omar Sample.omar_user)
    by sample_signed_in.
  assert (Hr : signed_in Sample.store Sample.rami Sample.rami_user)
    by sample_signed_in.
  split; [exact H|]. split; [|split; [|split; [reflexivity|]]].
  - apply (submit_verification_contract Sample.store 500 Sample.omar
             Sample.omar_user (Some "passport"%string)
             (Some [Sample.scan1; Sample.scan2]) H).
    reflexivity.
  - eexists. split.
    + apply (submit_verification_contract Sample.store 500 Sample.omar
               Sample.omar_user (Some "passport"%string)
               (Some [Sample.scan1]) H); [reflexivity | discriminate | discriminate].
    + reflexivity.
  - destruct (submit_verification_contract Sample.store 500 Sample.rami
                Sample.rami_user (Some "student_card"%string)
                (Some [Sample.scan1; Sample.scan2]) Hr) as (_ & _ & Hok & _).
    destruct Hok as (_ & _ & (stored & Hs & Hv & Hseen & _) & Hst & Hreason);
      [reflexivity | discriminate | discriminate |].
    eexists stored, _. split; [exact Hs|]. split; [exact Hv|].
    split; [exact Hst|]. split; [exact Hreason | exact Hseen].
Defined.

(** ** Identity verification: review *)

Lemma guard_signed_in_admin {A} s now uid u :
  signed_in_admin s uid u →
  AdminRoutes.guard (A := A) s now (Some uid)
  = (save_user s uid (User.set_lastSeen u now), inr (uid, User.set_lastSeen u now)).
Proof.
  intros [Hin Hadm]. unfold AdminRoutes.guard.
  rewrite (protect_signed_in s now uid u Hin).
  unfold Auth.adminOnly. simpl. rewrite Hadm. reflexivity.
Qed.

Lemma well_formed_review_passes action reason :
  well_formed_review action reason →
  AdminRoutes.valid_action action = true
  ∧ equals action "reject" && falsy reason = false.
Proof.
  intros [-> | [-> (r & -> & Hr)]]; [split; reflexivity|].
  split; [reflexivity|]. simpl.
  destruct (String.eqb_spec r ""); congruence.
Qed.

Lemma review_rejects_non_pending mail s now adminId a userId action reason target :
  signed_in_admin s adminId a →
  well_formed_review action reason →
  let s0 := save_user s adminId (User.set_lastSeen a now) in
  users s0 !! userId = Some target →
  User.verification_status target ≠ Some Verification.pending →
  AdminRoutes.review mail s now (Some adminId) userId action reason
  = (s0, [], Fail 400 (Message_ "No pending verification for this user")).
Proof.
  intros Hadm Hwf s0 Ht Hst. unfold AdminRoutes.review.
  rewrite (guard_signed_in_admin s now adminId a Hadm). fold s0.
  destruct (well_formed_review_passes _ _ Hwf) as [-> ->]. simpl negb. cbv iota.
  rewrite Ht. unfold User.verification_status in Hst.
  destruct (User.verification target) as [v|]; [|reflexivity].
  simpl in Hst. rewrite bool_decide_eq_false_2 by congruence. reflexivity.
Qed.

Lemma review_accepts_pending mail s now adminId a userId action reason target v :
  signed_in_admin s adminId a →
  well_formed_review action reason →
  let s0 := save_user s adminId (User.set_lastSeen a now) in
  users s0 !! userId = Some target →
  User.verification target = Some v →
  Verification.status v = Verification.pending →
  ∃ e,
    AdminRoutes.review mail s now (Some adminId) userId action reason
    = (save_user s0 userId
         (User.set_notifications
            (User.set_verification target (Some (reviewed now adminId action reason v)))
            (User.notifications target ++ [AdminRoutes.review_notice now action reason])),
       [e], Success 200 (reviewed now adminId action reason v)).
Proof.
  intros Hadm Hwf s0 Ht Hv Hst. unfold AdminRoutes.review.
  rewrite (guard_signed_in_admin s now adminId a Hadm). fold s0.
  destruct (well_formed_review_passes _ _ Hwf) as [-> ->]. simpl negb. cbv iota.
  rewrite Ht, Hv. rewrite bool_decide_eq_true_2 by exact Hst. simpl negb. cbv iota.
  eexists. destruct (mail _); reflexivity.
Qed.

Lemma review_ignores_mailer mail mail' s now token userId action reason :
  AdminRoutes.review mail s now token userId action reason
  = AdminRoutes.review mail' s now token userId action reason.
Proof.
  unfold AdminRoutes.review.
  destruct (AdminRoutes.guard s now token) as [s0 [r|[adminId a]]]; [reflexivity|].
  destruct (negb _); [reflexivity|].
  destruct (_ && _); [reflexivity|].
  destruct (users s0 !! userId) as [target|]; [|reflexivity].
  destruct (User.verification target) as [v|]; [|reflexivity].
  destruct (negb _); [reflexivity|].
  destruct (mail _), (mail' _); reflexivity.
Qed.

(** C6.  Reviewing a verification, as an admin.  Anything but approve or
    reject, and a reject without a reason, is a validation error.  A
    well-formed review of a user whose status is not pending is a conflict
    and changes nothing.  A well-formed review of a pending submission sets
    the status, the review date and the reviewer, appends exactly one
    notification, and answers 200 whatever the mail dispatcher does; any
    further well-formed review of that user is then a conflict. *)
Theorem review_verification_contract mail s now adminId a userId action reason :
  signed_in_admin s adminId a →
  let s0 := save_user s adminId (User.set_lastSeen a now) in
  let out := AdminRoutes.review mail s now (Some adminId) userId action reason in
  (AdminRoutes.valid_action action = false →
     Spec.errorKind out.2 = Some Spec.ValidationError ∧ out.1.1 = s0)
  ∧ (action = Some "reject"%string → falsy reason = true →
     Spec.errorKind out.2 = Some Spec.ValidationError ∧ out.1.1 = s0)
  ∧ (∀ target,
       well_formed_review action reason →
       users s0 !! userId = Some target →
       User.verification_status target ≠ Some Verification.pending →
       Spec.errorKind out.2 = Some Spec.ConflictError ∧ out.1.1 = s0)
  ∧ (∀ target v,
       well_formed_review action reason →
       users s0 !! userId = Some target →
       User.verification target = Some v →
       Verification.status v = Verification.pending →
       ∃ v' target',
         out.2 = Success 200 v'
         ∧ Verification.status v'
           = (if equals action "approve" then Verification.approved
              else Verification.rejected)
         ∧ Verification.reviewedAt v' = Some now
         ∧ Verification.reviewedBy v' = Some adminId
         ∧ users out.1.1 !! userId = Some target'
         ∧ User.verification target' = Some v'
         ∧ (∃ n, User.notifications target' = User.notifications target ++ [n])
         ∧ (∀ other, other ≠ userId → users out.1.1 !! other = users s0 !! other)
         ∧ (∀ mail', AdminRoutes.review mail' s now (Some adminId) userId action reason = out)
         ∧ (∀ mail2 now2 action2 reason2,
              well_formed_review action2 reason2 →
              Spec.errorKind
                (AdminRoutes.review mail2 out.1.1 now2 (Some adminId) userId
                   action2 reason2).2
              = Some Spec.ConflictError)).
Proof.
  intros Hadm s0 out.
  assert (Hg := guard_signed_in_admin (A := Verification.t) s now adminId a Hadm).
  fold s0 in Hg.
  split; [|split; [|split]].
  - intros Hbad. subst out. unfold AdminRoutes.review. rewrite Hg, Hbad. simpl. auto.
  - intros -> Hf. subst out. unfold AdminRoutes.review. rewrite Hg. simpl.
    rewrite Hf. simpl. auto.
  - intros target Hwf Ht Hst. subst out.
    rewrite (review_rejects_non_pending mail s now adminId a userId action reason
               target Hadm Hwf Ht Hst).
    simpl. auto.
  - intros target v Hwf Ht Hv Hst.
    destruct (review_accepts_pending mail s now adminId a userId action reason
                target v Hadm Hwf Ht Hv Hst) as [e He].
    fold s0 in He. fold out in He.
    set (v' := reviewed now adminId action reason v) in *.
    set (target' :=
           User.set_notifications (User.set_verification target (Some v'))
             (User.notifications target ++ [AdminRoutes.review_notice now action reason]))
      in *.
    exists v', target'. rewrite He. simpl fst. simpl snd.
    split; [reflexivity|]. split; [reflexivity|]. split; [reflexivity|].
    split; [reflexivity|]. split; [apply users_save_user_eq|].
    split; [reflexivity|]. split; [eexists; reflexivity|].
    split; [intros other Hne; apply users_save_user_ne; congruence|].
    split.
    + intros mail'. rewrite <- He. apply review_ignores_mailer.
    + intros mail2 now2 action2 reason2 Hwf2.
      set (s1 := save_user s0 userId target').
      assert (Hadm1 : ∃ a1, signed_in_admin s1 adminId a1).
      { destruct Hadm as [[Ha Hact] Hisadm].
        destruct (decide (adminId = userId)) as [->|Hne].
        - exists target'. unfold s1. repeat split.
          + apply users_save_user_eq.
          + unfold s0 in Ht. rewrite users_save_user_eq in Ht.
            injection Ht as <-. exact Hact.
          + unfold s0 in Ht. rewrite users_save_user_eq in Ht.
            injection Ht as <-. exact Hisadm.
        - exists (User.set_lastSeen a now). unfold s1. repeat split.
          + rewrite users_save_user_ne by congruence. apply users_save_user_eq.
          + exact Hact.
          + exact Hisadm. }
      destruct Hadm1 as [a1 Hadm1].
      assert (Ht1 : ∃ t1, users (save_user s1 adminId (User.set_lastSeen a1 now2))
                            !! userId = Some t1
                          ∧ User.verification t1 = Some v').
      { destruct (decide (adminId = userId)) as [->|Hne].
        - eexists. split; [apply users_save_user_eq|].
          destruct Hadm1 as [[Ha1 _] _]. unfold s1 in Ha1.
          rewrite users_save_user_eq in Ha1. injection Ha1 as <-. reflexivity.
        - exists target'. split; [|reflexivity].
          rewrite users_save_user_ne by congruence. apply users_save_user_eq. }
      destruct Ht1 as (t1 & Ht1 & Hv1).
      rewrite (review_rejects_non_pending mail2 s1 now2 adminId a1 userId action2
                 reason2 t1 Hadm1 Hwf2 Ht1).
      * reflexivity.
      * unfold User.verification_status. rewrite Hv1. simpl. unfold v', reviewed.
        simpl. destruct (equals action "approve"); discriminate.
Qed.

Lemma review_verification_contract_witness :
  signed_in_admin Sample.store Sample.admin Sample.admin_user
  ∧ (∃ v',
       (AdminRoutes.review Sample.broken_mailer Sample.store 900 (Some Sample.admin)
          Sample.lina (Some "approve"%string) None).2 = Success 200 v'
       ∧ Verification.status v' = Verification.approved)
  ∧ Spec.errorKind
      (AdminRoutes.review Sample.working_mailer Sample.store 900 (Some Sample.admin)
         Sample.sara (Some "approve"%string) None).2
    = Some Spec.ConflictError.
Proof.
  assert (H : signed_in_admin Sample.store Sample.admin Sample.admin_user)
    by sample_signed_in.
  split; [exact H|]. split.
  - destruct (review_verification_contract Sample.broken_mailer Sample.store 900
                Sample.admin Sample.admin_user Sample.lina
                (Some "approve"%string) None H) as (_ & _ & _ & Hok).
    destruct (Hok Sample.lina_user (Sample.verification_in Verification.pending None))
      as (v' & t' & Hr & Hs & _).
    + left; reflexivity.
    + reflexivity.
    + reflexivity.
    + reflexivity.
    + exists v'. split; [exact Hr | exact Hs].
  - destruct (review_verification_contract Sample.working_mailer Sample.store 900
                Sample.admin Sample.admin_user Sample.sara
                (Some "approve"%string) None H) as (_ & _ & Hconf & _).
    apply (Hconf Sample.sara_user).
    + left; reflexivity.
    + reflexivity.
    + discriminate.
Defined.

(** ** Reporting a listing *)

Lemma existsb_reported uid (rs : list Listing.report) :
  existsb (fun r => bool_decide (Listing.user r = uid)) rs = true
  ↔ ∃ r, r ∈ rs ∧ Listing.user r = uid.
Proof.
  rewrite existsb_exists. split.
  - intros (r & Hin & Hr). exists r. split; [by apply list_elem_of_In|].
    by apply bool_decide_eq_true in Hr.
  - intros (r & Hin & Hr). exists r. split; [by apply list_elem_of_In|].
    by apply bool_decide_eq_true.
Qed.

Lemma report_duplicate s now uid u id l reason :
  signed_in s uid u → reason ≠ ""%string →
  listings s !! id = Some l →
  (∃ r, r ∈ Listing.reports l ∧ Listing.user r = uid) →
  ListingWrites.report s now (Some uid) id reason
  = (save_user s uid (User.set_lastSeen u now),
     Fail 400 (Message_ "You have already reported this listing")).
Proof.
  intros Hin Hr Hl Hdup. unfold ListingWrites.report.
  rewrite (protect_signed_in s now uid u Hin).
  unfold ListingWrites.nonEmpty.
  destruct (String.eqb_spec reason ""); [congruence|]. simpl negb. cbv iota.
  autorewrite with store. rewrite Hl.
  apply existsb_reported in Hdup. rewrite Hdup. reflexivity.
Qed.

Lemma report_fresh s now uid u id l reason :
  signed_in s uid u → reason ≠ ""%string →
  listings s !! id = Some l →
  (∀ r, r ∈ Listing.reports l → Listing.user r ≠ uid) →
  let l1 :=
    Listing.set_reports l
      (Listing.reports l
         ++ [{| Listing.user := uid; Listing.reason := reason;
                Listing.reportedAt := now |}]) in
  ListingWrites.report s now (Some uid) id reason
  = (save_listing (save_user s uid (User.set_lastSeen u now)) id
       (if (3 <=? length (Listing.reports l1))%nat
        then Listing.set_moderation l1 Listing.mod_pending (Listing.moderationNote l1)
        else l1),
     Success 200 tt).
Proof.
  intros Hin Hr Hl Hfresh l1. unfold ListingWrites.report.
  rewrite (protect_signed_in s now uid u Hin).
  unfold ListingWrites.nonEmpty.
  destruct (String.eqb_spec reason ""); [congruence|]. simpl negb. cbv iota.
  autorewrite with store. rewrite Hl.
  destruct (existsb _ (Listing.reports l)) eqn:E; [|reflexivity].
  apply existsb_reported in E. destruct E as (r & Hin' & Hu).
  destruct (Hfresh r Hin' Hu).
Qed.

(** C7.  Reporting a listing.  A first report by a user appends exactly one
    report; when that brings the number of reports to three or more the
    moderation status becomes pending, whatever it was, and otherwise it is
    kept.  A report by a user who has reported the listing already is a
    duplicate error and leaves the listing as it is; in particular the
    second of two reports by the same user is one. *)
Theorem report_contract s now uid u id l reason :
  signed_in s uid u → reason ≠ ""%string →
  listings s !! id = Some l →
  let out := ListingWrites.report s now (Some uid) id reason in
  ((∃ r, r ∈ Listing.reports l ∧ Listing.user r = uid) →
     Spec.errorKind out.2 = Some Spec.DuplicateError
     ∧ listings out.1 = listings s)
  ∧ ((∀ r, r ∈ Listing.reports l → Listing.user r ≠ uid) →
     ∃ l',
       out.2 = Success 200 tt
       ∧ listings out.1 = <[id := l']> (listings s)
       ∧ Listing.reports l'
         = Listing.reports l
             ++ [{| Listing.user := uid; Listing.reason := reason;
                    Listing.reportedAt := now |}]
       ∧ Listing.moderationStatus l'
         = (if (3 <=? length (Listing.reports l) + 1)%nat
            then Listing.mod_pending else Listing.moderationStatus l)
       ∧ (∀ now2 reason2,
            reason2 ≠ ""%string →
            let again := ListingWrites.report out.1 now2 (Some uid) id reason2 in
            Spec.errorKind again.2 = Some Spec.DuplicateError
            ∧ listings again.1 = listings out.1)).
Proof.
  intros Hin Hr Hl out. split.
  - intros Hdup. subst out.
    rewrite (report_duplicate s now uid u id l reason Hin Hr Hl Hdup).
    split; reflexivity.
  - intros Hfresh. subst out.
    rewrite (report_fresh s now uid u id l reason Hin Hr Hl Hfresh).
    set (mine := {| Listing.user := uid; Listing.reason := reason;
                    Listing.reportedAt := now |}).
    set (l1 := Listing.set_reports l (Listing.reports l ++ [mine])).
    set (l' := if (3 <=? length (Listing.reports l1))%nat
               then Listing.set_moderation l1 Listing.mod_pending
                      (Listing.moderationNote l1)
               else l1).
    assert (Hrep : Listing.reports l' = Listing.reports l ++ [mine]).
    { unfold l'. destruct (3 <=? _)%nat; reflexivity. }
    exists l'. simpl fst. simpl snd.
    split; [reflexivity|]. split; [reflexivity|]. split; [exact Hrep|].
    split.
    { unfold l'. replace (length (Listing.reports l1))
        with (length (Listing.reports l) + 1)%nat
        by (unfold l1; simpl; rewrite length_app; reflexivity).
      destruct (3 <=? length (Listing.reports l) + 1)%nat; reflexivity. }
    intros now2 reason2 Hr2. simpl.
    set (s1 := save_listing (save_user s uid (User.set_lastSeen u now)) id l').
    assert (Hin1 : signed_in s1 uid (User.set_lastSeen u now)).
    { destruct Hin as [_ Hact]. split; [|exact Hact].
      unfold s1. rewrite users_save_listing. apply users_save_user_eq. }
    assert (Hl1 : listings s1 !! id = Some l') by apply listings_save_listing_eq.
    rewrite (report_duplicate s1 now2 uid _ id l' reason2 Hin1 Hr2 Hl1).
    + split; reflexivity.
    + exists mine. split; [|reflexivity]. rewrite Hrep. set_solver.
Qed.

Lemma report_contract_witness :
  signed_in Sample.store Sample.omar Sample.omar_user
  ∧ ∃ l',
      (ListingWrites.report Sample.store 700 (Some Sample.omar) Sample.live "scam").2
      = Success 200 tt
      ∧ listings (ListingWrites.report Sample.store 700 (Some Sample.omar)
                    Sample.live "scam").1
        = <[Sample.live := l']> (listings Sample.store)
      ∧ length (Listing.reports l') = 1%nat.
Proof.
  assert (H : signed_in Sample.store Sample.omar Sample.omar_user)
    by sample_signed_in.
  split; [exact H|].
  destruct (report_contract Sample.store 700 Sample.omar Sample.omar_user
              Sample.live (Sample.lamp Listing.mod_approved Listing.active None)
              "scam" H) as [_ Hfresh].
  - discriminate.
  - reflexivity.
  - destruct Hfresh as (l' & Hr & Hs & Hrep & _).
    + intros r Hr. simpl in Hr. inversion Hr.
    + exists l'. split; [exact Hr|]. split; [exact Hs|].
      rewrite Hrep. reflexivity.
Defined.

(** Three distinct users report an approved listing: it goes back to
    moderation. *)
Example three_reports_flag_listing :
  let s1 := (ListingWrites.report Sample.store 700 (Some Sample.omar) Sample.live "scam").1 in
  let s2 := (ListingWrites.report s1 710 (Some Sample.rami) Sample.live "fake").1 in
  let s3 := (ListingWrites.report s2 720 (Some Sample.lina) Sample.live "scam").1 in
  Listing.moderationStatus <$> listings s2 !! Sample.live = Some Listing.mod_approved
  ∧ Listing.moderationStatus <$> listings s3 !! Sample.live = Some Listing.mod_pending
  ∧ (ListingWrites.report s3 730 (Some Sample.rami) Sample.live "again").2
    = Fail 400 (Message_ "You have already reported this listing").
Proof. vm_compute. repeat split. Qed.

(** ** Creating a listing *)

(** C9.  Creating a listing.  A signed-in user whose verification status is
    not approved is turned away with status 403 and the
    verification-required marker, and no listing is stored.  For an approved
    user with a valid payload the listing is stored under a fresh id with
    moderation status pending, status active and not deleted. *)
Theorem create_listing_contract s now uid u b files :
  signed_in s uid u →
  let out := ListingWrites.createListing s now (Some uid) b files in
  (User.verification_status u ≠ Some Verification.approved →
     out.2 = Fail 403 (RequiresVerification "Identity verification required")
     ∧ Spec.errorKind out.2 = Some Spec.AuthorizationError
     ∧ listings out.1 = listings s)
  ∧ (User.verification_status u = Some Verification.approved →
     valid_payload b →
     ∃ l,
       out.2 = Success 201 (nextId s, l)
       ∧ listings out.1 = <[nextId s := l]> (listings s)
       ∧ Listing.seller l = uid
       ∧ Listing.moderationStatus l = Listing.mod_pending
       ∧ Listing.status l = Listing.active
       ∧ Listing.isDeleted l = false).
Proof.
  intros Hin out. subst out. unfold ListingWrites.createListing.
  rewrite (protect_signed_in s now uid u Hin).
  unfold Auth.verifiedOnly.
  change (User.verification_status (User.set_lastSeen u now))
    with (User.verification_status u).
  split.
  - intros Hno. rewrite bool_decide_eq_false_2 by exact Hno.
    repeat split.
  - intros Hyes (Hchain & price & area & city & Hp & Hloc & Hschema).
    rewrite bool_decide_eq_true_2 by exact Hyes.
    rewrite Hchain, Hp, Hloc, Hschema.
    eexists. simpl. repeat split.
Qed.

Lemma create_listing_contract_witness :
  signed_in Sample.store Sample.sara Sample.sara_user
  ∧ signed_in Sample.store Sample.rami Sample.rami_user
  ∧ (ListingWrites.createListing Sample.store 800 (Some Sample.rami)
       SampleRequests.chair []).2
    = Fail 403 (RequiresVerification "Identity verification required")
  ∧ ∃ l,
      (ListingWrites.createListing Sample.store 800 (Some Sample.sara)
         SampleRequests.chair []).2 = Success 201 (100%positive, l)
      ∧ Listing.moderationStatus l = Listing.mod_pending
      ∧ Listing.status l = Listing.active
      ∧ Listing.isDeleted l = false.
Proof.
  assert (Hs : signed_in Sample.store Sample.sara Sample.sara_user)
    by sample_signed_in.
  assert (Hr : signed_in Sample.store Sample.rami Sample.rami_user)
    by sample_signed_in.
  split; [exact Hs|]. split; [exact Hr|]. split.
  - apply (create_listing_contract Sample.store 800 Sample.rami Sample.rami_user
             SampleRequests.chair [] Hr).
    discriminate.
  - destruct (create_listing_contract Sample.store 800 Sample.sara Sample.sara_user
                SampleRequests.chair [] Hs) as [_ Hok].
    destruct Hok as (l & Hl & _ & _ & Hm & Hst & Hd).
    + reflexivity.
    + split; [reflexivity|].
      exists 900, "Zamalek"%string, None. repeat split.
    + exists l. repeat split; assumption.
Defined.

(** ** Favorites *)

Lemma indexOf_None x l : ListingWrites.indexOf x l = None ↔ x ∉ l.
Proof.
  induction l as [|y l IH]; simpl.
  - split; [intros _; apply not_elem_of_nil | reflexivity].
  - case_bool_decide as E.
    + subst. split; [discriminate | intros H; destruct H; left].
    + rewrite fmap_None, IH, not_elem_of_cons. split; [intros H; split; congruence | tauto].
Qed.

Lemma indexOf_Some x l i :
  ListingWrites.indexOf x l = Some i → l !! i = Some x ∧ x ∉ take i l.
Proof.
  revert i. induction l as [|y l IH]; simpl; intros i; [discriminate|].
  case_bool_decide as E.
  - intros [= <-]. subst. split; [reflexivity | apply not_elem_of_nil].
  - destruct (ListingWrites.indexOf x l) as [j|]; [|discriminate].
    intros [= <-]. destruct (IH j eq_refl) as [Hl Hn].
    split; [exact Hl|]. simpl. rewrite not_elem_of_cons. auto.
Qed.

Lemma indexOf_is_Some x l : x ∈ l → is_Some (ListingWrites.indexOf x l).
Proof.
  intros Hin. destruct (ListingWrites.indexOf x l) eqn:E; [eauto|].
  apply indexOf_None in E. contradiction.
Qed.

(** Pushing an id that is absent, then splicing it out, gives the array
    back. *)
Lemma indexOf_push x l :
  x ∉ l → ListingWrites.indexOf x (l ++ [x]) = Some (length l).
Proof.
  induction l as [|y l IH]; simpl; intros Hn.
  - by rewrite bool_decide_eq_true_2.
  - apply not_elem_of_cons in Hn as [Hne Hn].
    rewrite bool_decide_eq_false_2 by congruence. by rewrite IH.
Qed.

Lemma splice1_push x l : ListingWrites.splice1 (length l) (l ++ [x]) = l.
Proof.
  unfold ListingWrites.splice1.
  rewrite take_app_length.
  rewrite drop_app_ge by lia.
  replace (S (length l) - length l)%nat with 1%nat by lia.
  simpl. apply app_nil_r.
Qed.

Lemma elem_of_splice1 x l i y :
  NoDup l → l !! i = Some x →
  y ∈ ListingWrites.splice1 i l ↔ y ∈ l ∧ y ≠ x.
Proof.
  intros Hnd Hl. unfold ListingWrites.splice1.
  rewrite <- (take_drop_middle l i x Hl) in Hnd at 1.
  apply NoDup_app in Hnd as (Hnd1 & Hdis & Hnd2).
  apply NoDup_cons in Hnd2 as [Hx2 Hnd2].
  rewrite <- (take_drop_middle l i x Hl) at 3.
  rewrite !elem_of_app, elem_of_cons. split.
  - intros [H|H]; (split; [tauto|]); intros ->.
    + apply (Hdis x H). left.
    + contradiction.
  - intros [[H|[->|H]] Hne]; tauto.
Qed.

Lemma NoDup_splice1 l i : NoDup l → NoDup (ListingWrites.splice1 i l).
Proof.
  intros Hnd. unfold ListingWrites.splice1. rewrite <- delete_take_drop.
  eapply sublist_NoDup; [exact Hnd | apply sublist_delete].
Qed.

(** The handler past [protect] and [findById]. *)
Lemma favorite_signed_in s now uid u id l :
  signed_in s uid u → listings s !! id = Some l →
  let me := User.set_lastSeen u now in
  let s0 := save_user s uid me in
  ListingWrites.favorite s now (Some uid) id
  = match ListingWrites.indexOf id (User.favorites u) with
    | Some i =>
        (save_listing
           (save_user s0 uid
              (User.set_favorites me (ListingWrites.splice1 i (User.favorites u))))
           id (Listing.set_favoritesCount l (Z.max 0 (Listing.favoritesCount l - 1))),
         Success 200 (false, Z.max 0 (Listing.favoritesCount l - 1)))
    | None =>
        (save_listing
           (save_user s0 uid (User.set_favorites me (User.favorites u ++ [id])))
           id (Listing.set_favoritesCount l (Listing.favoritesCount l + 1)),
         Success 200 (true, Listing.favoritesCount l + 1))
    end.
Proof.
  intros Hin Hl me s0. unfold ListingWrites.favorite.
  rewrite (protect_signed_in s now uid u Hin). fold me. fold s0.
  unfold s0. rewrite listings_save_user, Hl.
  change (User.favorites me) with (User.favorites u).
  destruct (ListingWrites.indexOf id (User.favorites u)); reflexivity.
Qed.

Lemma favorite_other_listings s now token id other :
  other ≠ id →
  listings (ListingWrites.favorite s now token id).1 !! other = listings s !! other.
Proof.
  intros Hne. unfold ListingWrites.favorite, Auth.protect.
  destruct token as [uid|]; [|reflexivity].
  destruct (users s !! uid) as [u|]; [|reflexivity].
  destruct (negb (User.isActive u)); [reflexivity|].
  rewrite listings_save_user.
  destruct (listings s !! id) as [l|]; [|reflexivity].
  destruct (ListingWrites.indexOf id _); simpl;
    rewrite lookup_insert_ne by congruence; reflexivity.
Qed.

(** C10.  The favorites counter never becomes negative.  Whatever the
    request, a store whose counters are all non-negative stays so; a new
    listing starts at zero; and the branch that removes a favorite leaves a
    non-negative counter whatever was stored, zero when the stored counter
    was zero already. *)
Theorem favoritesCount_never_negative s now :
  (∀ token id,
     nonneg_counts s → nonneg_counts (ListingWrites.favorite s now token id).1)
  ∧ (∀ sellerId title description price category condition area city files,
       Listing.favoritesCount
         (ListingWrites.new_listing now sellerId title description price category
            condition area city files) = 0)
  ∧ (∀ uid u id l,
       signed_in s uid u → listings s !! id = Some l →
       id ∈ User.favorites u →
       let out := ListingWrites.favorite s now (Some uid) id in
       ∃ l',
         listings out.1 !! id = Some l'
         ∧ out.2 = Success 200 (false, Listing.favoritesCount l')
         ∧ 0 ≤ Listing.favoritesCount l'
         ∧ (Listing.favoritesCount l = 0 → Listing.favoritesCount l' = 0)).
Proof.
  split; [|split].
  - intros token id Hnn other l'.
    destruct (decide (other = id)) as [->|Hne].
    + unfold ListingWrites.favorite, Auth.protect.
      destruct token as [uid|]; [|apply Hnn].
      destruct (users s !! uid) as [u|]; [|apply Hnn].
      destruct (negb (User.isActive u)); [apply Hnn|].
      rewrite listings_save_user.
      destruct (listings s !! id) as [l|] eqn:Hl; [|simpl; rewrite Hl; discriminate].
      pose proof (Hnn id l Hl) as H0. simpl in H0.
      destruct (ListingWrites.indexOf id _); simpl;
        rewrite lookup_insert_eq; intros [= <-]; simpl; lia.
    + rewrite favorite_other_listings by exact Hne. apply Hnn.
  - reflexivity.
  - intros uid u id l Hin Hl Hfav out. subst out.
    rewrite (favorite_signed_in s now uid u id l Hin Hl).
    destruct (indexOf_is_Some id (User.favorites u) Hfav) as [i ->].
    eexists. split; [apply listings_save_listing_eq|]. simpl.
    split; [reflexivity|]. split; lia.
Qed.

Lemma favoritesCount_never_negative_witness :
  nonneg_counts Sample.store
  ∧ nonneg_counts (ListingWrites.favorite Sample.store 600 (Some Sample.omar) Sample.live).1
  ∧ (∃ l',
       listings
         (ListingWrites.favorite
            (ListingWrites.favorite Sample.store 600 (Some Sample.omar) Sample.live).1
            700 (Some Sample.omar) Sample.live).1 !! Sample.live = Some l'
       ∧ (ListingWrites.favorite
            (ListingWrites.favorite Sample.store 600 (Some Sample.omar) Sample.live).1
            700 (Some Sample.omar) Sample.live).2
         = Success 200 (false, Listing.favoritesCount l')
       ∧ 0 ≤ Listing.favoritesCount l')
  ∧ Listing.favoritesCount (Sample.lamp Listing.mod_approved Listing.active None) = 0
  ∧ (∃ l',
       listings (ListingWrites.favorite stale_favorite 600 (Some Sample.omar) Sample.live).1
         !! Sample.live = Some l'
       ∧ (ListingWrites.favorite stale_favorite 600 (Some Sample.omar) Sample.live).2
         = Success 200 (false, Listing.favoritesCount l')
       ∧ Listing.favoritesCount l' = 0).
Proof.
  assert (H : nonneg_counts Sample.store)
    by (refine (bool_decide_unpack _ _); vm_compute; exact I).
  split; [exact H|]. split; [|split; [|split; [reflexivity|]]].
  - apply (favoritesCount_never_negative Sample.store 600). exact H.
  - destruct (favoritesCount_never_negative
                (ListingWrites.favorite Sample.store 600 (Some Sample.omar) Sample.live).1
                700) as (_ & _ & Hremove).
    destruct (Hremove Sample.omar
                (User.set_favorites (User.set_lastSeen Sample.omar_user 600) [Sample.live])
                Sample.live
                (Listing.set_favoritesCount
                   (Sample.lamp Listing.mod_approved Listing.active None) 1))
      as (l' & Hl' & Hout & Hpos & _).
    + split; reflexivity.
    + reflexivity.
    + apply list_elem_of_here.
    + exists l'. split; [exact Hl'|]. split; [exact Hout | exact Hpos].
  - destruct (favoritesCount_never_negative stale_favorite 600) as (_ & _ & Hremove).
    destruct (Hremove Sample.omar (User.set_favorites Sample.omar_user [Sample.live])
                Sample.live (Sample.lamp Listing.mod_approved Listing.active None))
      as (l' & Hl' & Hout & _ & Hzero).
    + split; reflexivity.
    + reflexivity.
    + apply list_elem_of_here.
    + exists l'. split; [exact Hl'|]. split; [exact Hout|]. apply Hzero. reflexivity.
Defined.

(** *** The counter follows the favorites *)

Lemma fans_lookup s id uid u :
  users s !! uid = Some u →
  fans s id !! uid = if decide (id ∈ User.favorites u) then Some u else None.
Proof.
  intros Hu. unfold fans. case_decide as E.
  - apply map_lookup_filter_Some. auto.
  - apply map_lookup_filter_None. right. intros x Hx. simpl.
    rewrite Hu in Hx. injection Hx as <-. exact E.
Qed.

Lemma fans_size_save_user s uid u u' id :
  users s !! uid = Some u →
  Z.of_nat (size (fans (save_user s uid u') id))
  = Z.of_nat (size (fans s id)) + holds id u' - holds id u.
Proof.
  intros Hu. pose proof (fans_lookup s id uid u Hu) as Hf.
  unfold holds. unfold fans at 1. unfold save_user. simpl.
  rewrite map_filter_insert. simpl. fold (fans s id).
  destruct (decide (id ∈ User.favorites u')) as [Hin'|Hout'].
  - rewrite map_size_insert, Hf.
    destruct (decide (id ∈ User.favorites u)); simpl; lia.
  - rewrite map_filter_delete. fold (fans s id).
    rewrite map_size_delete, Hf.
    destruct (decide (id ∈ User.favorites u)) as [Hin|Hout]; simpl; [|lia].
    assert (size (fans s id) ≠ 0%nat).
    { apply (map_size_ne_0_lookup_2 _ uid). rewrite Hf. eauto. }
    lia.
Qed.

Lemma in_sync_step s s' uid u u' :
  favorites_in_sync s →
  users s !! uid = Some u →
  users s' = <[uid := u']> (users s) →
  NoDup (User.favorites u') →
  (∀ id l', listings s' !! id = Some l' →
     ∃ l, listings s !! id = Some l
          ∧ Listing.favoritesCount l'
            = Listing.favoritesCount l + holds id u' - holds id u) →
  favorites_in_sync s'.
Proof.
  intros [Hnd Hcnt] Hu Hus Hnd' Hls. split.
  - intros uid2 u2. rewrite Hus.
    destruct (decide (uid = uid2)) as [<-|Hne].
    + rewrite lookup_insert_eq. intros [= <-]. exact Hnd'.
    + rewrite lookup_insert_ne by exact Hne. apply Hnd.
  - intros id l' Hl'. destruct (Hls id l' Hl') as (l & Hl & ->).
    rewrite (Hcnt id l Hl).
    rewrite <- (fans_size_save_user s uid u u' id Hu).
    unfold fans, save_user. simpl. rewrite Hus. reflexivity.
Qed.

Lemma holds_set_lastSeen id u now : holds id (User.set_lastSeen u now) = holds id u.
Proof. reflexivity. Qed.

Lemma in_sync_protect {A} s now token :
  favorites_in_sync s →
  favorites_in_sync (Auth.protect (A := A) s now token).1.
Proof.
  intros Hs. unfold Auth.protect.
  destruct token as [uid|]; [|exact Hs].
  destruct (users s !! uid) as [u|] eqn:Hu; [|exact Hs].
  destruct (negb (User.isActive u)); [exact Hs|].
  simpl. apply (in_sync_step s _ uid u (User.set_lastSeen u now) Hs Hu).
  - reflexivity.
  - destruct Hs as [Hnd _]. exact (Hnd uid u Hu).
  - intros id l' Hl'. exists l'. split; [exact Hl'|].
    rewrite holds_set_lastSeen. lia.
Qed.

(** The toggle keeps the counters and the favorites in sync, whatever the
    request. *)
Lemma favorite_keeps_sync s now token id :
  favorites_in_sync s →
  favorites_in_sync (ListingWrites.favorite s now token id).1.
Proof.
  intros Hs.
  pose proof (in_sync_protect (A := bool * Z) s now token Hs) as Hp.
  unfold ListingWrites.favorite.
  destruct (Auth.protect s now token) as [s0 [r|[uid me]]] eqn:Ep; [exact Hp|].
  simpl in Hp.
  destruct (listings s0 !! id) as [l|] eqn:Hl; [|exact Hp].
  assert (Hme : users s0 !! uid = Some me).
  { unfold Auth.protect in Ep. destruct token as [t|]; [|discriminate].
    destruct (users s !! t); [|discriminate].
    destruct (negb _); [discriminate|].
    injection Ep as <- <- <-. apply users_save_user_eq. }
  destruct Hp as [Hnd Hcnt].
  pose proof (Hnd uid me Hme) as Hndme.
  destruct (ListingWrites.indexOf id (User.favorites me)) as [i|] eqn:Ei; simpl.
  - destruct (indexOf_Some _ _ _ Ei) as [Hi _].
    assert (Hin : id ∈ User.favorites me) by (eapply list_elem_of_lookup_2; eauto).
    eapply (in_sync_step s0 _ uid me _ (conj Hnd Hcnt) Hme); [reflexivity| |].
    + simpl. apply NoDup_splice1. exact Hndme.
    + intros id2 l2. simpl. destruct (decide (id = id2)) as [<-|Hne].
      * rewrite lookup_insert_eq. intros [= <-]. exists l. split; [exact Hl|].
        unfold holds. simpl.
        rewrite (decide_True _ _ Hin).
        rewrite decide_False
          by (rewrite (elem_of_splice1 id _ i id Hndme Hi); tauto).
        pose proof (Hcnt id l Hl) as Hc.
        assert (size (fans s0 id) ≠ 0%nat).
        { apply (map_size_ne_0_lookup_2 _ uid).
          rewrite (fans_lookup s0 id uid me Hme), (decide_True _ _ Hin). eauto. }
        lia.
      * rewrite lookup_insert_ne by exact Hne. intros Hl2.
        exists l2. split; [exact Hl2|]. unfold holds. simpl.
        destruct (decide (id2 ∈ User.favorites me)) as [H2|H2].
        -- rewrite decide_True
             by (rewrite (elem_of_splice1 id _ i id2 Hndme Hi); split; congruence).
           lia.
        -- rewrite decide_False
             by (rewrite (elem_of_splice1 id _ i id2 Hndme Hi); tauto).
           lia.
  - apply indexOf_None in Ei.
    eapply (in_sync_step s0 _ uid me _ (conj Hnd Hcnt) Hme); [reflexivity| |].
    + simpl. apply NoDup_app. split; [exact Hndme|]. split; [|apply NoDup_singleton].
      intros x Hx Hx'. apply list_elem_of_singleton in Hx'. congruence.
    + intros id2 l2. simpl. destruct (decide (id = id2)) as [<-|Hne].
      * rewrite lookup_insert_eq. intros [= <-]. exists l. split; [exact Hl|].
        unfold holds. simpl.
        rewrite (decide_False _ _ Ei).
        rewrite decide_True by (apply elem_of_app; right; apply list_elem_of_singleton; reflexivity).
        lia.
      * rewrite lookup_insert_ne by exact Hne. intros Hl2.
        exists l2. split; [exact Hl2|]. unfold holds. simpl.
        destruct (decide (id2 ∈ User.favorites me)) as [H2|H2].
        -- rewrite decide_True by (apply elem_of_app; auto). lia.
        -- rewrite decide_False; [lia|].
           rewrite elem_of_app, list_elem_of_singleton. intros [?|?]; congruence.
Qed.

(** C8.  The favorite toggle on a store whose counters are in sync with the
    favorites.  One toggle either adds the listing to the favorites of the
    user and increments the counter, or removes it and decrements the
    counter, and the store stays in sync.  A second toggle by the same user
    on the same listing gives back the original set of favorites and the
    original counter. *)
Theorem favorite_toggle_involutive s now now2 uid u id l :
  favorites_in_sync s →
  signed_in s uid u →
  listings s !! id = Some l →
  let once := ListingWrites.favorite s now (Some uid) id in
  let twice := ListingWrites.favorite once.1 now2 (Some uid) id in
  favorites_in_sync once.1
  ∧ (∃ u1 l1,
       users once.1 !! uid = Some u1 ∧ listings once.1 !! id = Some l1
       ∧ once.2 = Success 200 (bool_decide (id ∉ User.favorites u),
                               Listing.favoritesCount l1)
       ∧ (((id ∉ User.favorites u) ∧ id ∈ User.favorites u1)
          ↔ Listing.favoritesCount l1 = Listing.favoritesCount l + 1)
       ∧ ((id ∈ User.favorites u ∧ id ∉ User.favorites u1)
          ↔ Listing.favoritesCount l1 = Listing.favoritesCount l - 1)
       ∧ ((id ∈ User.favorites u1) ↔ (id ∉ User.favorites u)))
  ∧ (∃ u2 l2,
       users twice.1 !! uid = Some u2 ∧ listings twice.1 !! id = Some l2
       ∧ (∀ x, x ∈ User.favorites u2 ↔ x ∈ User.favorites u)
       ∧ Listing.favoritesCount l2 = Listing.favoritesCount l).
Proof.
  intros Hs Hin Hl once twice.
  split; [apply favorite_keeps_sync; exact Hs|].
  destruct Hs as [Hnd Hcnt]. destruct Hin as [Hu Hact].
  pose proof (Hnd uid u Hu) as Hndu.
  pose proof (Hcnt id l Hl) as Hc.
  assert (Honce : once = ListingWrites.favorite s now (Some uid) id) by reflexivity.
  rewrite (favorite_signed_in s now uid u id l (conj Hu Hact) Hl) in Honce.
  set (me := User.set_lastSeen u now) in *.
  set (s0 := save_user s uid me) in *.
  destruct (ListingWrites.indexOf id (User.favorites u)) as [i|] eqn:Ei.
  - (* the listing was a favorite: it is removed *)
    destruct (indexOf_Some _ _ _ Ei) as [Hi _].
    assert (Hfav : id ∈ User.favorites u) by (eapply list_elem_of_lookup_2; eauto).
    assert (Hge : 1 ≤ Listing.favoritesCount l).
    { assert (size (fans s id) ≠ 0%nat); [|lia].
      apply (map_size_ne_0_lookup_2 _ uid).
      rewrite (fans_lookup s id uid u Hu), (decide_True _ _ Hfav). eauto. }
    set (u1 := User.set_favorites me (ListingWrites.splice1 i (User.favorites u))) in *.
    set (l1 := Listing.set_favoritesCount l (Z.max 0 (Listing.favoritesCount l - 1))) in *.
    assert (Hgone : id ∉ User.favorites u1).
    { simpl. rewrite (elem_of_splice1 id _ i id Hndu Hi). tauto. }
    assert (Hin1 : signed_in once.1 uid u1).
    { rewrite Honce. split; [|exact Hact]. simpl. apply lookup_insert_eq. }
    assert (Hl1 : listings once.1 !! id = Some l1).
    { rewrite Honce. apply listings_save_listing_eq. }
    split.
    + exists u1, l1. destruct Hin1 as [Hu1 _].
      split; [exact Hu1|]. split; [exact Hl1|].
      split; [rewrite Honce; simpl; rewrite bool_decide_eq_false_2 by tauto;
              reflexivity|].
      simpl. split; [|split]; split; try tauto; try lia.
    + unfold twice.
      rewrite (favorite_signed_in once.1 now2 uid u1 id l1 Hin1 Hl1).
      apply indexOf_None in Hgone. rewrite Hgone.
      eexists _, _. split; [simpl; apply lookup_insert_eq|].
      split; [apply listings_save_listing_eq|].
      split.
      * intros x. simpl. rewrite elem_of_app, list_elem_of_singleton.
        rewrite (elem_of_splice1 id _ i x Hndu Hi).
        destruct (decide (x = id)) as [->|]; tauto.
      * simpl. lia.
  - (* the listing was not a favorite: it is added *)
    apply indexOf_None in Ei.
    set (u1 := User.set_favorites me (User.favorites u ++ [id])) in *.
    set (l1 := Listing.set_favoritesCount l (Listing.favoritesCount l + 1)) in *.
    assert (Hnow : id ∈ User.favorites u1).
    { simpl. apply elem_of_app. right. apply list_elem_of_singleton. reflexivity. }
    assert (Hin1 : signed_in once.1 uid u1).
    { rewrite Honce. split; [|exact Hact]. simpl. apply lookup_insert_eq. }
    assert (Hl1 : listings once.1 !! id = Some l1).
    { rewrite Honce. apply listings_save_listing_eq. }
    split.
    + exists u1, l1. destruct Hin1 as [Hu1 _].
      split; [exact Hu1|]. split; [exact Hl1|].
      split; [rewrite Honce; simpl; rewrite bool_decide_eq_true_2 by exact Ei;
              reflexivity|].
      simpl. split; [|split]; split; try tauto; try lia.
    + unfold twice.
      rewrite (favorite_signed_in once.1 now2 uid u1 id l1 Hin1 Hl1).
      simpl User.favorites. rewrite (indexOf_push id _ Ei).
      eexists _, _. split; [simpl; apply lookup_insert_eq|].
      split; [apply listings_save_listing_eq|].
      split.
      * intros x. simpl. rewrite splice1_push. reflexivity.
      * simpl. lia.
Qed.

(** A store in which nobody holds a favorite and every counter is zero is in
    sync. *)
Lemma in_sync_no_favorites s :
  map_Forall (fun _ u => User.favorites u = []) (users s) →
  map_Forall (fun _ l => Listing.favoritesCount l = 0) (listings s) →
  favorites_in_sync s.
Proof.
  intros Hu Hl. split.
  - intros uid u Hlook. rewrite (Hu uid u Hlook). apply NoDup_nil_2.
  - intros id l Hlook. rewrite (Hl id l Hlook).
    assert (E : fans s id = ∅); [|rewrite E, map_size_empty; reflexivity].
    apply map_empty_filter. intros uid u Hlook'. simpl.
    rewrite (Hu uid u Hlook'). apply not_elem_of_nil.
Qed.

Lemma sample_store_in_sync : favorites_in_sync Sample.store.
Proof.
  apply in_sync_no_favorites.
  - refine (bool_decide_unpack _ _). vm_compute. exact I.
  - refine (bool_decide_unpack _ _). vm_compute. exact I.
Qed.

Lemma favorite_toggle_involutive_witness :
  favorites_in_sync Sample.store
  ∧ signed_in Sample.store Sample.omar Sample.omar_user
  ∧ ∃ u2 l2,
      users (ListingWrites.favorite
               (ListingWrites.favorite Sample.store 600 (Some Sample.omar) Sample.live).1
               601 (Some Sample.omar) Sample.live).1 !! Sample.omar = Some u2
      ∧ listings (ListingWrites.favorite
                    (ListingWrites.favorite Sample.store 600 (Some Sample.omar) Sample.live).1
                    601 (Some Sample.omar) Sample.live).1 !! Sample.live = Some l2
      ∧ (∀ x, x ∈ User.favorites u2 ↔ x ∈ User.favorites Sample.omar_user)
      ∧ Listing.favoritesCount l2 = 0.
Proof.
  assert (Hin : signed_in Sample.store Sample.omar Sample.omar_user)
    by sample_signed_in.
  split; [exact sample_store_in_sync|]. split; [exact Hin|].
  destruct (favorite_toggle_involutive Sample.store 600 601 Sample.omar
              Sample.omar_user Sample.live
              (Sample.lamp Listing.mod_approved Listing.active None)
              sample_store_in_sync Hin eq_refl)
    as (_ & _ & u2 & l2 & Hu2 & Hl2 & Hset & Hc).
  exists u2, l2. repeat split; try assumption; apply Hset.
Defined.

(** Two toggles on the sample store, computed. *)
Example favorite_twice_on_sample :
  let once := ListingWrites.favorite Sample.store 600 (Some Sample.omar) Sample.live in
  let twice := ListingWrites.favorite once.1 601 (Some Sample.omar) Sample.live in
  once.2 = Success 200 (true, 1)
  ∧ twice.2 = Success 200 (false, 0)
  ∧ User.favorites <$> users once.1 !! Sample.omar = Some [Sample.live]
  ∧ User.favorites <$> users twice.1 !! Sample.omar = Some [].
Proof. vm_compute. repeat split. Qed.

(** *** Every request keeps the favorites and the counters consistent *)

Lemma frames_refl s : frames s s.
Proof.
  split; [reflexivity|]. split; [reflexivity|]. intros id l Hl. exists l. auto.
Qed.

Lemma frames_trans s1 s2 s3 : frames s1 s2 → frames s2 s3 → frames s1 s3.
Proof.
  intros (Hn1 & Hu1 & Hl1) (Hn2 & Hu2 & Hl2). split; [lia|]. split.
  - intros uid. rewrite Hu2. apply Hu1.
  - intros id l3 H3. destruct (Hl2 id l3 H3) as (l2 & H2 & E2).
    destruct (Hl1 id l2 H2) as (l1 & H1 & E1). exists l1. split; [exact H1|lia].
Qed.

Lemma frames_step_user s s1 uid u u' :
  frames s s1 → users s1 !! uid = Some u →
  User.favorites u' = User.favorites u →
  frames s (save_user s1 uid u').
Proof.
  intros Hf Hu Hfav. apply (frames_trans s s1); [exact Hf|].
  split; [reflexivity|]. split.
  - intros uid2. simpl. destruct (decide (uid = uid2)) as [<-|Hne].
    + rewrite lookup_insert_eq, Hu. simpl. by rewrite Hfav.
    + by rewrite lookup_insert_ne.
  - intros id l Hl. exists l. auto.
Qed.

Lemma frames_step_listing s s1 id l l' :
  frames s s1 → listings s1 !! id = Some l →
  Listing.favoritesCount l' = Listing.favoritesCount l →
  frames s (save_listing s1 id l').
Proof.
  intros Hf Hl Hc. apply (frames_trans s s1); [exact Hf|].
  split; [reflexivity|]. split; [reflexivity|].
  intros id2 l2. simpl. destruct (decide (id = id2)) as [<-|Hne].
  - rewrite lookup_insert_eq. intros [= <-]. exists l. auto.
  - rewrite lookup_insert_ne by exact Hne. intros H2. exists l2. auto.
Qed.

Lemma frames_step_other s s1 s2 :
  frames s s1 → users s2 = users s1 → listings s2 = listings s1 →
  (nextId s1 ≤ nextId s2)%positive →
  frames s s2.
Proof.
  intros Hf Hu Hl Hn. apply (frames_trans s s1); [exact Hf|].
  split; [exact Hn|]. split.
  - intros uid. by rewrite Hu.
  - intros id l. rewrite Hl. intros H. exists l. auto.
Qed.

Lemma frames_protect {A} s now token : frames s (Auth.protect (A := A) s now token).1.
Proof.
  unfold Auth.protect.
  destruct token as [uid|]; [|apply frames_refl].
  destruct (users s !! uid) as [u|] eqn:Hu; [|apply frames_refl].
  destruct (negb (User.isActive u)); [apply frames_refl|].
  simpl. eapply frames_step_user; [apply frames_refl | exact Hu | reflexivity].
Qed.

Lemma fans_size_ext s s' id :
  (∀ uid, User.favorites <$> users s' !! uid = User.favorites <$> users s !! uid) →
  size (fans s' id) = size (fans s id).
Proof.
  intros Hu. rewrite <- !size_dom. f_equal. apply set_eq. intros uid.
  rewrite !elem_of_dom. unfold fans. specialize (Hu uid).
  split; intros [u Hl%map_lookup_filter_Some]; destruct Hl as [Hl Hin]; simpl in Hin.
  - rewrite Hl in Hu. simpl in Hu.
    destruct (users s !! uid) as [u0|] eqn:E; [|discriminate].
    injection Hu as Hu. exists u0. apply map_lookup_filter_Some. simpl.
    split; [assumption | congruence].
  - rewrite Hl in Hu. simpl in Hu.
    destruct (users s' !! uid) as [u0|] eqn:E; [|discriminate].
    injection Hu as Hu. exists u0. apply map_lookup_filter_Some. simpl.
    split; [assumption | congruence].
Qed.

Lemma consistent_frames s s' : consistent s → frames s s' → consistent s'.
Proof.
  intros [[Hnd Hcnt] [Hfu Hfl]] (Hn & Hu & Hl). split; split.
  - intros uid u' Hu'. specialize (Hu uid). rewrite Hu' in Hu. simpl in Hu.
    destruct (users s !! uid) as [u|] eqn:E; [|discriminate].
    injection Hu as Hu. rewrite Hu. exact (Hnd uid u E).
  - intros id l' Hl'. destruct (Hl id l' Hl') as (l & Hl0 & ->).
    rewrite (Hcnt id l Hl0). f_equal. symmetry. apply fans_size_ext. exact Hu.
  - intros uid u' Hu' x Hx. specialize (Hu uid). rewrite Hu' in Hu. simpl in Hu.
    destruct (users s !! uid) as [u|] eqn:E; [|discriminate].
    injection Hu as Hu. rewrite Hu in Hx. pose proof (Hfu uid u E x Hx). lia.
  - intros id l' Hl'. destruct (Hl id l' Hl') as (l & Hl0 & _).
    pose proof (Hfl id l Hl0). lia.
Qed.

(** Chains of saves that leave the favorites alone. *)
Ltac frame :=
  first
    [ eassumption
    | apply frames_refl
    | eapply frames_step_user; [frame | eassumption | reflexivity]
    | eapply frames_step_listing; [frame | eassumption | reflexivity]
    | eapply frames_step_other;
        [frame | reflexivity | reflexivity | simpl; lia] ].

(** Opens a handler at its [protect] and splits it into its branches. *)
Ltac open_handler s now token A :=
  let Hp := fresh "Hp" in
  pose proof (frames_protect (A := A) s now token) as Hp;
  destruct (Auth.protect (A := A) s now token) as [? [?|[? ?]]];
  simpl in Hp; [exact Hp|];
  repeat case_match; simpl fst; try exact Hp.

Lemma frames_submit s now token documentType files :
  frames s (VerificationRoutes.submit s now token documentType files).1.
Proof.
  unfold VerificationRoutes.submit.
  open_handler s now token Verification.t; frame.
Qed.

Lemma frames_review mail s now token userId action reason :
  frames s (AdminRoutes.review mail s now token userId action reason).1.1.
Proof.
  unfold AdminRoutes.review, AdminRoutes.guard.
  open_handler s now token Verification.t; simplify_eq; simpl; try exact Hp; frame.
Qed.

Lemma frames_moderate mail s now token id action note :
  frames s (AdminRoutes.moderate mail s now token id action note).1.1.
Proof.
  unfold AdminRoutes.moderate, AdminRoutes.guard.
  open_handler s now token Listing.t; simplify_eq; simpl fst; try exact Hp; frame.
Qed.

Lemma frames_getListing s now token id :
  frames s (ListingRoutes.getListing s now token id).1.
Proof.
  unfold ListingRoutes.getListing.
  repeat case_match; simplify_eq; simpl fst; frame.
Qed.

Lemma frames_report s now token id reason :
  frames s (ListingWrites.report s now token id reason).1.
Proof.
  unfold ListingWrites.report.
  open_handler s now token unit; frame.
Qed.

Lemma frames_softDelete s now token id reason :
  frames s (ListingWrites.softDelete s now token id reason).1.
Proof.
  unfold ListingWrites.softDelete.
  open_handler s now token Listing.t; frame.
Qed.

Lemma frames_save_conversation s s1 id c :
  frames s s1 → frames s (save_conversation s1 id c).
Proof. intros H. eapply frames_step_other; [exact H|reflexivity..]. Qed.

Lemma frames_sendMessage s now token cid content type :
  frames s (MessageRoutes.sendMessage s now token cid content type).1.1.
Proof.
  unfold MessageRoutes.sendMessage.
  open_handler s now token (Id * Message.t)%type; simpl fst.
  all: try (eapply frames_step_user; [|eassumption|reflexivity]).
  all: try apply frames_save_conversation.
  all: frame.
Qed.

Lemma frames_getConversations s now token :
  frames s (MessageRoutes.getConversations s now token).1.
Proof.
  unfold MessageRoutes.getConversations.
  open_handler s now token (gmap Id (Conversation.t * Z)).
Qed.

Lemma frames_getConversation s now token id :
  frames s (MessageRoutes.getConversation s now token id).1.
Proof.
  unfold MessageRoutes.getConversation.
  open_handler s now token (Conversation.t * gmap Id Message.t)%type.
  all: apply frames_save_conversation; frame.
Qed.

Lemma frames_getOriginal s now token id :
  frames s (MessageRoutes.getOriginal s now token id).1.
Proof.
  unfold MessageRoutes.getOriginal.
  open_handler s now token MessageRoutes.original.
Qed.

Lemma frames_cleanup s now : frames s (ListingRoutes.cleanupDeletedListings s now).
Proof.
  split; [reflexivity|]. split; [reflexivity|].
  intros id l. unfold ListingRoutes.cleanupDeletedListings. simpl.
  intros [Hl _]%map_lookup_filter_Some. exists l. auto.
Qed.

Lemma elem_of_splice1_sub x i l : x ∈ ListingWrites.splice1 i l → x ∈ l.
Proof.
  unfold ListingWrites.splice1. rewrite <- delete_take_drop. intros H.
  eapply elem_of_sublist; [exact H | apply sublist_delete].
Qed.

Lemma fresh_frames s s' : fresh_ids s → frames s s' → fresh_ids s'.
Proof.
  intros [Hfu Hfl] (Hn & Hu & Hl). split.
  - intros uid u' Hu' x Hx. specialize (Hu uid). rewrite Hu' in Hu. simpl in Hu.
    destruct (users s !! uid) as [u|] eqn:E; [|discriminate].
    injection Hu as Hu. rewrite Hu in Hx. pose proof (Hfu uid u E x Hx). lia.
  - intros id l' Hl'. destruct (Hl id l' Hl') as (l & Hl0 & _).
    pose proof (Hfl id l Hl0). lia.
Qed.

Lemma protect_inr {A} s now token s0 uid me :
  Auth.protect (A := A) s now token = (s0, inr (uid, me)) →
  users s0 !! uid = Some me.
Proof.
  unfold Auth.protect. destruct token as [t|]; [|discriminate].
  destruct (users s !! t); [|discriminate].
  destruct (negb _); [discriminate|].
  intros [= <- <- <-]. apply users_save_user_eq.
Qed.

Lemma fresh_favorite s now token id :
  fresh_ids s → fresh_ids (ListingWrites.favorite s now token id).1.
Proof.
  intros Hs.
  pose proof (frames_protect (A := bool * Z) s now token) as Hp.
  unfold ListingWrites.favorite.
  destruct (Auth.protect s now token) as [s0 [r|[uid me]]] eqn:Ep;
    [exact (fresh_frames _ _ Hs Hp)|].
  simpl in Hp. pose proof (fresh_frames _ _ Hs Hp) as [Hfu Hfl].
  pose proof (protect_inr _ _ _ _ _ _ Ep) as Hme.
  destruct (listings s0 !! id) as [l|] eqn:Hl; [|split; assumption].
  pose proof (Hfl id l Hl) as Hid.
  assert (Hgoal : ∀ favs l',
            (∀ x, x ∈ favs → x ∈ User.favorites me ∨ x = id) →
            fresh_ids (save_listing (save_user s0 uid (User.set_favorites me favs)) id l')).
  { intros favs l' Hfavs. split.
    - intros uid2 u2. simpl. destruct (decide (uid = uid2)) as [<-|Hne].
      + rewrite lookup_insert_eq. intros [= <-] x Hx. simpl in Hx.
        destruct (Hfavs x Hx) as [Hold| ->]; [|exact Hid].
        exact (Hfu uid me Hme x Hold).
      + rewrite lookup_insert_ne by exact Hne. apply Hfu.
    - intros id2 l2. simpl. destruct (decide (id = id2)) as [<-|Hne].
      + intros _. exact Hid.
      + rewrite lookup_insert_ne by exact Hne. apply Hfl. }
  destruct (ListingWrites.indexOf id (User.favorites me)); simpl fst; apply Hgoal.
  - intros x Hx. left. eapply elem_of_splice1_sub. exact Hx.
  - intros x Hx. apply elem_of_app in Hx as [Hx|Hx]; [auto|].
    apply list_elem_of_singleton in Hx. auto.
Qed.

Lemma consistent_createListing s now token body files :
  consistent s → consistent (ListingWrites.createListing s now token body files).1.
Proof.
  intros Hs.
  pose proof (frames_protect (A := Id * Listing.t) s now token) as Hp.
  unfold ListingWrites.createListing.
  destruct (Auth.protect s now token) as [s0 [r|[uid me]]];
    [exact (consistent_frames _ _ Hs Hp)|].
  simpl in Hp. pose proof (consistent_frames _ _ Hs Hp) as Hs0.
  repeat case_match; simpl fst; try exact Hs0.
  destruct Hs0 as [[Hnd Hcnt] [Hfu Hfl]].
  set (created := ListingWrites.new_listing _ _ _ _ _ _ _ _ _ _).
  set (after := {| users := users s0;
                listings := <[nextId s0 := created]> (listings s0);
                conversations := conversations s0; messages := messages s0;
                nextId := Pos.succ (nextId s0) |}).
  assert (Hfans : ∀ id, fans after id = fans s0 id) by reflexivity.
  split; split.
  - exact Hnd.
  - intros id l'. simpl. destruct (decide (nextId s0 = id)) as [<-|Hne].
    + rewrite lookup_insert_eq. intros [= <-]. rewrite Hfans.
      assert (E : fans s0 (nextId s0) = ∅); [|rewrite E, map_size_empty; reflexivity].
      apply map_empty_filter. intros uid2 u2 Hu2 Hin. simpl in Hin.
      pose proof (Hfu uid2 u2 Hu2 _ Hin). lia.
    + rewrite lookup_insert_ne by exact Hne. rewrite Hfans. apply Hcnt.
  - intros uid2 u2 Hu2 x Hx. simpl. pose proof (Hfu uid2 u2 Hu2 x Hx). lia.
  - intros id l'. simpl. destruct (decide (nextId s0 = id)) as [<-|Hne].
    + intros _. lia.
    + rewrite lookup_insert_ne by exact Hne. intros Hlook.
      pose proof (Hfl id l' Hlook). lia.
Qed.

(** Whatever the request, a consistent store stays consistent: no user ever
    holds a listing twice, and every counter is the number of users holding
    the listing. *)
Lemma serve_keeps_consistent s now r : consistent s → consistent (serve s now r).
Proof.
  intros Hs. destruct r; simpl.
  - exact (consistent_frames _ _ Hs (frames_submit _ _ _ _ _)).
  - exact (consistent_frames _ _ Hs (frames_moderate _ _ _ _ _ _ _)).
  - exact (consistent_frames _ _ Hs (frames_review _ _ _ _ _ _ _)).
  - exact (consistent_frames _ _ Hs (frames_getListing _ _ _ _)).
  - exact (consistent_createListing _ _ _ _ _ Hs).
  - destruct Hs as [Hsync Hfresh].
    split; [apply favorite_keeps_sync | apply fresh_favorite]; assumption.
  - exact (consistent_frames _ _ Hs (frames_report _ _ _ _ _)).
  - exact (consistent_frames _ _ Hs (frames_softDelete _ _ _ _ _)).
  - exact (consistent_frames _ _ Hs (frames_sendMessage _ _ _ _ _ _)).
  - exact (consistent_frames _ _ Hs (frames_getConversations _ _ _)).
  - exact (consistent_frames _ _ Hs (frames_getConversation _ _ _ _)).
  - exact (consistent_frames _ _ Hs (frames_getOriginal _ _ _ _)).
  - exact (consistent_frames _ _ Hs (frames_cleanup _ _)).
Qed.

Lemma serve_all_keeps_consistent rs : ∀ s,
  consistent s → consistent (serve_all s rs).
Proof.
  induction rs as [|[now r] rs IH]; intros s Hs; [exact Hs|].
  apply IH. apply serve_keeps_consistent. exact Hs.
Qed.

(** In particular the counters stay in sync, and none is negative, along
    every run from the sample store. *)
Lemma fresh_ids_checked s :
  map_Forall (fun _ u => Forall (fun x => (x < nextId s)%positive) (User.favorites u))
    (users s) →
  map_Forall (fun id _ => (id < nextId s)%positive) (listings s) →
  fresh_ids s.
Proof.
  intros Hu Hl. split.
  - intros uid u Hlook x Hx.
    exact (proj1 (Forall_forall _ _) (Hu uid u Hlook) x Hx).
  - exact Hl.
Qed.

Lemma sample_store_consistent : consistent Sample.store.
Proof.
  split; [exact sample_store_in_sync|]. apply fresh_ids_checked.
  - refine (bool_decide_unpack _ _). vm_compute. exact I.
  - refine (bool_decide_unpack _ _). vm_compute. exact I.
Qed.

Lemma sample_runs_in_sync rs :
  favorites_in_sync (serve_all Sample.store rs)
  ∧ nonneg_counts (serve_all Sample.store rs).
Proof.
  destruct (serve_all_keeps_consistent rs _ sample_store_consistent) as [Hs _].
  split; [exact Hs|].
  intros id l Hl. destruct Hs as [_ Hcnt]. rewrite (Hcnt id l Hl). lia.
Qed.

(** ** Notifications *)

(** The push of the message route keeps the last fifty entries. *)
Lemma push_slice_bounded l n :
  (length (MessageRoutes.push_slice l n) ≤ 50)%nat
  ∧ MessageRoutes.push_slice l n = drop (length l + 1 - 50) (l ++ [n])
  ∧ last (MessageRoutes.push_slice l n) = Some n.
Proof.
  unfold MessageRoutes.push_slice. rewrite length_app. simpl.
  split; [rewrite length_drop, length_app; simpl; lia|].
  split; [reflexivity|].
  destruct (decide (length l + 1 - 50 ≤ length l)%nat) as [Hle|Hgt]; [|lia].
  rewrite drop_app_le by exact Hle. apply last_snoc.
Qed.

(** The pushes of the two admin routes append and keep everything. *)
Lemma moderate_appends mail s now adminId a lid l action note seller :
  signed_in_admin s adminId a →
  AdminRoutes.valid_action action = true →
  listings s !! lid = Some l →
  users (save_user s adminId (User.set_lastSeen a now)) !! Listing.seller l
  = Some seller →
  ∃ n,
    users (AdminRoutes.moderate mail s now (Some adminId) lid action note).1.1
      !! Listing.seller l
    = Some (User.set_notifications seller (User.notifications seller ++ [n])).
Proof.
  intros Hadm Hact Hl Hseller. unfold AdminRoutes.moderate.
  rewrite (guard_signed_in_admin s now adminId a Hadm).
  rewrite Hact. simpl negb. cbv iota.
  autorewrite with store. rewrite Hl.
  set (l1 := Listing.set_moderation l _ _).
  set (l2 := if equals action "reject" then _ else l1).
  assert (Hs2 : Listing.seller l2 = Listing.seller l).
  { unfold l2. destruct (equals action "reject"); reflexivity. }
  rewrite users_save_listing, Hs2, Hseller.
  eexists. destruct (mail _); simpl; apply lookup_insert_eq.
Qed.

(** C4, on the code.  A seller who holds fifty notifications holds fifty-one
    after a moderation decision on one of her listings, and a user who holds
    fifty holds fifty-one after the review of her verification; the push of
    the message route, on the same store, keeps the list at fifty by
    dropping the oldest entry. *)
Theorem admin_notices_exceed_fifty :
  length (Sample.inbox Sample.crowded Sample.sara) = 50%nat
  ∧ length (Sample.inbox Sample.crowded Sample.lina) = 50%nat
  ∧ length (Sample.inbox
              (AdminRoutes.moderate Sample.working_mailer Sample.crowded 900
                 (Some Sample.admin) Sample.live (Some "approve"%string) None).1.1
              Sample.sara) = 51%nat
  ∧ length (Sample.inbox
              (AdminRoutes.review Sample.working_mailer Sample.crowded 900
                 (Some Sample.admin) Sample.lina (Some "approve"%string) None).1.1
              Sample.lina) = 51%nat
  ∧ (let after :=
       Sample.inbox
         (MessageRoutes.sendMessage Sample.crowded 900 (Some Sample.omar)
            Sample.thread (utf16 "hello, interested in this!") None).1.1
         Sample.sara in
     length after = 50%nat
     ∧ head after = Some (Sample.old_notice 1)
     ∧ Notification.type <$> last after = Some Notification.message).
Proof. vm_compute. repeat split. Qed.

(** ** Messages *)

(** What a successful send stores: the message carries the output of the
    filter, the flag and, when the flag is set, the raw text; the snapshot
    of the conversation carries the raw text. *)
Lemma sendMessage_stores s now token cid content type s' events mid m :
  MessageRoutes.sendMessage s now token cid content type
  = (s', events, Success 201 (mid, m)) →
  let result := ContentFilter.filterPersonalInfo content ContentFilter.default_options in
  messages s' !! mid = Some m
  ∧ Message.content m = ContentFilter.r_filtered result
  ∧ Message.isFiltered m = ContentFilter.r_hasFiltered result
  ∧ Message.originalContent m
    = (if ContentFilter.r_hasFiltered result then Some content else None)
  ∧ ∃ c snapshot,
      conversations s' !! cid = Some c
      ∧ Conversation.lastMessage c = Some snapshot
      ∧ Conversation.content snapshot = content.
Proof.
  unfold MessageRoutes.sendMessage, Auth.protect.
  destruct token as [uid|]; [|discriminate].
  destruct (users s !! uid) as [user0|]; [|discriminate].
  destruct (negb (User.isActive user0)); [discriminate|].
  set (user := User.set_lastSeen user0 now).
  set (s0 := save_user s uid user).
  destruct content as [|c0 content']; [discriminate|].
  set (content := c0 :: content').
  destruct (conversations s0 !! cid) as [conv|]; [|discriminate].
  destruct (negb _); [discriminate|].
  destruct (MessageRoutes.parse_type type) as [kind|]; [|discriminate].
  destruct (_ || _); [discriminate|].
  destruct (find _ _) as [other|]; [|discriminate].
  intros [= <- <- <- <-]. cbv zeta.
  destruct (<[uid:=user]> (users s) !! other).
  all: split; [simpl; apply lookup_insert_eq|].
  all: split; [reflexivity|]; split; [reflexivity|]; split; [reflexivity|].
  all: eexists _, _; split; [simpl; apply lookup_insert_eq|].
  all: split; reflexivity.
Qed.

(** [originalContent] is there exactly when the message is flagged, and it
    is the raw text. *)
Lemma sendMessage_original_iff_filtered s now token cid content type s' events mid m :
  MessageRoutes.sendMessage s now token cid content type
  = (s', events, Success 201 (mid, m)) →
  (Message.isFiltered m = true ↔ Message.originalContent m = Some content)
  ∧ (Message.isFiltered m = false ↔ Message.originalContent m = None).
Proof.
  intros H. destruct (sendMessage_stores _ _ _ _ _ _ _ _ _ _ H) as (_ & _ & -> & -> & _).
  destruct (ContentFilter.r_hasFiltered _); split; split; congruence.
Qed.

(** C2, on the code.  The text [01012345678https://x.co] is stored as
    [01012345678[HIDDEN]]: the stored content is the output of the filter
    and the message is flagged, with the raw text kept aside, but the stored
    content still holds a match of the first phone pattern, the number
    itself. *)
Theorem stored_content_keeps_phone_number :
  let raw := utf16 "01012345678https://x.co" in
  let out :=
    MessageRoutes.sendMessage Sample.store 900 (Some Sample.omar) Sample.thread
      raw None in
  ∃ mid m,
    out.2 = Success 201 (mid, m)
    ∧ messages out.1.1 !! mid = Some m
    ∧ Message.content m
      = ContentFilter.r_filtered
          (ContentFilter.filterPersonalInfo raw ContentFilter.default_options)
    ∧ Message.content m = utf16 "01012345678[HIDDEN]"
    ∧ Message.isFiltered m = true
    ∧ Message.originalContent m = Some raw
    ∧ Regex.jsMatch ContentFilter.phone_0 raw = None
    ∧ Regex.jsMatch ContentFilter.phone_0 (Message.content m)
      = Some [utf16 "01012345678"].
Proof. eexists _, _. vm_compute. repeat split. Qed.

(** The two examples of the specification, computed. *)
Example filter_redacts_phone_number :
  let r := ContentFilter.filterPersonalInfo (utf16 "call me 01012345678")
             ContentFilter.default_options in
  ContentFilter.r_filtered r = utf16 "call me [HIDDEN]"
  ∧ ContentFilter.r_hasFiltered r = true.
Proof. vm_compute. split; reflexivity. Qed.

Example filter_keeps_plain_text :
  let r := ContentFilter.filterPersonalInfo (utf16 "hello, interested in this!")
             ContentFilter.default_options in
  ContentFilter.r_filtered r = utf16 "hello, interested in this!"
  ∧ ContentFilter.r_hasFiltered r = false.
Proof. vm_compute. split; reflexivity. Qed.

(** C3, on the code.  Omar sends [call me 01012345678] to Sara, who is not
    an admin.  The stored message shows [call me [HIDDEN]], and the
    admin-only route refuses Sara; but the snapshot of the last message that
    Sara reads with her list of conversations is the raw text. *)
Theorem last_message_shows_unfiltered_text :
  let raw := utf16 "call me 01012345678" in
  let sent :=
    MessageRoutes.sendMessage Sample.store 900 (Some Sample.omar) Sample.thread
      raw None in
  let listed := MessageRoutes.getConversations sent.1.1 950 (Some Sample.sara) in
  User.isAdmin Sample.sara_user = false
  ∧ (∃ mid m,
       sent.2 = Success 201 (mid, m)
       ∧ Message.content m = utf16 "call me [HIDDEN]"
       ∧ Message.isFiltered m = true
       ∧ (MessageRoutes.getOriginal sent.1.1 950 (Some Sample.sara) mid).2
         = Fail 403 (Message_ "Not authorized - Admin access required"))
  ∧ (∃ found c unread,
       listed.2 = Success 200 found
       ∧ found !! Sample.thread = Some (c, unread)
       ∧ Conversation.content <$> Conversation.lastMessage c = Some raw).
Proof.
  split; [reflexivity|]. split.
  - eexists _, _. vm_compute. repeat split.
  - eexists _, _, _. vm_compute. repeat split.
Qed.

(** ** The content filter flags a text exactly when it alters it *)

Section Matcher.
Import Regex.

Lemma rep_sound f : ∀ s lo hi prev (k : cont) rest,
  rep f lo hi prev s k = Some rest →
  ∃ pre mid p', s = pre ++ mid ∧ Forall (fun c => f c = true) pre
                ∧ k p' mid = Some rest.
Proof.
  induction s as [|c s IH]; intros lo hi prev k rest; simpl.
  - destruct lo; [|discriminate]. intros H. exists [], [], prev. auto.
  - destruct (f c && more hi) eqn:E.
    + apply andb_true_iff in E as [Hc _].
      destruct (rep f (Nat.pred lo) (Nat.pred <$> hi) (Some c) s k) as [x|] eqn:Er.
      * intros [= <-]. destruct (IH _ _ _ _ _ Er) as (pre & mid & p' & -> & Hpre & Hk).
        exists (c :: pre), mid, p'. split; [reflexivity|]. split; [|exact Hk].
        constructor; assumption.
      * destruct lo; [|discriminate]. intros H. exists [], (c :: s), prev. auto.
    + destruct lo; [|discriminate]. intros H. exists [], (c :: s), prev. auto.
Qed.

Lemma run_sound r : ∀ prev s (k : cont) rest,
  run r prev s k = Some rest →
  ∃ pre mid p', s = pre ++ mid ∧ Forall (fun c => consumes r c = true) pre
                ∧ k p' mid = Some rest.
Proof.
  induction r as [|f| |r1 IH1 r2 IH2|r1 IH1 r2 IH2|r1 IH1|f lo hi];
    intros prev s k rest; simpl.
  - intros H. exists [], s, prev. auto.
  - destruct s as [|c s]; [discriminate|].
    destruct (f c) eqn:Hc; [|discriminate]. intros H.
    exists [c], s, (Some c). split; [reflexivity|]. split; [|exact H].
    constructor; [exact Hc | constructor].
  - destruct (at_boundary prev s); [|discriminate]. intros H.
    exists [], s, prev. auto.
  - intros H. destruct (IH1 _ _ _ _ H) as (pre1 & mid1 & p1 & -> & Hp1 & H2).
    destruct (IH2 _ _ _ _ H2) as (pre2 & mid2 & p2 & -> & Hp2 & Hk).
    exists (pre1 ++ pre2), mid2, p2. split; [by rewrite app_assoc|].
    split; [|exact Hk]. apply Forall_app. split.
    + eapply Forall_impl; [exact Hp1|]. simpl. intros c ->. reflexivity.
    + eapply Forall_impl; [exact Hp2|]. simpl. intros c ->. apply orb_true_r.
  - destruct (run r1 prev s k) as [x|] eqn:E1.
    + intros [= <-]. destruct (IH1 _ _ _ _ E1) as (pre & mid & p' & -> & Hp & Hk).
      exists pre, mid, p'. split; [reflexivity|]. split; [|exact Hk].
      eapply Forall_impl; [exact Hp|]. simpl. intros c ->. reflexivity.
    + intros H. destruct (IH2 _ _ _ _ H) as (pre & mid & p' & -> & Hp & Hk).
      exists pre, mid, p'. split; [reflexivity|]. split; [|exact Hk].
      eapply Forall_impl; [exact Hp|]. simpl. intros c ->. apply orb_true_r.
  - destruct (run r1 prev s k) as [x|] eqn:E1.
    + intros [= <-]. exact (IH1 _ _ _ _ E1).
    + intros H. exists [], s, prev. auto.
  - apply rep_sound.
Qed.

(** An anchored match is a prefix of the input made of code units that the
    pattern can take. *)
Lemma matchAt_sound r prev s rest :
  matchAt r prev s = Some rest →
  ∃ pre, s = pre ++ rest ∧ Forall (fun c => consumes r c = true) pre.
Proof.
  unfold matchAt. intros H.
  destruct (run_sound r prev s _ rest H) as (pre & mid & p' & -> & Hp & [= ->]).
  exists pre. auto.
Qed.

Lemma matchAt_take r prev s rest :
  matchAt r prev s = Some rest →
  Forall (fun c => consumes r c = true) (take (length s - length rest) s).
Proof.
  intros H. destruct (matchAt_sound r prev s rest H) as (pre & -> & Hp).
  rewrite length_app.
  replace (length pre + length rest - length rest)%nat with (length pre) by lia.
  rewrite take_app_length. exact Hp.
Qed.

Lemma scan_nil r prev skip :
  scan r prev [] skip
  = match skip with
    | O => match matchAt r prev [] with Some _ => [Hit []] | None => [] end
    | S _ => []
    end.
Proof.
  destruct skip; simpl; [|reflexivity]. destruct (matchAt r prev []); reflexivity.
Qed.

Lemma scan_cons_skip r prev c s n :
  scan r prev (c :: s) (S n) = scan r (Some c) s n.
Proof. reflexivity. Qed.

Lemma scan_cons r prev c s :
  scan r prev (c :: s) O
  = match matchAt r prev (c :: s) with
    | Some rest =>
        match (length (c :: s) - length rest)%nat with
        | O => Hit [] :: Lit c :: scan r (Some c) s O
        | S n => Hit (take (S n) (c :: s)) :: scan r (Some c) s n
        end
    | None => Lit c :: scan r (Some c) s O
    end.
Proof.
  change (scan r prev (c :: s) O)
    with (match matchAt r prev (c :: s) with
          | Some rest =>
              let len := (length (c :: s) - length rest)%nat in
              Hit (take len (c :: s)) ::
                match len with
                | O => Lit c :: scan r (Some c) s O
                | S n => scan r (Some c) s n
                end
          | None => Lit c :: scan r (Some c) s O
          end).
  destruct (matchAt r prev (c :: s)) as [rest|]; [|reflexivity].
  cbv zeta. destruct (length (c :: s) - length rest)%nat; reflexivity.
Qed.

(** Every match that a scan reports is made of code units that the pattern
    can take. *)
Lemma scan_hits r : ∀ s prev skip,
  Forall (Forall (fun c => consumes r c = true)) (hits (scan r prev s skip)).
Proof.
  induction s as [|c s IH]; intros prev skip.
  - rewrite scan_nil. destruct skip; [|constructor].
    destruct (matchAt r prev []); repeat constructor.
  - destruct skip as [|n]; [|rewrite scan_cons_skip; apply IH].
    rewrite scan_cons.
    destruct (matchAt r prev (c :: s)) as [rest|] eqn:E; [|apply IH].
    pose proof (matchAt_take r prev (c :: s) rest E) as Hm.
    destruct (length (c :: s) - length rest)%nat as [|n].
    + change (hits (Hit [] :: Lit c :: scan r (Some c) s 0))
        with ([] :: hits (scan r (Some c) s 0)).
      constructor; [constructor | apply IH].
    + change (hits (Hit (take (S n) (c :: s)) :: scan r (Some c) s n))
        with (take (S n) (c :: s) :: hits (scan r (Some c) s n)).
      constructor; [exact Hm | apply IH].
Qed.

(** The tokens of a scan spell the part of the input that the scan walks. *)
Lemma scan_text r : ∀ s prev skip,
  mjoin (token_text <$> scan r prev s skip) = drop skip s.
Proof.
  induction s as [|c s IH]; intros prev skip.
  - rewrite scan_nil. destruct skip; [|reflexivity].
    destruct (matchAt r prev []); reflexivity.
  - destruct skip as [|n]; [rewrite scan_cons | rewrite scan_cons_skip; apply IH].
    destruct (matchAt r prev (c :: s)) as [rest|] eqn:E.
    + destruct (length (c :: s) - length rest)%nat as [|n].
      * simpl. rewrite IH. reflexivity.
      * rewrite fmap_cons. simpl mjoin. rewrite IH. simpl.
        f_equal. apply take_drop.
    + simpl. rewrite IH. reflexivity.
Qed.

End Matcher.

Section Counting.
Import Regex ContentFilter.

Lemma brackets_app a b : brackets (a ++ b) = (brackets a + brackets b)%nat.
Proof. unfold brackets. rewrite filter_app, length_app. reflexivity. Qed.

Lemma brackets_none r m :
  consumes r bracket = false →
  Forall (fun c => consumes r c = true) m → brackets m = 0%nat.
Proof.
  intros Hb. unfold brackets. induction 1 as [|c m Hc _ IH]; [reflexivity|].
  rewrite filter_cons. destruct (decide (c = bracket)) as [->|_]; [congruence|].
  exact IH.
Qed.

Lemma mjoin_cons {A} (x : list A) (xs : list (list A)) : mjoin (x :: xs) = x ++ mjoin xs.
Proof. reflexivity. Qed.

Lemma tokens_brackets r replacement ts :
  consumes r bracket = false →
  Forall (Forall (fun c => consumes r c = true)) (hits ts) →
  brackets (mjoin ((fun t => match t with Hit _ => replacement | Lit c => [c] end) <$> ts))
  = (brackets (mjoin (token_text <$> ts)) + length (hits ts) * brackets replacement)%nat.
Proof.
  intros Hb. induction ts as [|[c|m] ts IH]; intros Hh.
  - reflexivity.
  - rewrite !fmap_cons, !mjoin_cons, !brackets_app.
    change (hits (Lit c :: ts)) with (hits ts) in Hh |- *.
    rewrite (IH Hh). simpl token_text. lia.
  - rewrite !fmap_cons, !mjoin_cons, !brackets_app.
    change (hits (Hit m :: ts)) with (m :: hits ts) in Hh |- *.
    apply Forall_cons in Hh as [Hm Hh].
    rewrite (IH Hh). simpl token_text. rewrite (brackets_none r m Hb Hm).
    simpl length. lia.
Qed.

(** Replacing adds the brackets of the token once per match, and takes none
    away. *)
Lemma jsReplace_brackets r s replacement :
  consumes r bracket = false →
  brackets (jsReplace r s replacement)
  = (brackets s + length (hits (scan r None s O)) * brackets replacement)%nat.
Proof.
  intros Hb. unfold jsReplace.
  rewrite (tokens_brackets r replacement _ Hb (scan_hits r s None O)).
  rewrite scan_text. reflexivity.
Qed.

Lemma jsMatch_Some_hits r s found :
  jsMatch r s = Some found → (1 ≤ length (hits (scan r None s O)))%nat.
Proof.
  unfold jsMatch. destruct (hits (scan r None s O)); [discriminate|].
  intros _. simpl. lia.
Qed.

Lemma apply_pattern_tracked o text key a p :
  (1 ≤ brackets (replacement o))%nat →
  consumes p bracket = false →
  tracked text a → tracked text (apply_pattern o text key a p).
Proof.
  intros Ho Hp Ha. unfold apply_pattern.
  destruct (jsMatch p text) as [found|] eqn:Em; [|exact Ha].
  right. split; [reflexivity|]. simpl.
  rewrite (jsReplace_brackets p _ _ Hp).
  destruct Ha as [[_ ->]|[_ Hlt]].
  - pose proof (jsMatch_Some_hits p text found Em). nia.
  - lia.
Qed.

Lemma for_each_tracked o text prefix patterns a :
  (1 ≤ brackets (replacement o))%nat →
  Forall (fun p => consumes p bracket = false) patterns →
  tracked text a → tracked text (for_each o text prefix patterns a).
Proof.
  intros Ho Hps. unfold for_each.
  assert (Hall : Forall (fun ip => consumes (snd ip) bracket = false)
                   (imap pair patterns)).
  { apply Forall_forall. intros [i p] Hin.
    apply elem_of_lookup_imap in Hin as (j & q & [= -> ->] & Hq).
    simpl. rewrite Forall_forall in Hps. apply Hps.
    eapply list_elem_of_lookup_2. exact Hq. }
  revert a. induction Hall as [|[i p] l Hp _ IH]; intros a Ha; [exact Ha|].
  simpl. apply IH. apply apply_pattern_tracked; assumption.
Qed.

Lemma patterns_spare_bracket :
  Forall (fun p => consumes p bracket = false) all_patterns.
Proof. repeat constructor. Qed.

Lemma run_filter_tracked text : tracked text (run_filter default_options text).
Proof.
  assert (Ho : (1 ≤ brackets (replacement default_options))%nat)
    by (vm_compute; lia).
  pose proof patterns_spare_bracket as Hall. unfold all_patterns in Hall.
  rewrite !Forall_app in Hall.
  destruct Hall as (Hphone & Hmail & Hurl & Hsocial & Hcontact).
  apply List.Forall_inv in Hmail.
  unfold run_filter.
  apply for_each_tracked; [exact Ho | exact Hcontact|].
  apply for_each_tracked; [exact Ho | exact Hsocial|].
  apply for_each_tracked; [exact Ho | exact Hurl|].
  apply apply_pattern_tracked; [exact Ho | exact Hmail|].
  apply for_each_tracked; [exact Ho | exact Hphone|].
  left. split; reflexivity.
Qed.

(** The flag of the filter says exactly whether the text was altered. *)
Lemma filter_flags_iff_alters text :
  let result := filterPersonalInfo text default_options in
  (r_hasFiltered result = true ↔ r_filtered result ≠ text)
  ∧ (r_hasFiltered result = false ↔ r_filtered result = text).
Proof.
  unfold filterPersonalInfo. simpl.
  destruct (run_filter_tracked text) as [[Hf He]|[Hf Hlt]].
  - rewrite Hf, He. split; split; congruence.
  - rewrite Hf.
    assert (Hne : filtered (run_filter default_options text) ≠ text).
    { intros E. rewrite E in Hlt. lia. }
    split; split; congruence.
Qed.

(** The filter never empties a text: what it takes away it replaces by the
    token. *)
Lemma filter_keeps_nonempty text :
  text ≠ [] → r_filtered (filterPersonalInfo text default_options) ≠ [].
Proof.
  intros Hne. unfold filterPersonalInfo. simpl.
  destruct (run_filter_tracked text) as [[_ He]|[_ Hlt]].
  - rewrite He. exact Hne.
  - intros E. rewrite E in Hlt. change (brackets []) with 0%nat in Hlt. lia.
Qed.

End Counting.

(** Every stored message: the flag is set exactly when the stored content
    differs from the raw text. *)
Lemma sendMessage_flag_iff_altered s now token cid content type s' events mid m :
  MessageRoutes.sendMessage s now token cid content type
  = (s', events, Success 201 (mid, m)) →
  Message.isFiltered m = true ↔ Message.content m ≠ content.
Proof.
  intros H. destruct (sendMessage_stores _ _ _ _ _ _ _ _ _ _ H) as (_ & -> & -> & _).
  apply filter_flags_iff_alters.
Qed.

(** ** Shared facts about the middleware *)

(** [protect] either refuses and leaves the store as it is, or lets a
    signed-in caller through after stamping [lastSeen]. *)
Lemma protect_cases {A} s now token :
  (∃ why, Auth.protect (A := A) s now token = (s, inl (Fail 401 why)))
  ∨ (∃ uid u, token = Some uid ∧ signed_in s uid u
       ∧ Auth.protect (A := A) s now token
         = (save_user s uid (User.set_lastSeen u now),
            inr (uid, User.set_lastSeen u now))).
Proof.
  unfold Auth.protect. destruct token as [uid|]; [|left; eauto].
  destruct (users s !! uid) as [u|] eqn:Hu; [|left; eauto].
  destruct (User.isActive u) eqn:Ha; simpl; [|left; eauto].
  right. exists uid, u. repeat split; assumption.
Qed.

Lemma guard_cases {A} s now token :
  (∃ why, AdminRoutes.guard (A := A) s now token = (s, inl (Fail 401 why)))
  ∨ (∃ uid u, token = Some uid ∧ signed_in s uid u ∧ User.isAdmin u = false
       ∧ AdminRoutes.guard (A := A) s now token
         = (save_user s uid (User.set_lastSeen u now),
            inl (Fail 403 (Message_ "Access denied. Admin only."))))
  ∨ (∃ uid u, token = Some uid ∧ signed_in s uid u ∧ User.isAdmin u = true
       ∧ AdminRoutes.guard (A := A) s now token
         = (save_user s uid (User.set_lastSeen u now),
            inr (uid, User.set_lastSeen u now))).
Proof.
  unfold AdminRoutes.guard.
  destruct (protect_cases (A := A) s now token) as [[r ->]|(uid & u & -> & Hs & ->)];
    [left; eauto|].
  unfold Auth.adminOnly. simpl. destruct (User.isAdmin u) eqn:Ha; simpl.
  - right. right. exists uid, u. auto.
  - right. left. exists uid, u. eauto.
Qed.

Lemma member_elem_of x l : ListingWrites.member x l = true ↔ x ∈ l.
Proof.
  unfold ListingWrites.member. rewrite existsb_exists. split.
  - intros (y & Hy & E). apply String.eqb_eq in E. subst. by apply list_elem_of_In.
  - intros H. exists x. split; [by apply list_elem_of_In | apply String.eqb_refl].
Qed.

Lemma cleanup_lookup s now id :
  listings (ListingRoutes.cleanupDeletedListings s now) !! id
  = match listings s !! id with
    | Some l => if ListingRoutes.purgeable now l then None else Some l
    | None => None
    end.
Proof.
  unfold ListingRoutes.cleanupDeletedListings. simpl.
  destruct (listings s !! id) as [l|] eqn:Hl.
  - destruct (ListingRoutes.purgeable now l) eqn:Hp.
    + apply map_lookup_filter_None. right. intros l2 Hl2. simpl. congruence.
    + apply map_lookup_filter_Some. auto.
  - apply map_lookup_filter_None. left. exact Hl.
Qed.

(** ** What the handlers leave alone in the accounts *)

Lemma keep_refl {B} (f : User.t → B) s : accounts_keep f s s.
Proof. intros uid. reflexivity. Qed.

Lemma keep_trans {B} (f : User.t → B) s1 s2 s3 :
  accounts_keep f s1 s2 → accounts_keep f s2 s3 → accounts_keep f s1 s3.
Proof. intros H1 H2 uid. rewrite H2. apply H1. Qed.

Lemma keep_step_user {B} (f : User.t → B) s s1 uid u u' :
  accounts_keep f s s1 → users s1 !! uid = Some u → f u' = f u →
  accounts_keep f s (save_user s1 uid u').
Proof.
  intros Hk Hu Hf uid2. rewrite <- Hk. simpl.
  destruct (decide (uid = uid2)) as [<-|Hne].
  - rewrite lookup_insert_eq, Hu. simpl. by rewrite Hf.
  - by rewrite lookup_insert_ne.
Qed.

Lemma keep_other {B} (f : User.t → B) s s1 s2 :
  accounts_keep f s s1 → users s2 = users s1 → accounts_keep f s s2.
Proof. intros Hk E uid. rewrite E. apply Hk. Qed.

Lemma keep_lookup {B} (f : User.t → B) s s' uid u :
  accounts_keep f s s' → users s !! uid = Some u →
  ∃ u', users s' !! uid = Some u' ∧ f u' = f u.
Proof.
  intros Hk Hu. specialize (Hk uid). rewrite Hu in Hk. simpl in Hk.
  destruct (users s' !! uid) as [u'|]; [|discriminate].
  injection Hk as Hk. eauto.
Qed.

Section Keep.
Context {B : Type} (f : User.t → B).
Hypothesis Hseen : ∀ u d, f (User.set_lastSeen u d) = f u.
Hypothesis Hnote : ∀ u n, f (User.set_notifications u n) = f u.
Hypothesis Hfav : ∀ u l, f (User.set_favorites u l) = f u.
Hypothesis Hsale : ∀ u n, f (with_salesCount u n) = f u.
Hypothesis Hver : ∀ u v, f (User.set_verification u v) = f u.
Hypothesis Hadmin : ∀ u b, f (with_isAdmin u b) = f u.
Hypothesis Hactive : ∀ u b, f (with_isActive u b) = f u.

Lemma keep_protect {A} s now token :
  accounts_keep f s (Auth.protect (A := A) s now token).1.
Proof.
  destruct (protect_cases (A := A) s now token)
    as [[why ->]|(uid & u & -> & [Hu _] & ->)]; [apply keep_refl|].
  simpl. eapply keep_step_user; [apply keep_refl | exact Hu | apply Hseen].
Qed.

Lemma keep_guard {A} s now token :
  accounts_keep f s (AdminRoutes.guard (A := A) s now token).1.
Proof.
  unfold AdminRoutes.guard.
  pose proof (keep_protect (A := A) s now token) as Hp.
  destruct (Auth.protect s now token) as [s0 [r|[uid u]]]; [exact Hp|].
  destruct (Auth.adminOnly u); exact Hp.
Qed.

End Keep.

(** Chains of saves that leave [f] alone; the equations of [f] are looked up
    among the hypotheses. *)
Ltac keep_field :=
  repeat match goal with
         | H : ∀ u x, ?f _ = ?f u |- _ => rewrite H
         end;
  reflexivity.

Ltac keep :=
  first
    [ eassumption
    | apply keep_refl
    | eapply keep_step_user; [keep | eassumption | keep_field]
    | eapply keep_other; [keep | reflexivity] ].

(** Opens a handler behind [protect], keeping what [protect] says of the
    caller. *)
Ltac open_protect f s now token A :=
  let Hp := fresh "Hp" in
  let Ep := fresh "Ep" in
  pose proof (keep_protect f ltac:(assumption) (A := A) s now token) as Hp;
  destruct (Auth.protect (A := A) s now token) as [? [?|[? ?]]] eqn:Ep;
  simpl in Hp; [exact Hp|];
  apply protect_inr in Ep;
  repeat case_match; simplify_eq; simpl fst; try exact Hp.

Ltac open_guard f s now token A :=
  let Hp := fresh "Hp" in
  pose proof (keep_guard f ltac:(assumption) (A := A) s now token) as Hp;
  destruct (AdminRoutes.guard (A := A) s now token) as [? [?|[? ?]]];
  simpl in Hp; [exact Hp|];
  repeat case_match; simplify_eq; simpl fst; try exact Hp.

Section KeepRoutes.
Context {B : Type} (f : User.t → B).
Hypothesis Hseen : ∀ u d, f (User.set_lastSeen u d) = f u.
Hypothesis Hnote : ∀ u n, f (User.set_notifications u n) = f u.
Hypothesis Hfav : ∀ u l, f (User.set_favorites u l) = f u.
Hypothesis Hsale : ∀ u n, f (with_salesCount u n) = f u.
Hypothesis Hver : ∀ u v, f (User.set_verification u v) = f u.
Hypothesis Hadmin : ∀ u b, f (with_isAdmin u b) = f u.
Hypothesis Hactive : ∀ u b, f (with_isActive u b) = f u.

Lemma keep_submit s now token documentType files :
  accounts_keep f s (VerificationRoutes.submit s now token documentType files).1.
Proof.
  unfold VerificationRoutes.submit.
  open_protect f s now token Verification.t; keep.
Qed.

Lemma keep_review mail s now token userId action reason :
  accounts_keep f s (AdminRoutes.review mail s now token userId action reason).1.1.
Proof.
  unfold AdminRoutes.review.
  open_guard f s now token Verification.t; keep.
Qed.

Lemma keep_moderate mail s now token id action note :
  accounts_keep f s (AdminRoutes.moderate mail s now token id action note).1.1.
Proof.
  unfold AdminRoutes.moderate.
  open_guard f s now token Listing.t; keep.
Qed.

Lemma keep_getListing s now token id :
  accounts_keep f s (ListingRoutes.getListing s now token id).1.
Proof.
  unfold ListingRoutes.getListing.
  repeat case_match; simplify_eq; simpl fst; keep.
Qed.

Lemma keep_createListing s now token body files :
  accounts_keep f s (ListingWrites.createListing s now token body files).1.
Proof.
  unfold ListingWrites.createListing.
  open_protect f s now token (Id * Listing.t)%type; keep.
Qed.

Lemma keep_favorite s now token id :
  accounts_keep f s (ListingWrites.favorite s now token id).1.
Proof.
  unfold ListingWrites.favorite.
  open_protect f s now token (bool * Z)%type; keep.
Qed.

Lemma keep_report s now token id reason :
  accounts_keep f s (ListingWrites.report s now token id reason).1.
Proof.
  unfold ListingWrites.report.
  open_protect f s now token unit; keep.
Qed.

Lemma keep_softDelete s now token id reason :
  accounts_keep f s (ListingWrites.softDelete s now token id reason).1.
Proof.
  unfold ListingWrites.softDelete.
  open_protect f s now token Listing.t; keep.
Qed.

Lemma keep_sendMessage s now token cid content type :
  accounts_keep f s (MessageRoutes.sendMessage s now token cid content type).1.1.
Proof.
  unfold MessageRoutes.sendMessage.
  open_protect f s now token (Id * Message.t)%type; keep.
Qed.

Lemma keep_getConversations s now token :
  accounts_keep f s (MessageRoutes.getConversations s now token).1.
Proof.
  unfold MessageRoutes.getConversations.
  open_protect f s now token (gmap Id (Conversation.t * Z)).
Qed.

Lemma keep_getConversation s now token id :
  accounts_keep f s (MessageRoutes.getConversation s now token id).1.
Proof.
  unfold MessageRoutes.getConversation.
  open_protect f s now token (Conversation.t * gmap Id Message.t)%type; keep.
Qed.

Lemma keep_getOriginal s now token id :
  accounts_keep f s (MessageRoutes.getOriginal s now token id).1.
Proof.
  unfold MessageRoutes.getOriginal.
  open_protect f s now token MessageRoutes.original.
Qed.

Lemma keep_serve s now r : accounts_keep f s (serve s now r).
Proof.
  destruct r; simpl.
  - apply keep_submit.
  - apply keep_moderate.
  - apply keep_review.
  - apply keep_getListing.
  - apply keep_createListing.
  - apply keep_favorite.
  - apply keep_report.
  - apply keep_softDelete.
  - apply keep_sendMessage.
  - apply keep_getConversations.
  - apply keep_getConversation.
  - apply keep_getOriginal.
  - intros uid. reflexivity.
Qed.

Lemma keep_markSold s now token id :
  accounts_keep f s (ListingOwner.markSold s now token id).1.
Proof.
  unfold ListingOwner.markSold.
  open_protect f s now token unit; keep.
Qed.

Lemma keep_toggleRole s now token id :
  accounts_keep f s (AdminUsers.toggleRole s now token id).1.
Proof.
  unfold AdminUsers.toggleRole.
  open_guard f s now token (string * AdminUsers.summary)%type; keep.
Qed.

Lemma keep_toggleStatus s now token id :
  accounts_keep f s (AdminUsers.toggleStatus s now token id).1.
Proof.
  unfold AdminUsers.toggleStatus.
  open_guard f s now token (string * AdminUsers.summary)%type; keep.
Qed.

Lemma keep_toggleStatusUsers s now token id :
  accounts_keep f s (AdminUsers.toggleStatusUsers s now token id).1.
Proof.
  unfold AdminUsers.toggleStatusUsers.
  open_guard f s now token (Id * string * string * bool)%type; keep.
Qed.

Lemma keep_deleteListing s now token id :
  accounts_keep f s (AdminUsers.deleteListing s now token id).1.
Proof.
  unfold AdminUsers.deleteListing.
  open_guard f s now token unit; keep.
Qed.

Lemma keep_startConversation s now token listingId sellerId :
  accounts_keep f s
    (ConversationRoutes.startConversation s now token listingId sellerId).1.
Proof.
  unfold ConversationRoutes.startConversation.
  open_protect f s now token ConversationRoutes.started; keep.
Qed.

Lemma keep_archiveConversation s now token id :
  accounts_keep f s (ConversationRoutes.archiveConversation s now token id).1.
Proof.
  unfold ConversationRoutes.archiveConversation.
  open_protect f s now token unit; keep.
Qed.

Lemma keep_unreadCount s now token :
  accounts_keep f s (ConversationRoutes.unreadCount s now token).1.
Proof.
  unfold ConversationRoutes.unreadCount.
  open_protect f s now token Z.
Qed.

Lemma keep_getNotifications s now token :
  accounts_keep f s (NotificationRoutes.getNotifications s now token).1.
Proof.
  unfold NotificationRoutes.getNotifications.
  open_protect f s now token (list Notification.t * nat)%type.
Qed.

Lemma keep_markAllRead s now token :
  accounts_keep f s (NotificationRoutes.markAllRead s now token).1.
Proof.
  unfold NotificationRoutes.markAllRead.
  open_protect f s now token unit; keep.
Qed.

End KeepRoutes.

(** ** The admin routes past the guard *)

(** The listing that a moderation stores. *)
Lemma moderate_listing mail s now a adm lid l action note :
  signed_in_admin s a adm →
  AdminRoutes.valid_action action = true →
  listings s !! lid = Some l →
  let l1 :=
    Listing.set_moderation l
      (if equals action "approve" then Listing.mod_approved else Listing.mod_rejected)
      (Some (or_else note "")) in
  let l2 := if equals action "reject" then Listing.set_status l1 Listing.removed else l1 in
  let out := AdminRoutes.moderate mail s now (Some a) lid action note in
  out.2 = Success 200 l2 ∧ listings out.1.1 = <[lid := l2]> (listings s).
Proof.
  intros Hadm Hact Hl l1 l2 out. subst out. unfold AdminRoutes.moderate.
  rewrite (guard_signed_in_admin s now a adm Hadm).
  rewrite Hact. simpl negb. cbv iota.
  autorewrite with store. rewrite Hl. fold l1. fold l2.
  destruct (users _ !! Listing.seller l2); [destruct (mail _)|]; split; reflexivity.
Qed.

(** After any handler that keeps the flags, an admin is still one. *)
Lemma admin_stays s s' a adm :
  accounts_keep flags s s' → signed_in_admin s a adm →
  ∃ adm', signed_in_admin s' a adm'.
Proof.
  intros Hk [[Hu Hact] Hadm].
  destruct (keep_lookup flags s s' a adm Hk Hu) as (adm' & Hu' & Hf).
  exists adm'. unfold flags in Hf. injection Hf as Ha Hb.
  repeat split; congruence.
Qed.


Lemma flags_stable :
  (∀ u d, flags (User.set_lastSeen u d) = flags u)
  ∧ (∀ u n, flags (User.set_notifications u n) = flags u)
  ∧ (∀ u l, flags (User.set_favorites u l) = flags u)
  ∧ (∀ u n, flags (with_salesCount u n) = flags u)
  ∧ (∀ u v, flags (User.set_verification u v) = flags u).
Proof. repeat split. Qed.


(** A stored listing that the query object does not match is returned by no
    list query. *)
Lemma unlisted_intro s now id l0 :
  listings s !! id = Some l0 → ListingRoutes.queryObj now l0 = false →
  unlisted s now id.
Proof.
  intros Hl Hq.
  assert (Hno : ∀ l, listings s !! id = Some l → ListingRoutes.queryObj now l = true → False).
  { intros l Hl'. rewrite Hl in Hl'. injection Hl' as <-. congruence. }
  split; [|split; [|split]].
  - intros limit l Hin. unfold ListingRoutes.getRecent in Hin.
    apply page_elem, find_lookup in Hin as [Hl' Hq']. eauto.
  - intros l Hin. unfold ListingRoutes.getFeatured in Hin.
    apply page_elem, find_lookup in Hin as [Hl' Hq'].
    apply andb_true_iff in Hq' as [Hq' _]. eauto.
  - intros extra sort page limit body Hget l Hin.
    unfold ListingRoutes.getListings in Hget.
    destruct (_ && _); [discriminate|]. injection Hget as <-. simpl in Hin.
    apply page_elem, find_lookup in Hin as [Hl' Hq'].
    apply andb_true_iff in Hq' as [Hq' _]. eauto.
  - intros other found Hget l Hin. unfold ListingRoutes.getSimilar in Hget.
    destruct (listings s !! other); [|discriminate]. injection Hget as <-.
    apply (page_elem ListingRoutes.recent 0 4) in Hin.
    apply map_lookup_filter_Some in Hin as (Hl' & _ & _ & Hq'). simpl in Hq'. eauto.
Qed.

(** * Further properties of the code *)

(** ** The content filter *)

Section FilterFlag.
Import Regex ContentFilter.

Lemma apply_pattern_flag o text key a p :
  hasFiltered (apply_pattern o text key a p) = hasFiltered a || jsTest p text.
Proof.
  unfold apply_pattern, jsTest.
  destruct (jsMatch p text) as [found|]; simpl.
  - rewrite orb_true_r. reflexivity.
  - rewrite orb_false_r. reflexivity.
Qed.

Lemma for_each_flag o text prefix patterns a :
  hasFiltered (for_each o text prefix patterns a)
  = hasFiltered a || existsb (fun p => jsTest p text) patterns.
Proof.
  unfold for_each.
  assert (G : ∀ (h : nat → re → nat * re) b,
    (∀ i p, snd (h i p) = p) →
    hasFiltered
      (foldl (fun a ip => apply_pattern o text (prefix +:+ pretty (fst ip)) a (snd ip))
         b (imap h patterns))
    = hasFiltered b || existsb (fun p => jsTest p text) patterns).
  { induction patterns as [|p ps IH]; intros h b Hh; simpl.
    - rewrite orb_false_r. reflexivity.
    - rewrite IH by (intros i q; apply Hh).
      rewrite apply_pattern_flag, Hh, orb_assoc. reflexivity. }
  apply G. reflexivity.
Qed.

Lemma run_filter_flag o text :
  hasFiltered (run_filter o text) = existsb (fun p => jsTest p text) all_patterns.
Proof.
  unfold run_filter, all_patterns.
  rewrite !for_each_flag, apply_pattern_flag, for_each_flag. simpl hasFiltered.
  rewrite !existsb_app.
  change (existsb (fun p => jsTest p text) [emails]) with (jsTest emails text || false).
  rewrite orb_false_r, orb_false_l, <- !orb_assoc. reflexivity.
Qed.

End FilterFlag.

Section FilterStatistics.
Import Regex ContentFilter FilterStats.

Lemma jsMatch_nonempty p text found : jsMatch p text = Some found → found ≠ [].
Proof.
  unfold jsMatch. destruct (hits (scan p None text O)); [discriminate|].
  intros [= <-]. discriminate.
Qed.

Lemma apply_pattern_recorded o text key a p :
  returnMatches o = true → recorded a → recorded (apply_pattern o text key a p).
Proof.
  intros Ho [Hflag Hall]. unfold apply_pattern.
  destruct (jsMatch p text) as [found|] eqn:E; [|split; assumption].
  rewrite Ho. split; simpl.
  - split; [|reflexivity]. intros _. destruct (matches a); discriminate.
  - apply Forall_app. split; [exact Hall|].
    apply Forall_singleton. simpl. eapply jsMatch_nonempty. exact E.
Qed.

Lemma apply_pattern_keys o text key a p :
  ∃ ks, ks `sublist_of` [key]
        ∧ fst <$> matches (apply_pattern o text key a p) = (fst <$> matches a) ++ ks.
Proof.
  unfold apply_pattern.
  destruct (jsMatch p text) as [found|]; [destruct (returnMatches o)|]; simpl.
  - exists [key]. split; [reflexivity|]. rewrite fmap_app. reflexivity.
  - exists []. split; [apply sublist_nil_l|]. rewrite app_nil_r. reflexivity.
  - exists []. split; [apply sublist_nil_l|]. rewrite app_nil_r. reflexivity.
Qed.

Lemma for_each_recorded o text prefix patterns a :
  returnMatches o = true → recorded a → recorded (for_each o text prefix patterns a).
Proof.
  intros Ho. unfold for_each. generalize (imap pair patterns) as l.
  intros l. revert a. induction l as [|ip l IH]; intros a Ha; [exact Ha|].
  simpl. apply IH. apply apply_pattern_recorded; assumption.
Qed.

Lemma for_each_keys o text prefix patterns a :
  ∃ ks, ks `sublist_of` ((fun ip => prefix +:+ pretty (fst ip)) <$> imap pair patterns)
        ∧ fst <$> matches (for_each o text prefix patterns a)
          = (fst <$> matches a) ++ ks.
Proof.
  unfold for_each. generalize (imap pair patterns) as l.
  intros l. revert a. induction l as [|ip l IH]; intros a.
  - exists []. split; [reflexivity|]. simpl. rewrite app_nil_r. reflexivity.
  - simpl foldl.
    destruct (apply_pattern_keys o text (prefix +:+ pretty (fst ip)) a (snd ip))
      as (k1 & Hk1 & E1).
    destruct (IH (apply_pattern o text (prefix +:+ pretty (fst ip)) a (snd ip)))
      as (k2 & Hk2 & E2).
    exists (k1 ++ k2). split.
    + rewrite fmap_cons. change (?x :: ?l) with ([x] ++ l).
      apply sublist_app; assumption.
    + rewrite E2, E1, app_assoc. reflexivity.
Qed.

Lemma count_from n (ms : list (string * list jsstring)) :
  Forall (fun kv => snd kv ≠ []) ms →
  (n + length ms ≤ foldl (fun sum arr => (sum + length (snd arr))%nat) n ms)%nat.
Proof.
  intros H. revert n. induction H as [|[k arr] ms Harr _ IH]; intros n; simpl.
  - lia.
  - specialize (IH (n + length arr)%nat). simpl in Harr.
    destruct arr; [congruence|]. simpl in *. lia.
Qed.

End FilterStatistics.

Section FilterFacts.
Import Regex ContentFilter FilterStats.

(** X1.  The filter returns the text as it came exactly when no pattern of
    [PATTERNS] finds a match in it: whenever some pattern matches, the
    filtered text differs from the input. *)
Theorem filter_unchanged_iff_no_pattern_matches (text : jsstring) :
  r_filtered (filterPersonalInfo text default_options) = text
  ↔ ∀ p, p ∈ all_patterns → jsMatch p text = None.
Proof.
  destruct (filter_flags_iff_alters text) as [_ H]. simpl in H. rewrite <- H.
  unfold filterPersonalInfo. simpl. rewrite run_filter_flag.
  rewrite <- not_true_iff_false, existsb_exists. split.
  - intros Hno p Hp. destruct (jsMatch p text) as [found|] eqn:E; [|reflexivity].
    exfalso. apply Hno. exists p. split; [by apply list_elem_of_In|].
    unfold jsTest. rewrite E. apply bool_decide_eq_true. eauto.
  - intros Hall (p & Hp & Ht). apply list_elem_of_In in Hp.
    unfold jsTest in Ht. rewrite (Hall p Hp) in Ht.
    apply bool_decide_eq_true in Ht. destruct Ht as [? ?]. discriminate.
Qed.

(** X2.  [containsPersonalInfo] and [getFilterStats] agree with the flag of
    the filter whatever the options: the answer is yes exactly when some
    pattern matches the text, the count is positive exactly then, every
    reported type holds at least one match, and the types are among the
    eleven keys, in the order of the walk and without repetition. *)
Theorem getFilterStats_agrees_with_filter (text : jsstring) (o : options) :
  let st := getFilterStats text in
  hasPersonalInfo st = containsPersonalInfo text
  ∧ containsPersonalInfo text = r_hasFiltered (filterPersonalInfo text o)
  ∧ (containsPersonalInfo text = true
     ↔ ∃ p, p ∈ all_patterns ∧ is_Some (jsMatch p text))
  ∧ (hasPersonalInfo st = true ↔ (0 < count st)%nat)
  ∧ (hasPersonalInfo st = true ↔ types st ≠ [])
  ∧ (length (types st) ≤ count st)%nat
  ∧ types st `sublist_of` match_keys.
Proof.
  set (o1 := {| replacement := utf16 "[HIDDEN]"; preserveLength := false;
                returnMatches := true |}).
  assert (Hrec : recorded (run_filter o1 text)).
  { unfold run_filter.
    repeat first [ apply for_each_recorded; [reflexivity|]
                 | apply apply_pattern_recorded; [reflexivity|] ].
    split; simpl; [split; [discriminate | congruence] | constructor]. }
  assert (Hkeys : fst <$> matches (run_filter o1 text) `sublist_of` match_keys).
  { unfold run_filter.
    destruct (for_each_keys o1 text "phone_" phoneNumbers
                {| filtered := text; hasFiltered := false; matches := [] |})
      as (k1 & S1 & E1).
    set (a1 := for_each o1 text "phone_" phoneNumbers _) in *.
    destruct (apply_pattern_keys o1 text "emails" a1 emails) as (k2 & S2 & E2).
    set (a2 := apply_pattern o1 text "emails" a1 emails) in *.
    destruct (for_each_keys o1 text "url_" urls a2) as (k3 & S3 & E3).
    set (a3 := for_each o1 text "url_" urls a2) in *.
    destruct (for_each_keys o1 text "social_" socialMedia a3) as (k4 & S4 & E4).
    set (a4 := for_each o1 text "social_" socialMedia a3) in *.
    destruct (for_each_keys o1 text "contact_" contactPrompts a4) as (k5 & S5 & E5).
    rewrite E5, E4, E3, E2, E1. simpl fmap at 1. rewrite app_nil_l.
    change match_keys with
      ((((((fun ip => "phone_" +:+ pretty (fst ip)) <$> imap pair phoneNumbers)
           ++ ["emails"%string])
          ++ ((fun ip => "url_" +:+ pretty (fst ip)) <$> imap pair urls))
         ++ ((fun ip => "social_" +:+ pretty (fst ip)) <$> imap pair socialMedia))
        ++ ((fun ip => "contact_" +:+ pretty (fst ip)) <$> imap pair contactPrompts)).
    repeat apply sublist_app; assumption. }
  destruct Hrec as [Hflag Hall].
  unfold getFilterStats, containsPersonalInfo, filterPersonalInfo. simpl.
  fold o1. rewrite !run_filter_flag.
  split; [reflexivity|]. split; [reflexivity|].
  rewrite run_filter_flag in Hflag.
  pose proof (count_from 0 _ Hall) as Hcount.
  split; [|split; [|split; [|split]]].
  - rewrite existsb_exists. split.
    + intros (p & Hp & Ht). exists p. split; [by apply list_elem_of_In|].
      unfold jsTest in Ht. by apply bool_decide_eq_true in Ht.
    + intros (p & Hp & Ht). exists p. split; [by apply list_elem_of_In|].
      unfold jsTest. by apply bool_decide_eq_true.
  - rewrite Hflag. split.
    + intros Hne. destruct (matches (run_filter o1 text)); [congruence|].
      simpl length in Hcount. lia.
    + intros Hpos Hnil. rewrite Hnil in Hpos. simpl in Hpos. lia.
  - rewrite Hflag. split.
    + intros Hne Hnil. apply fmap_nil_inv in Hnil. congruence.
    + intros Hne Hnil. rewrite Hnil in Hne. apply Hne. reflexivity.
  - rewrite length_fmap. lia.
  - exact Hkeys.
Qed.

End FilterFacts.

(** ** The life of a listing *)

Section ListingLife.
Import Listing ListingRoutes.

(** X3.  What follows a successful soft delete at time [t]: the caller is the
    seller and the reason is one of the schema's; the listing is kept,
    marked deleted at [t] and shown as sold.  From then on anyone fetches it
    by id until [t] plus two days inclusive and gets 404 afterwards; the
    recent listings hold it only if it is approved and strictly less than
    two days have passed, and they do hold it then unless the limit cuts
    the matching listings; when it is not approved or two days have passed
    no list query returns it; the sweeper removes it from two days on. *)
Theorem soft_delete_lifecycle s t token id reason s' l' :
  ListingWrites.softDelete s t token id reason = (s', Success 200 l') →
  (∃ uid l, token = Some uid ∧ listings s !! id = Some l ∧ seller l = uid
            ∧ reason ∈ ListingWrites.deleteReasons
            ∧ l' = set_status (set_deleted l t reason) sold)
  ∧ listings s' !! id = Some l'
  ∧ (∀ now viewer,
       (now - t ≤ twoDaysInMs →
          getListing s' now viewer id
          = (s', Success 200
                   {| shown := l';
                      deleteInfo_ :=
                        Some {| info_isDeleted := true;
                                info_reason := Some reason;
                                info_deletedAt := t |};
                      isFavorited := false |}))
       ∧ (twoDaysInMs < now - t →
          getListing s' now viewer id
          = (s', Fail 404 (Message_ "Listing no longer available"))))
  ∧ (∀ now limit,
       (∀ x, (id, x) ∈ getRecent s' now limit →
          x = l' ∧ moderationStatus l' = mod_approved ∧ now - t < twoDaysInMs)
       ∧ (moderationStatus l' = mod_approved → now - t < twoDaysInMs →
          limit = O ∨ (size (find (queryObj now) s') ≤ limit)%nat →
          (id, l') ∈ getRecent s' now limit)
       ∧ (moderationStatus l' ≠ mod_approved ∨ twoDaysInMs ≤ now - t →
          unlisted s' now id))
  ∧ (∀ now,
       listings (cleanupDeletedListings s' now) !! id
       = if bool_decide (twoDaysInMs ≤ now - t) then None else Some l').
Proof.
  unfold ListingWrites.softDelete.
  destruct (protect_cases (A := Listing.t) s t token)
    as [[r ->]|(uid & u & -> & Hs & ->)]; [discriminate|].
  destruct (negb (ListingWrites.nonEmpty reason)); [discriminate|].
  rewrite listings_save_user.
  destruct (listings s !! id) as [l|] eqn:Hl; [|discriminate].
  destruct (bool_decide (seller l = uid)) eqn:Hseller; cbn [negb]; [|discriminate].
  apply bool_decide_eq_true in Hseller.
  destruct (ListingWrites.member reason ListingWrites.deleteReasons) eqn:Hr;
    cbn [negb]; [|discriminate].
  intros [= <- <-].
  set (l' := set_status (set_deleted l t reason) sold).
  set (s' := save_listing _ id l').
  assert (Hl' : listings s' !! id = Some l') by apply listings_save_listing_eq.
  split; [|split; [exact Hl'|split; [|split]]].
  - exists uid, l. repeat split; try assumption. by apply member_elem_of.
  - intros now viewer.
    rewrite (getListing_deleted s' now viewer id l' t Hl' eq_refl eq_refl).
    split.
    + intros Hin. destruct (Z.ltb_spec twoDaysInMs (now - t)); [lia|].
      destruct l; reflexivity.
    + intros Hlate. apply Z.ltb_lt in Hlate. rewrite Hlate. reflexivity.
  - intros now limit.
    assert (Hq : queryObj now l' = true
                 ↔ moderationStatus l' = mod_approved ∧ now - t < twoDaysInMs).
    { rewrite queryObj_spec. split.
      - intros (Hm & [[Hst _]|(_ & d & Hd & Hw)]);
          [exfalso; clear -Hst; subst l'; discriminate|].
        injection Hd as <-. auto.
      - intros [Hm Hw]. split; [exact Hm|].
        right. split; [reflexivity|]. exists t. auto. }
    split; [|split].
    + intros x Hx. unfold getRecent in Hx.
      apply page_elem, find_lookup in Hx as [Hx Hqx].
      rewrite Hl' in Hx. injection Hx as <-. split; [reflexivity|].
      apply Hq. exact Hqx.
    + intros Hm Hw Hcut. unfold getRecent.
      apply (page_whole _ _ _ _ _ Hcut). apply find_lookup.
      split; [exact Hl'|]. apply Hq. auto.
    + intros Hout. apply (unlisted_intro s' now id l' Hl').
      apply not_true_iff_false. rewrite Hq. intros [Hm Hw].
      destruct Hout as [Hno|Hlate]; [contradiction|lia].
  - intros now. rewrite cleanup_lookup, Hl'. unfold purgeable. subst l'. simpl.
    destruct (bool_decide_reflect (twoDaysInMs ≤ now - t)) as [Hold|Hyoung];
      destruct (Z.leb_spec t (now - twoDaysInMs)); (reflexivity || lia).
Qed.

Lemma soft_delete_lifecycle_witness :
  ∃ s' l',
    ListingWrites.softDelete Sample.store 1000 (Some Sample.sara) Sample.live "Item Sold"
    = (s', Success 200 l')
    ∧ listings (cleanupDeletedListings s' (1000 + twoDaysInMs)) !! Sample.live = None.
Proof.
  eexists _, _. split; [reflexivity|].
  match goal with
  | |- listings (cleanupDeletedListings ?s' _) !! _ = _ =>
      pose proof (soft_delete_lifecycle Sample.store 1000 (Some Sample.sara)
                    Sample.live "Item Sold" s' _ eq_refl) as (_ & _ & _ & _ & H)
  end.
  rewrite H. reflexivity.
Defined.

End ListingLife.

Section Sweeper.
Import Listing ListingRoutes.

Lemma purgeable_later now later l :
  now ≤ later → purgeable now l = true → purgeable later l = true.
Proof.
  unfold purgeable. intros Hle. destruct (isDeleted l); [|discriminate]. simpl.
  destruct (deletedAt l) as [d|]; [|discriminate].
  intros H%Z.leb_le. apply Z.leb_le. lia.
Qed.

Lemma purgeable_unlisted now later l :
  now ≤ later → purgeable now l = true → queryObj later l = false.
Proof.
  intros Hle Hp. apply not_true_iff_false. rewrite queryObj_spec.
  unfold purgeable in Hp. apply andb_true_iff in Hp as [Hd Hw].
  destruct (deletedAt l) as [d|] eqn:Ed; [|discriminate].
  apply Z.leb_le in Hw.
  intros (_ & [[_ Hnd]|(_ & d' & Hd' & Hlt)]); [congruence|].
  injection Hd' as <-. unfold twoDaysInMs in *. lia.
Qed.

(** X4.  The sweeper never takes away anything a list query would return,
    at the time of the sweep or later; it keeps every listing that is not
    soft-deleted as it is, touches no other collection, and a sweep after a
    sweep is the later sweep alone. *)
Theorem sweep_is_invisible_to_list_queries (s : Store) (now later : Date) :
  now ≤ later →
  let swept := cleanupDeletedListings s now in
  (∀ extra sort page limit,
     getListings swept later extra sort page limit
     = getListings s later extra sort page limit)
  ∧ getFeatured swept later = getFeatured s later
  ∧ (∀ limit, getRecent swept later limit = getRecent s later limit)
  ∧ (∀ id, getSimilar swept later id = getSimilar s later id
           ∨ (getSimilar swept later id = Fail 404 (Message_ "Listing not found")
              ∧ ∃ l, listings s !! id = Some l ∧ purgeable now l = true))
  ∧ (∀ id l, listings s !! id = Some l → isDeleted l = false →
             listings swept !! id = Some l)
  ∧ cleanupDeletedListings swept later = cleanupDeletedListings s later
  ∧ users swept = users s ∧ conversations swept = conversations s
  ∧ messages swept = messages s.
Proof.
  intros Hle swept.
  assert (Hfind : ∀ q, (∀ l, q l = true → queryObj later l = true) →
            find q swept = find q s).
  { intros q Hq. unfold find, swept, cleanupDeletedListings. simpl.
    rewrite map_filter_filter. apply map_filter_ext. intros id l Hl. simpl.
    split; [tauto|]. intros Hql. split; [exact Hql|].
    destruct (purgeable now l) eqn:Hp; [|reflexivity].
    specialize (Hq l Hql).
    rewrite (purgeable_unlisted now later l Hle Hp) in Hq. discriminate. }
  split; [|split; [|split; [|split; [|split; [|split]]]]].
  - intros extra sort page limit. unfold getListings.
    rewrite (Hfind (fun l => queryObj later l && extra l)); [reflexivity|].
    intros l H%andb_true_iff. tauto.
  - unfold getFeatured. rewrite Hfind; [reflexivity|].
    intros l H%andb_true_iff. tauto.
  - intros limit. unfold getRecent. rewrite Hfind; [reflexivity|]. auto.
  - intros id. unfold getSimilar. subst swept. rewrite cleanup_lookup.
    destruct (listings s !! id) as [l|] eqn:Hl; [|left; reflexivity].
    destruct (purgeable now l) eqn:Hp; [right; eauto|].
    left. do 2 f_equal. unfold cleanupDeletedListings. simpl.
    rewrite map_filter_filter. apply map_filter_ext. intros id2 l2 Hl2. simpl.
    split; [tauto|]. intros (Hne & Hcat & Hq). repeat split; try assumption.
    destruct (purgeable now l2) eqn:Hp2; [|reflexivity].
    rewrite (purgeable_unlisted now later l2 Hle Hp2) in Hq. discriminate.
  - intros id l Hl Hd. subst swept. rewrite cleanup_lookup, Hl.
    unfold purgeable. rewrite Hd. reflexivity.
  - unfold swept, cleanupDeletedListings, set_listings. simpl. f_equal.
    rewrite map_filter_filter. apply map_filter_ext. intros id l Hl. simpl.
    split; [tauto|]. intros Hp. split; [exact Hp|].
    destruct (purgeable now l) eqn:Hp1; [|reflexivity].
    rewrite (purgeable_later now later l Hle Hp1) in Hp. discriminate.
  - repeat split.
Qed.

Lemma sweep_is_invisible_to_list_queries_witness :
  getRecent (cleanupDeletedListings Sample.store (5 + twoDaysInMs)) (5 + twoDaysInMs) 8
  = getRecent Sample.store (5 + twoDaysInMs) 8.
Proof.
  apply (sweep_is_invisible_to_list_queries Sample.store (5 + twoDaysInMs)
           (5 + twoDaysInMs)).
  reflexivity.
Defined.

End Sweeper.

Section Moderation.
Import Listing ListingRoutes.

(** X5.  A listing that an admin rejects and then approves ends up approved
    but with status removed: the rejection sets the status, the approval
    does not set it back.  Unless it is soft-deleted, such a listing is
    returned by no list query (all, featured, recent, similar), although it
    is served by id to anyone. *)
Theorem reject_then_approve_stays_unlisted mail1 mail2 s t1 t2 a adm lid l note1 note2 :
  signed_in_admin s a adm →
  listings s !! lid = Some l →
  isDeleted l = false →
  let s1 := (AdminRoutes.moderate mail1 s t1 (Some a) lid (Some "reject"%string) note1).1.1 in
  let out := AdminRoutes.moderate mail2 s1 t2 (Some a) lid (Some "approve"%string) note2 in
  ∃ l2,
    out.2 = Success 200 l2
    ∧ listings out.1.1 !! lid = Some l2
    ∧ moderationStatus l2 = mod_approved
    ∧ status l2 = removed
    ∧ (∀ now, unlisted out.1.1 now lid)
    ∧ (∀ now, ∃ v, (getListing out.1.1 now None lid).2 = Success 200 v
                   ∧ status (shown v) = removed).
Proof.
  intros Hadm Hl Hdel s1 out.
  destruct (moderate_listing mail1 s t1 a adm lid l (Some "reject"%string) note1
              Hadm eq_refl Hl) as [_ Hs1].
  fold s1 in Hs1. simpl in Hs1.
  assert (Hk : accounts_keep flags s s1).
  { apply keep_moderate; apply flags_stable. }
  destruct (admin_stays s s1 a adm Hk Hadm) as (adm1 & Hadm1).
  set (l1 := set_status (set_moderation l mod_rejected (Some (or_else note1 ""))) removed)
    in *.
  assert (Hl1 : listings s1 !! lid = Some l1).
  { rewrite Hs1. apply lookup_insert_eq. }
  destruct (moderate_listing mail2 s1 t2 a adm1 lid l1 (Some "approve"%string) note2
              Hadm1 eq_refl Hl1) as [Hr Hs2].
  fold out in Hr, Hs2. simpl in Hr, Hs2.
  eexists. split; [exact Hr|].
  assert (Hl2 : listings out.1.1 !! lid
                = Some (set_moderation l1 mod_approved (Some (or_else note2 "")))).
  { rewrite Hs2. apply lookup_insert_eq. }
  split; [exact Hl2|]. split; [reflexivity|]. split; [reflexivity|]. split.
  - intros now. apply (unlisted_intro _ now lid _ Hl2).
    apply not_true_iff_false. intros Hq. apply queryObj_spec in Hq.
    destruct Hq as (_ & [[Hst _]|[Hd _]]).
    + discriminate.
    + simpl in Hd. congruence.
  - intros now. unfold getListing. rewrite Hl2. simpl. rewrite Hdel. simpl.
    eexists. split; reflexivity.
Qed.

Lemma reject_then_approve_stays_unlisted_witness :
  ∃ l2,
    (AdminRoutes.moderate Sample.working_mailer
       (AdminRoutes.moderate Sample.working_mailer Sample.store 10
          (Some Sample.admin) Sample.live (Some "reject"%string) None).1.1
       20 (Some Sample.admin) Sample.live (Some "approve"%string) None).2
    = Success 200 l2
    ∧ moderationStatus l2 = mod_approved
    ∧ status l2 = removed
    ∧ unlisted
        (AdminRoutes.moderate Sample.working_mailer
           (AdminRoutes.moderate Sample.working_mailer Sample.store 10
              (Some Sample.admin) Sample.live (Some "reject"%string) None).1.1
           20 (Some Sample.admin) Sample.live (Some "approve"%string) None).1.1
        30 Sample.live.
Proof.
  destruct (reject_then_approve_stays_unlisted Sample.working_mailer
              Sample.working_mailer Sample.store 10 20 Sample.admin Sample.admin_user
              Sample.live (Sample.lamp mod_approved active None) None None)
    as (l2 & Hr & _ & Hm & Hst & H & _).
  - repeat split; reflexivity.
  - reflexivity.
  - reflexivity.
  - exists l2. split; [exact Hr|]. split; [exact Hm|]. split; [exact Hst|]. exact (H 30).
Defined.

(** X6.  Which visits [GET /api/listings/:id] counts.  When the fetch of a
    listing whose seller account exists succeeds, the stored listing is the
    old one with one more view if the listing is not soft-deleted and the
    visitor is not its seller, and the store is untouched otherwise; nothing
    but the view counter of that listing ever changes.  When the listing
    served is neither soft-deleted nor approved, the visitor is its seller
    or an admin; this says nothing of soft-deleted listings, for which the
    handler does not look at the moderation status. *)
Theorem fetch_counts_views_of_others s now token id l s' v :
  listings s !! id = Some l →
  is_Some (users s !! seller l) →
  getListing s now token id = (s', Success 200 v) →
  let counted := negb (isDeleted l) && negb (bool_decide (token = Some (seller l))) in
  s' = (if counted then save_listing s id (set_views l (views l + 1)) else s)
  ∧ views (shown v) = views l + (if counted then 1 else 0)
  ∧ (isDeleted l = false → moderationStatus l ≠ mod_approved →
     ∃ uid u, token = Some uid ∧ users s !! uid = Some u
              ∧ (uid = seller l ∨ User.isAdmin u = true)).
Proof.
  intros Hl Hseller. unfold getListing. rewrite Hl.
  destruct (isDeleted l) eqn:Hd.
  - destruct (deletedAt l) as [d|]; [|discriminate].
    destruct (twoDaysInMs <? now - d); [discriminate|].
    intros [= <- <-]. simpl. split; [reflexivity|]. split; [lia|]. discriminate.
  - rewrite (bool_decide_eq_true_2 _ Hseller). simpl negb. cbv zeta.
    unfold Auth.optionalAuth.
    destruct token as [uid|]; simpl.
    + destruct (users s !! uid) as [u|] eqn:Hu; simpl.
      * destruct (decide (uid = seller l)) as [->|Hne].
        -- rewrite (bool_decide_eq_true_2 (seller l = seller l)) by reflexivity.
           rewrite (bool_decide_eq_true_2 (Some (seller l) = Some (seller l)))
             by reflexivity.
           simpl.
           destruct (bool_decide (moderationStatus l = mod_approved)); simpl;
             intros [= <- <-]; (split; [reflexivity|]; split; [simpl; lia|]);
             intros _ _; exists (seller l), u; auto.
        -- rewrite (bool_decide_eq_false_2 (uid = seller l)) by exact Hne.
           rewrite (bool_decide_eq_false_2 (Some uid = Some (seller l)))
             by congruence.
           simpl.
           destruct (bool_decide_reflect (moderationStatus l = mod_approved)) as [Hm|Hm];
             simpl.
           ++ intros [= <- <-]. split; [reflexivity|]. split; [reflexivity|].
              intros _ Hno. contradiction.
           ++ destruct (User.isAdmin u) eqn:Ha; simpl; [|discriminate].
              intros [= <- <-]. split; [reflexivity|]. split; [reflexivity|].
              intros _ _. exists uid, u. auto.
      * destruct (bool_decide_reflect (moderationStatus l = mod_approved)) as [Hm|Hm];
          simpl; [|discriminate].
        destruct (decide (uid = seller l)) as [->|Hne].
        -- destruct Hseller as [x Hx]. congruence.
        -- rewrite (bool_decide_eq_false_2 (Some uid = Some (seller l)))
             by congruence.
           intros [= <- <-]. split; [reflexivity|]. split; [reflexivity|].
           intros _ Hno. contradiction.
    + destruct (bool_decide_reflect (moderationStatus l = mod_approved)) as [Hm|Hm];
        simpl; [|discriminate].
      intros [= <- <-]. split; [reflexivity|]. split; [reflexivity|].
      intros _ Hno. contradiction.
Qed.

Lemma fetch_counts_views_of_others_witness :
  ∃ s' v,
    getListing Sample.store 50 (Some Sample.omar) Sample.live = (s', Success 200 v)
    ∧ views (shown v) = 1.
Proof.
  eexists _, _. split; [reflexivity|].
  refine (proj1 (proj2 (fetch_counts_views_of_others Sample.store 50 (Some Sample.omar)
                          Sample.live (Sample.lamp mod_approved active None)
                          _ _ eq_refl _ eq_refl))).
  eexists. reflexivity.
Defined.

End Moderation.

Section Selling.
Import Listing ListingRoutes.

Lemma markSold_owner s t uid u id l :
  signed_in s uid u → listings s !! id = Some l → seller l = uid →
  ListingOwner.markSold s t (Some uid) id
  = (save_user
       (save_listing (save_user s uid (User.set_lastSeen u t)) id (set_status l sold))
       uid (with_salesCount (User.set_lastSeen u t) (User.salesCount u + 1)),
     Success 200 tt).
Proof.
  intros Hin Hl Hs. unfold ListingOwner.markSold.
  rewrite (protect_signed_in s t uid u Hin). autorewrite with store.
  rewrite Hl, (bool_decide_eq_true_2 _ Hs). simpl negb. cbv iota zeta.
  autorewrite with store. reflexivity.
Qed.

Lemma sold_at_counts uid id ts : ∀ s u l,
  signed_in s uid u → listings s !! id = Some l → seller l = uid →
  ∃ u' l',
    signed_in (sold_at uid id s ts) uid u'
    ∧ User.salesCount u' = User.salesCount u + Z.of_nat (length ts)
    ∧ listings (sold_at uid id s ts) !! id = Some l'
    ∧ l' = match ts with [] => l | _ => set_status l sold end.
Proof.
  induction ts as [|t ts IH]; intros s u l Hin Hl Hs.
  - exists u, l. simpl. repeat split; try apply Hin; try assumption. lia.
  - unfold sold_at. simpl foldl. rewrite (markSold_owner s t uid u id l Hin Hl Hs).
    simpl fst.
    set (s1 := save_user _ uid _).
    destruct (IH s1 (with_salesCount (User.set_lastSeen u t) (User.salesCount u + 1))
                (set_status l sold)) as (u' & l' & Hin' & Hc & Hl' & El').
    + split; [apply users_save_user_eq | apply Hin].
    + unfold s1. autorewrite with store. reflexivity.
    + exact Hs.
    + exists u', l'. split; [exact Hin'|]. split.
      * rewrite Hc. simpl. lia.
      * split; [exact Hl'|]. rewrite El'. destruct ts; destruct l; reflexivity.
Qed.

(** X7.  Marking a listing sold is for its seller alone: anyone else, an
    admin included, is answered 403 and the listing stays as it is.  Each
    call by the seller counts as a sale, also on a listing that is sold
    already: after [n] calls the sales counter has grown by [n].  From the
    first call on the listing has status sold and, unless soft-deleted,
    leaves every list query. *)
Theorem markSold_counts_every_call s uid u id l (t : Date) (ts : list Date) :
  signed_in s uid u →
  listings s !! id = Some l →
  seller l = uid →
  let s' := sold_at uid id s (t :: ts) in
  (∃ u', users s' !! uid = Some u'
         ∧ User.salesCount u' = User.salesCount u + Z.of_nat (length (t :: ts)))
  ∧ listings s' !! id = Some (set_status l sold)
  ∧ (isDeleted l = false → ∀ now, unlisted s' now id)
  ∧ (∀ other o now,
       signed_in s other o → other ≠ uid →
       ListingOwner.markSold s now (Some other) id
       = (save_user s other (User.set_lastSeen o now),
          Fail 403 (Message_ "Not authorized"))).
Proof.
  intros Hin Hl Hs s'.
  destruct (sold_at_counts uid id (t :: ts) s u l Hin Hl Hs)
    as (u' & l' & [Hu' _] & Hc & Hl' & ->).
  fold s' in Hu', Hl'.
  split; [eauto|]. split; [exact Hl'|]. split.
  - intros Hd now. apply (unlisted_intro s' now id _ Hl').
    apply not_true_iff_false. intros Hq. apply queryObj_spec in Hq.
    destruct Hq as (_ & [[Hst _]|[Hd' _]]); [discriminate|].
    simpl in Hd'. congruence.
  - intros other o now Ho Hne. unfold ListingOwner.markSold.
    rewrite (protect_signed_in s now other o Ho). autorewrite with store.
    rewrite Hl. rewrite bool_decide_eq_false_2 by congruence. reflexivity.
Qed.

Lemma markSold_counts_every_call_witness :
  ∃ u', users (sold_at Sample.sara Sample.live Sample.store [10; 20; 30]) !! Sample.sara
        = Some u'
        ∧ User.salesCount u' = 3.
Proof.
  destruct (markSold_counts_every_call Sample.store Sample.sara Sample.sara_user
              Sample.live (Sample.lamp mod_approved active None) 10 [20; 30])
    as [(u' & Hu' & Hc) _].
  - split; reflexivity.
  - reflexivity.
  - reflexivity.
  - exists u'. split; [exact Hu'|exact Hc].
Defined.

(** X8.  The hard delete of the admin routes removes the listing document
    and nothing else: every user who held it among the favorites still does.
    The listing is gone for every fetch, and the favorite toggle answers 401
    or 404 for it without touching the favorites, so the dangling id cannot
    be dropped through that route. *)
Theorem hard_delete_leaves_favorites s t a adm id l :
  signed_in_admin s a adm →
  listings s !! id = Some l →
  let out := AdminUsers.deleteListing s t (Some a) id in
  out.2 = Success 200 tt
  ∧ listings out.1 = delete id (listings s)
  ∧ accounts_keep User.favorites s out.1
  ∧ (∀ now token,
       getListing out.1 now token id = (out.1, Fail 404 (Message_ "Listing not found")))
  ∧ (∀ now token,
       let again := ListingWrites.favorite out.1 now token id in
       (∃ why, again.2 = Fail 401 why ∨ again.2 = Fail 404 why)
       ∧ accounts_keep User.favorites out.1 again.1).
Proof.
  intros Hadm Hl out. subst out. unfold AdminUsers.deleteListing.
  rewrite (guard_signed_in_admin s t a adm Hadm). autorewrite with store.
  rewrite Hl. simpl.
  set (s0 := save_user s a (User.set_lastSeen adm t)).
  set (s1 := set_listings s0 (delete id (listings s))).
  assert (Hgone : listings s1 !! id = None) by apply lookup_delete_eq.
  split; [reflexivity|]. split; [reflexivity|]. split; [|split].
  - destruct Hadm as [[Hu _] _].
    eapply keep_other; [|reflexivity].
    eapply keep_step_user; [apply keep_refl | exact Hu | reflexivity].
  - intros now token. unfold getListing. rewrite Hgone. reflexivity.
  - intros now token. unfold ListingWrites.favorite.
    destruct (protect_cases (A := bool * Z) s1 now token)
      as [[why ->]|(uid & u & -> & [Hu _] & ->)]; simpl.
    + split; [eauto|]. apply keep_refl.
    + change (delete id (listings s) !! id) with (listings s1 !! id).
      rewrite Hgone. simpl. split; [eauto|].
      eapply keep_step_user; [apply keep_refl | exact Hu | reflexivity].
Qed.

Lemma hard_delete_leaves_favorites_witness :
  (AdminUsers.deleteListing Sample.store 10 (Some Sample.admin) Sample.live).2
  = Success 200 tt.
Proof.
  apply (hard_delete_leaves_favorites Sample.store 10 Sample.admin Sample.admin_user
           Sample.live (Sample.lamp mod_approved active None)).
  - repeat split; reflexivity.
  - reflexivity.
Defined.

End Selling.

(** ** From verification to a published listing *)

Section Publishing.
Import Listing ListingRoutes.

Lemma createListing_valid s now uid u b files :
  signed_in s uid u →
  User.verification_status u = Some Verification.approved →
  valid_payload b →
  ∃ l,
    ListingWrites.createListing s now (Some uid) b files
    = ({| users := <[uid := User.set_lastSeen u now]> (users s);
          listings := <[nextId s := l]> (listings s);
          conversations := conversations s; messages := messages s;
          nextId := Pos.succ (nextId s) |},
       Success 201 (nextId s, l))
    ∧ seller l = uid ∧ moderationStatus l = mod_pending ∧ status l = active
    ∧ isDeleted l = false ∧ views l = 0 ∧ featured l = false.
Proof.
  intros Hin Hyes (Hchain & price & area & city & Hp & Hloc & Hschema).
  unfold ListingWrites.createListing.
  rewrite (protect_signed_in s now uid u Hin).
  unfold Auth.verifiedOnly.
  change (User.verification_status (User.set_lastSeen u now))
    with (User.verification_status u).
  rewrite bool_decide_eq_true_2 by exact Hyes.
  rewrite Hchain, Hp, Hloc, Hschema.
  eexists. simpl. repeat split.
Qed.

(** X9.  From posting to the public.  A listing that a verified user posts
    is returned by no list query (all, featured, recent, similar) and is
    refused to an anonymous visitor with 403.  Once an admin approves it, it
    is stored approved, active and not featured: [/recent] returns it
    whenever no more listings match than the limit lets through (and under
    its id returns nothing else), [GET /api/listings] returns it on the
    first page under the same condition when it passes the request's own
    filters, [/featured] never returns it, and the anonymous fetch succeeds,
    counting the first view. *)
Theorem approval_publishes mail s t0 t1 uid u a adm b files note :
  signed_in s uid u →
  User.verification_status u = Some Verification.approved →
  valid_payload b →
  signed_in_admin s a adm →
  let lid := nextId s in
  let s0 := (ListingWrites.createListing s t0 (Some uid) b files).1 in
  let s1 := (AdminRoutes.moderate mail s0 t1 (Some a) lid (Some "approve"%string) note).1.1 in
  (∀ now, unlisted s0 now lid)
  ∧ (∀ now, getListing s0 now None lid
            = (s0, Fail 403 (Message_ "This listing is pending approval")))
  ∧ (∃ l1, listings s1 !! lid = Some l1
           ∧ seller l1 = uid ∧ status l1 = active
           ∧ moderationStatus l1 = mod_approved ∧ featured l1 = false
           ∧ ∀ now,
               (∀ limit x, (lid, x) ∈ getRecent s1 now limit → x = l1)
               ∧ (∀ limit,
                    limit = O ∨ (size (find (queryObj now) s1) ≤ limit)%nat →
                    (lid, l1) ∈ getRecent s1 now limit)
               ∧ (∀ extra sort limit,
                    extra l1 = true →
                    limit = O
                    ∨ (size (find (fun l => queryObj now l && extra l) s1) ≤ limit)%nat →
                    ∃ body, getListings s1 now extra sort 1 limit = Success 200 body
                            ∧ (lid, l1) ∈ l_listings body)
               ∧ (∀ x, (lid, x) ∉ getFeatured s1 now))
  ∧ (∀ now, ∃ v, (getListing s1 now None lid).2 = Success 200 v
                 ∧ views (shown v) = 1).
Proof.
  intros Hin Hyes Hvalid Hadm lid s0 s1.
  destruct (createListing_valid s t0 uid u b files Hin Hyes Hvalid)
    as (l & Hcreate & Hseller & Hmod & Hst & Hdel & Hviews & Hfeat).
  assert (Hk : accounts_keep flags s s0).
  { apply keep_createListing. apply flags_stable. }
  destruct (admin_stays s s0 a adm Hk Hadm) as (adm0 & Hadm0).
  assert (Hl0 : listings s0 !! lid = Some l).
  { unfold s0. rewrite Hcreate. simpl. apply lookup_insert_eq. }
  destruct (moderate_listing mail s0 t1 a adm0 lid l (Some "approve"%string) note
              Hadm0 eq_refl Hl0) as [_ Hs1].
  fold s1 in Hs1. simpl in Hs1.
  set (l1 := set_moderation l mod_approved (Some (or_else note ""))) in *.
  assert (Hl1 : listings s1 !! lid = Some l1).
  { rewrite Hs1. apply lookup_insert_eq. }
  split; [|split; [|split]].
  - intros now. apply (unlisted_intro _ now lid _ Hl0).
    apply not_true_iff_false. intros Hq. apply queryObj_spec in Hq.
    destruct Hq as [Hq _]. congruence.
  - intros now. unfold getListing. rewrite Hl0, Hdel.
    rewrite bool_decide_eq_false_2 by congruence. reflexivity.
  - exists l1. do 5 (split; [assumption || reflexivity|]).
    intros now.
    assert (Hq : queryObj now l1 = true).
    { apply queryObj_spec. split; [reflexivity|]. left. split; assumption. }
    split; [|split; [|split]].
    + intros limit x Hx. unfold getRecent in Hx.
      apply page_elem, find_lookup in Hx as [Hx _]. congruence.
    + intros limit Hroom. unfold getRecent. apply page_whole; [exact Hroom|].
      apply find_lookup. split; assumption.
    + intros extra sort limit Hextra Hroom. unfold getListings.
      eexists. split; [reflexivity|]. simpl.
      apply page_whole; [exact Hroom|].
      apply find_lookup. split; [exact Hl1|]. rewrite Hq, Hextra. reflexivity.
    + intros x Hx. unfold getFeatured in Hx.
      apply page_elem, find_lookup in Hx as [Hx Hf].
      apply andb_true_iff in Hf as [_ Hf].
      rewrite Hl1 in Hx. injection Hx as <-. simpl in Hf. congruence.
  - intros now. unfold getListing. rewrite Hl1. simpl. rewrite Hdel. simpl.
    eexists. split; [reflexivity|]. simpl. rewrite Hviews. reflexivity.
Qed.

Lemma approval_publishes_witness :
  (∃ v,
     (getListing
        (AdminRoutes.moderate Sample.working_mailer
           (ListingWrites.createListing Sample.store 800 (Some Sample.sara)
              SampleRequests.chair []).1
           900 (Some Sample.admin) 100%positive (Some "approve"%string) None).1.1
        1000 None 100%positive).2 = Success 200 v
     ∧ views (shown v) = 1)
  ∧ (∃ l1,
       (100%positive, l1)
       ∈ getRecent
           (AdminRoutes.moderate Sample.working_mailer
              (ListingWrites.createListing Sample.store 800 (Some Sample.sara)
                 SampleRequests.chair []).1
              900 (Some Sample.admin) 100%positive (Some "approve"%string) None).1.1
           1000 8
       ∧ moderationStatus l1 = mod_approved ∧ status l1 = active).
Proof.
  destruct (approval_publishes Sample.working_mailer Sample.store 800 900
              Sample.sara Sample.sara_user Sample.admin Sample.admin_user
              SampleRequests.chair [] None)
    as (_ & _ & (l1 & _ & _ & Hst & Hmod & _ & Hlist) & Hview).
  - split; reflexivity.
  - reflexivity.
  - split; [reflexivity|].
    exists 900, "Zamalek"%string, None. repeat split.
  - repeat split; reflexivity.
  - split; [exact (Hview 1000)|].
    exists l1. split; [|split; assumption].
    apply (Hlist 1000). right. vm_compute. lia.
Defined.

End Publishing.

Section Gate.

(** X10.  The review decides who may post.  After an admin approves a
    pending submission the user's valid listing is accepted; after a
    rejection it is refused with 403 and the verification-required marker,
    and the user may submit again: the new submission is pending and carries
    no rejection reason. *)
Theorem review_decides_who_may_post mail s t1 t2 a adm uid u v b files doc why :
  signed_in_admin s a adm →
  signed_in s uid u →
  uid ≠ a →
  User.verification u = Some v →
  Verification.status v = Verification.pending →
  valid_payload b →
  why ≠ ""%string →
  let approved :=
    (AdminRoutes.review mail s t1 (Some a) uid (Some "approve"%string) None).1.1 in
  let rejected :=
    (AdminRoutes.review mail s t1 (Some a) uid (Some "reject"%string) (Some why)).1.1 in
  (∃ l, (ListingWrites.createListing approved t2 (Some uid) b files).2
        = Success 201 (nextId s, l))
  ∧ (ListingWrites.createListing rejected t2 (Some uid) b files).2
    = Fail 403 (RequiresVerification "Identity verification required")
  ∧ (∃ v', (VerificationRoutes.submit rejected t2 (Some uid) (Some "passport"%string)
              (Some [doc])).2 = Success 200 v'
           ∧ Verification.status v' = Verification.pending
           ∧ Verification.rejectionReason v' = None
           ∧ Verification.submittedAt v' = Some t2).
Proof.
  intros Hadm Hin Hne Hv Hst Hvalid Hwhy approved rejected.
  set (s0 := save_user s a (User.set_lastSeen adm t1)).
  assert (Ht : users s0 !! uid = Some u).
  { unfold s0. rewrite users_save_user_ne by congruence. apply Hin. }
  assert (Hact : User.isActive u = true) by apply Hin.
  split; [|split].
  - destruct (review_accepts_pending mail s t1 a adm uid (Some "approve"%string) None
                u v Hadm (or_introl eq_refl) Ht Hv Hst) as (e & He).
    set (u1 := User.set_notifications _ _) in He.
    replace approved with (save_user s0 uid u1)
      by (unfold approved; rewrite He; reflexivity).
    destruct (createListing_valid (save_user s0 uid u1) t2 uid u1 b files)
      as (l & -> & _); [| |exact Hvalid|eauto].
    + split; [apply users_save_user_eq | exact Hact].
    + reflexivity.
  - destruct (review_accepts_pending mail s t1 a adm uid (Some "reject"%string)
                (Some why) u v Hadm) as (e & He); [|exact Ht|exact Hv|exact Hst|].
    { right. split; [reflexivity|]. eauto. }
    set (u1 := User.set_notifications _ _) in He.
    replace rejected with (save_user s0 uid u1)
      by (unfold rejected; rewrite He; reflexivity).
    unfold ListingWrites.createListing.
    rewrite (protect_signed_in _ t2 uid u1)
      by (split; [apply users_save_user_eq | exact Hact]).
    reflexivity.
  - destruct (review_accepts_pending mail s t1 a adm uid (Some "reject"%string)
                (Some why) u v Hadm) as (e & He); [|exact Ht|exact Hv|exact Hst|].
    { right. split; [reflexivity|]. eauto. }
    set (u1 := User.set_notifications _ _) in He.
    replace rejected with (save_user s0 uid u1)
      by (unfold rejected; rewrite He; reflexivity).
    rewrite (submit_signed_in _ t2 uid u1)
      by (split; [apply users_save_user_eq | exact Hact]).
    simpl. eexists. repeat split.
Qed.

Lemma review_decides_who_may_post_witness :
  (ListingWrites.createListing
     (AdminRoutes.review Sample.working_mailer Sample.store 10 (Some Sample.admin)
        Sample.lina (Some "reject"%string) (Some "blurred"%string)).1.1
     20 (Some Sample.lina) SampleRequests.chair []).2
  = Fail 403 (RequiresVerification "Identity verification required").
Proof.
  apply (review_decides_who_may_post Sample.working_mailer Sample.store 10 20
           Sample.admin Sample.admin_user Sample.lina Sample.lina_user
           (Sample.verification_in Verification.pending None)
           SampleRequests.chair [] Sample.scan1 "blurred").
  - repeat split; reflexivity.
  - split; reflexivity.
  - discriminate.
  - reflexivity.
  - reflexivity.
  - split; [reflexivity|].
    exists 900, "Zamalek"%string, None. repeat split.
  - discriminate.
Defined.

End Gate.

Section ReportsAfterApproval.
Import Listing ListingRoutes.



End ReportsAfterApproval.

(** ** Accounts *)

Section VerificationMoves.

Lemma verification_stable :
  (∀ u d, User.verification (User.set_lastSeen u d) = User.verification u)
  ∧ (∀ u n, User.verification (User.set_notifications u n) = User.verification u)
  ∧ (∀ u l, User.verification (User.set_favorites u l) = User.verification u)
  ∧ (∀ u n, User.verification (with_salesCount u n) = User.verification u)
  ∧ (∀ u b, User.verification (with_isAdmin u b) = User.verification u)
  ∧ (∀ u b, User.verification (with_isActive u b) = User.verification u).
Proof. repeat split. Qed.

Lemma vstep_refl o : vstep o o.
Proof. left. reflexivity. Qed.

Lemma vstep_kept s s' uid u :
  accounts_keep User.verification s s' → users s !! uid = Some u →
  ∃ u', users s' !! uid = Some u'
        ∧ vstep (User.verification_status u) (User.verification_status u').
Proof.
  intros Hk Hu. destruct (keep_lookup _ s s' uid u Hk Hu) as (u' & Hu' & E).
  exists u'. split; [exact Hu'|]. unfold User.verification_status. rewrite E.
  apply vstep_refl.
Qed.

Lemma vstep_submit s now token documentType files uid u :
  users s !! uid = Some u →
  ∃ u', users (VerificationRoutes.submit s now token documentType files).1 !! uid
        = Some u'
        ∧ vstep (User.verification_status u) (User.verification_status u').
Proof.
  intros Hu. unfold VerificationRoutes.submit.
  pose proof (keep_protect User.verification (proj1 verification_stable)
                (A := Verification.t) s now token) as Hp.
  destruct (Auth.protect (A := Verification.t) s now token) as [s0 [r|[caller me]]];
    simpl in Hp; [exact (vstep_kept _ _ _ _ Hp Hu)|].
  destruct (keep_lookup _ s s0 uid u Hp Hu) as (u0 & Hu0 & E0).
  assert (Hsame : ∃ u', users s0 !! uid = Some u'
            ∧ vstep (User.verification_status u) (User.verification_status u')).
  { exists u0. split; [exact Hu0|]. unfold User.verification_status. rewrite E0.
    apply vstep_refl. }
  repeat case_match; simpl fst; try exact Hsame.
  all: destruct (decide (caller = uid)) as [->|Hne];
    [rewrite users_save_user_eq | rewrite users_save_user_ne by exact Hne; exact Hsame].
  all: eexists; split; [reflexivity|].
  all: right; left; simplify_eq.
  all: unfold User.verification_status in *; rewrite <- E0.
  all: split; [reflexivity|]; split; congruence.
Qed.

Lemma vstep_review mail s now token userId action reason uid u :
  users s !! uid = Some u →
  ∃ u', users (AdminRoutes.review mail s now token userId action reason).1.1 !! uid
        = Some u'
        ∧ vstep (User.verification_status u) (User.verification_status u').
Proof.
  intros Hu. unfold AdminRoutes.review.
  pose proof (keep_guard User.verification (proj1 verification_stable)
                (A := Verification.t) s now token) as Hp.
  destruct (AdminRoutes.guard (A := Verification.t) s now token)
    as [s0 [r|[caller me]]];
    simpl in Hp; [exact (vstep_kept _ _ _ _ Hp Hu)|].
  destruct (keep_lookup _ s s0 uid u Hp Hu) as (u0 & Hu0 & E0).
  assert (Hsame : ∃ u', users s0 !! uid = Some u'
            ∧ vstep (User.verification_status u) (User.verification_status u')).
  { exists u0. split; [exact Hu0|]. unfold User.verification_status. rewrite E0.
    apply vstep_refl. }
  repeat case_match; simpl fst; try exact Hsame.
  all: destruct (decide (userId = uid)) as [->|Hne];
    [rewrite users_save_user_eq | rewrite users_save_user_ne by exact Hne; exact Hsame].
  all: eexists; split; [reflexivity|].
  all: right; right; simplify_eq.
  all: unfold User.verification_status in *; rewrite <- E0.
  all: match goal with
       | H : negb (bool_decide _) = false |- _ =>
           apply negb_false_iff, bool_decide_eq_true in H
       end.
  all: match goal with
       | H : User.verification _ = Some _ |- _ => rewrite H
       end.
  all: simpl; split; [congruence|].
  all: destruct (equals action "approve"); auto.
Qed.

Lemma vstep_perform s now c uid u :
  users s !! uid = Some u →
  ∃ u', users (perform s now c) !! uid = Some u'
        ∧ vstep (User.verification_status u) (User.verification_status u').
Proof.
  intros Hu.
  destruct c as [r| | | | | | | | | |]; simpl;
    [destruct r; simpl|..];
    try (apply vstep_submit; exact Hu);
    try (apply vstep_review; exact Hu);
    (eapply vstep_kept; [|exact Hu]).
  - apply keep_moderate; apply verification_stable.
  - apply keep_getListing.
  - apply keep_createListing; apply verification_stable.
  - apply keep_favorite; apply verification_stable.
  - apply keep_report; apply verification_stable.
  - apply keep_softDelete; apply verification_stable.
  - apply keep_sendMessage; apply verification_stable.
  - apply keep_getConversations; apply verification_stable.
  - apply keep_getConversation; apply verification_stable.
  - apply keep_getOriginal; apply verification_stable.
  - intros x. reflexivity.
  - apply keep_markSold; apply verification_stable.
  - apply keep_toggleRole; apply verification_stable.
  - apply keep_toggleStatus; apply verification_stable.
  - apply keep_toggleStatusUsers; apply verification_stable.
  - apply keep_deleteListing; apply verification_stable.
  - apply keep_startConversation; apply verification_stable.
  - apply keep_archiveConversation; apply verification_stable.
  - apply keep_unreadCount; apply verification_stable.
  - apply keep_getNotifications; apply verification_stable.
  - apply keep_markAllRead; apply verification_stable.
Qed.

(** X11.  How a verification status moves.  Whatever the call, every account
    stays in the store and its status either stays, or becomes pending from
    anything but pending and approved, or goes from pending to approved or
    rejected.  So along every run of calls an approved account stays
    approved: no route takes an approval back. *)
Theorem verification_moves_forward s uid u :
  users s !! uid = Some u →
  (∀ now c, ∃ u', users (perform s now c) !! uid = Some u'
      ∧ vstep (User.verification_status u) (User.verification_status u'))
  ∧ (User.verification_status u = Some Verification.approved →
     ∀ cs, ∃ u', users (perform_all s cs) !! uid = Some u'
       ∧ User.verification_status u' = Some Verification.approved).
Proof.
  intros Hu. split; [intros now c; apply vstep_perform; exact Hu|].
  intros Ha cs. revert s u Hu Ha.
  induction cs as [|[now c] cs IH]; intros s u Hu Ha; [eauto|].
  destruct (vstep_perform s now c uid u Hu) as (u1 & Hu1 & Hstep).
  apply (IH (perform s now c) u1 Hu1).
  rewrite Ha in Hstep. destruct Hstep as [E|[(_ & _ & Hno)|[Hno _]]];
    [exact E|congruence|discriminate].
Qed.

Lemma verification_moves_forward_witness :
  ∃ u',
    users
      (perform_all Sample.store
         [(10, Served (PostVerificationSubmit (Some Sample.sara)
                         (Some "passport"%string) (Some [Sample.scan1])));
          (20, PutAdminStatus (Some Sample.admin) Sample.sara)])
      !! Sample.sara = Some u'
    ∧ User.verification_status u' = Some Verification.approved.
Proof.
  apply (verification_moves_forward Sample.store Sample.sara Sample.sara_user);
    reflexivity.
Defined.

End VerificationMoves.

Section Credentials.

Lemma protect_refused {A} s now token :
  refused s token →
  ∃ why, Auth.protect (A := A) s now token = (s, inl (Fail 401 why)).
Proof.
  unfold refused, Auth.protect. destruct token as [uid|]; [|eauto].
  destruct (users s !! uid) as [u|]; [|eauto].
  intros ->. simpl. eauto.
Qed.

Lemma guard_refused {A} s now token :
  refused s token →
  ∃ why, AdminRoutes.guard (A := A) s now token = (s, inl (Fail 401 why)).
Proof.
  intros H. unfold AdminRoutes.guard.
  destruct (protect_refused (A := A) s now token H) as [why ->]. eauto.
Qed.

Lemma perform_refused s now c token :
  credential c = Some token → refused s token → perform s now c = s.
Proof.
  intros Hc Href.
  destruct c as [r| | | | | | | | | |]; simpl in *;
    [destruct r; simpl in *|..]; simplify_eq.
  all: first
    [ unfold VerificationRoutes.submit, ListingWrites.createListing,
        ListingWrites.favorite, ListingWrites.report, ListingWrites.softDelete,
        MessageRoutes.sendMessage, MessageRoutes.getConversations,
        MessageRoutes.getConversation, MessageRoutes.getOriginal,
        ListingOwner.markSold, ConversationRoutes.startConversation,
        ConversationRoutes.archiveConversation, ConversationRoutes.unreadCount,
        NotificationRoutes.getNotifications, NotificationRoutes.markAllRead;
      match goal with
      | H : refused ?s0 ?tok |- context [Auth.protect (A := ?A) ?s0 ?t ?tok] =>
          destruct (protect_refused (A := A) s0 t tok H) as [? ->]
      end; reflexivity
    | unfold AdminRoutes.moderate, AdminRoutes.review, AdminUsers.toggleRole,
        AdminUsers.toggleStatus, AdminUsers.toggleStatusUsers,
        AdminUsers.deleteListing;
      match goal with
      | H : refused ?s0 ?tok |- context [AdminRoutes.guard (A := ?A) ?s0 ?t ?tok] =>
          destruct (guard_refused (A := A) s0 t tok H) as [? ->]
      end; reflexivity ].
Qed.

(** X12.  A call whose credential [protect] turns away (no token, an unknown
    account, a deactivated account) changes nothing at all in the store,
    whichever protected route it is sent to. *)
Theorem refused_calls_change_nothing s now c token :
  credential c = Some token →
  refused s token →
  perform s now c = s.
Proof. apply perform_refused. Qed.

Lemma refused_calls_change_nothing_witness :
  perform Sample.store 10 (PutSold None Sample.live) = Sample.store.
Proof.
  apply (refused_calls_change_nothing Sample.store 10 (PutSold None Sample.live) None).
  - reflexivity.
  - exact I.
Defined.

End Credentials.

Section Flags.

Lemma toggled_twice u :
  with_isAdmin (with_isAdmin u (negb (User.isAdmin u)))
    (negb (User.isAdmin (with_isAdmin u (negb (User.isAdmin u))))) = u
  ∧ with_isActive (with_isActive u (negb (User.isActive u)))
      (negb (User.isActive (with_isActive u (negb (User.isActive u))))) = u.
Proof. destruct u as [? ? ? ? ? [] [] ? ?]; split; reflexivity. Qed.

Lemma toggleRole_other s t a adm id u :
  signed_in_admin s a adm → users s !! id = Some u → id ≠ a →
  (AdminUsers.toggleRole s t (Some a) id).1
  = save_user (save_user s a (User.set_lastSeen adm t)) id
      (with_isAdmin u (negb (User.isAdmin u))).
Proof.
  intros Hadm Hu Hne. unfold AdminUsers.toggleRole.
  rewrite (guard_signed_in_admin s t a adm Hadm).
  rewrite users_save_user_ne by congruence. rewrite Hu.
  rewrite bool_decide_eq_false_2 by exact Hne. reflexivity.
Qed.

Lemma toggleStatus_other s t a adm id u :
  signed_in_admin s a adm → users s !! id = Some u → id ≠ a →
  (AdminUsers.toggleStatus s t (Some a) id).1
  = save_user (save_user s a (User.set_lastSeen adm t)) id
      (with_isActive u (negb (User.isActive u))).
Proof.
  intros Hadm Hu Hne. unfold AdminUsers.toggleStatus.
  rewrite (guard_signed_in_admin s t a adm Hadm).
  rewrite users_save_user_ne by congruence. rewrite Hu.
  rewrite bool_decide_eq_false_2 by exact Hne. reflexivity.
Qed.

Lemma admin_after_stamp s t a adm id u' :
  signed_in_admin s a adm → id ≠ a →
  signed_in_admin (save_user (save_user s a (User.set_lastSeen adm t)) id u') a
    (User.set_lastSeen adm t).
Proof.
  intros [[Hu Hact] Hadm] Hne. split; [split|]; try assumption.
  rewrite users_save_user_ne by exact Hne. apply users_save_user_eq.
Qed.

(** X13.  The toggles of the admin routes.  On another account, one toggle
    of the role stores the account with [isAdmin] negated, and one toggle of
    the status stores it with [isActive] negated; the other flag and every
    other field stay as they were.  Toggling the role twice, or the status
    twice, gives the account back exactly as it was.  On the admin's own
    account both routes answer 400 and leave the flags as they are. *)
Theorem admin_toggle_twice_restores s t1 t2 a adm id u :
  signed_in_admin s a adm →
  users s !! id = Some u →
  id ≠ a →
  let role1 := (AdminUsers.toggleRole s t1 (Some a) id).1 in
  let role2 := (AdminUsers.toggleRole role1 t2 (Some a) id).1 in
  let status1 := (AdminUsers.toggleStatus s t1 (Some a) id).1 in
  let status2 := (AdminUsers.toggleStatus status1 t2 (Some a) id).1 in
  (∃ u1, users role1 !! id = Some u1
         ∧ User.isAdmin u1 = negb (User.isAdmin u)
         ∧ User.isActive u1 = User.isActive u
         ∧ same_but_flags u u1)
  ∧ users role2 !! id = Some u
  ∧ (∃ u1, users status1 !! id = Some u1
           ∧ User.isActive u1 = negb (User.isActive u)
           ∧ User.isAdmin u1 = User.isAdmin u
           ∧ same_but_flags u u1)
  ∧ users status2 !! id = Some u
  ∧ (AdminUsers.toggleRole s t1 (Some a) a).2
    = Fail 400 (Message_ "Cannot modify your own admin role")
  ∧ (AdminUsers.toggleStatus s t1 (Some a) a).2
    = Fail 400 (Message_ "Cannot deactivate your own account")
  ∧ accounts_keep flags s (AdminUsers.toggleRole s t1 (Some a) a).1
  ∧ accounts_keep flags s (AdminUsers.toggleStatus s t1 (Some a) a).1.
Proof.
  intros Hadm Hu Hne role1 role2 status1 status2.
  assert (Hr1 : role1 = save_user (save_user s a (User.set_lastSeen adm t1)) id
                          (with_isAdmin u (negb (User.isAdmin u))))
    by (apply toggleRole_other; assumption).
  assert (Hs1 : status1 = save_user (save_user s a (User.set_lastSeen adm t1)) id
                            (with_isActive u (negb (User.isActive u))))
    by (apply toggleStatus_other; assumption).
  destruct (toggled_twice u) as [Era Est].
  assert (Hself : ∀ A, AdminRoutes.guard (A := A) s t1 (Some a)
            = (save_user s a (User.set_lastSeen adm t1),
               inr (a, User.set_lastSeen adm t1)))
    by (intros A; apply guard_signed_in_admin; exact Hadm).
  split.
  { eexists. split; [rewrite Hr1; apply users_save_user_eq|]. repeat split. }
  split.
  { unfold role2. rewrite Hr1.
    erewrite toggleRole_other;
      [|apply admin_after_stamp; eassumption|apply users_save_user_eq|exact Hne].
    rewrite users_save_user_eq, Era. reflexivity. }
  split.
  { eexists. split; [rewrite Hs1; apply users_save_user_eq|]. repeat split. }
  split.
  { unfold status2. rewrite Hs1.
    erewrite toggleStatus_other;
      [|apply admin_after_stamp; eassumption|apply users_save_user_eq|exact Hne].
    rewrite users_save_user_eq, Est. reflexivity. }
  unfold AdminUsers.toggleRole, AdminUsers.toggleStatus. rewrite !Hself.
  rewrite users_save_user_eq. rewrite bool_decide_eq_true_2 by reflexivity.
  destruct Hadm as [[Ha _] _].
  repeat split; simpl fst.
  all: eapply keep_step_user; [apply keep_refl | exact Ha | reflexivity].
Qed.

Lemma admin_toggle_twice_restores_witness :
  (∃ u1, users (AdminUsers.toggleRole Sample.store 10 (Some Sample.admin) Sample.omar).1
           !! Sample.omar = Some u1
         ∧ User.isAdmin u1 = true ∧ User.isActive u1 = true)
  ∧ (∃ u1, users (AdminUsers.toggleStatus Sample.store 10 (Some Sample.admin) Sample.omar).1
             !! Sample.omar = Some u1
           ∧ User.isActive u1 = false ∧ User.isAdmin u1 = false)
  ∧ users
      (AdminUsers.toggleStatus
         (AdminUsers.toggleStatus Sample.store 10 (Some Sample.admin) Sample.omar).1
         20 (Some Sample.admin) Sample.omar).1 !! Sample.omar
    = Some Sample.omar_user.
Proof.
  destruct (admin_toggle_twice_restores Sample.store 10 20 Sample.admin
              Sample.admin_user Sample.omar Sample.omar_user)
    as ((r1 & Hr1 & Hra & Hrb & _) & _ & (s1 & Hs1 & Hsa & Hsb & _) & Htwice & _).
  - repeat split; reflexivity.
  - reflexivity.
  - discriminate.
  - split; [exists r1; repeat split; assumption|].
    split; [exists s1; repeat split; assumption|]. exact Htwice.
Defined.

(** X14.  The status toggle of [routes/users.js] has no check on the
    caller's own account: an admin who calls it on themself is deactivated,
    where the toggle of the admin routes answers 400.  From then on
    [protect] turns their credential away, and no call to a route behind
    [protect] that carries it changes the store. *)
Theorem users_route_deactivates_caller s t a adm :
  signed_in_admin s a adm →
  let out := AdminUsers.toggleStatusUsers s t (Some a) a in
  out.2 = Success 200 (a, User.name adm, User.email adm, false)
  ∧ (∃ adm', users out.1 !! a = Some adm' ∧ User.isActive adm' = false
             ∧ User.isAdmin adm' = true)
  ∧ refused out.1 (Some a)
  ∧ (∀ now c, credential c = Some (Some a) → perform out.1 now c = out.1)
  ∧ (AdminUsers.toggleStatus s t (Some a) a).2
    = Fail 400 (Message_ "Cannot deactivate your own account").
Proof.
  intros Hadm out. subst out.
  pose proof Hadm as [[Hu Hact] Hisadm].
  unfold AdminUsers.toggleStatusUsers, AdminUsers.toggleStatus.
  rewrite !(guard_signed_in_admin s t a adm Hadm).
  rewrite users_save_user_eq. simpl. rewrite Hact. simpl.
  assert (Href : refused
            (save_user (save_user s a (User.set_lastSeen adm t)) a
               (with_isActive (User.set_lastSeen adm t) false)) (Some a)).
  { unfold refused. rewrite users_save_user_eq. reflexivity. }
  split; [reflexivity|]. split; [|split; [exact Href|split]].
  - eexists. rewrite lookup_insert_eq. split; [reflexivity|]. split; [reflexivity|].
    exact Hisadm.
  - intros now c Hc. apply (perform_refused _ now c (Some a) Hc Href).
  - rewrite bool_decide_eq_true_2 by reflexivity. reflexivity.
Qed.

End Flags.

Lemma users_route_deactivates_caller_witness :
  refused (AdminUsers.toggleStatusUsers Sample.store 10 (Some Sample.admin) Sample.admin).1
    (Some Sample.admin).
Proof.
  apply (users_route_deactivates_caller Sample.store 10 Sample.admin Sample.admin_user).
  repeat split; reflexivity.
Defined.

Section FlagsEverywhere.

Lemma keep_flags_toggle {A} s now token
    (body : Store → Id * User.t → Store * Response A) :
  ¬ (∃ uid u, token = Some uid ∧ signed_in_admin s uid u) →
  accounts_keep flags s
    (match AdminRoutes.guard (A := A) s now token with
     | (s0, inl r) => (s0, r)
     | (s0, inr caller) => body s0 caller
     end).1.
Proof.
  intros Hno.
  destruct (guard_cases (A := A) s now token)
    as [[why ->]|[(uid & u & -> & [Hu Hact] & Hna & ->)|(uid & u & -> & Hs & Ha & _)]].
  - apply keep_refl.
  - simpl. eapply keep_step_user; [apply keep_refl | exact Hu | reflexivity].
  - exfalso. apply Hno. exists uid, u. repeat split; try apply Hs; assumption.
Qed.

(** X15.  Who can change what an account may do.  Unless the call is one of
    the three toggles and carries the credential of an active admin, it
    leaves the admin flag and the active flag of every account as they
    were: no other route, and no caller who is not an admin, ever promotes,
    demotes, deactivates or reactivates anyone. *)
Theorem flags_change_only_by_admin_toggle s now c :
  ¬ (is_toggle c = true ∧ admin_call s c) →
  accounts_keep flags s (perform s now c).
Proof.
  intros Hno.
  destruct c as [r| | | | | | | | | |]; simpl.
  - apply keep_serve; apply flags_stable.
  - apply keep_markSold; apply flags_stable.
  - unfold AdminUsers.toggleRole. apply keep_flags_toggle.
    intros (uid & u & -> & Hadm). apply Hno. split; [reflexivity|].
    exists uid, u. split; [reflexivity|exact Hadm].
  - unfold AdminUsers.toggleStatus. apply keep_flags_toggle.
    intros (uid & u & -> & Hadm). apply Hno. split; [reflexivity|].
    exists uid, u. split; [reflexivity|exact Hadm].
  - unfold AdminUsers.toggleStatusUsers. apply keep_flags_toggle.
    intros (uid & u & -> & Hadm). apply Hno. split; [reflexivity|].
    exists uid, u. split; [reflexivity|exact Hadm].
  - apply keep_deleteListing; apply flags_stable.
  - apply keep_startConversation; apply flags_stable.
  - apply keep_archiveConversation; apply flags_stable.
  - apply keep_unreadCount; apply flags_stable.
  - apply keep_getNotifications; apply flags_stable.
  - apply keep_markAllRead; apply flags_stable.
Qed.

Lemma flags_change_only_by_admin_toggle_witness :
  flags <$> users (perform Sample.store 10 (PutAdminRole (Some Sample.omar) Sample.omar))
              !! Sample.omar
  = flags <$> users Sample.store !! Sample.omar.
Proof.
  apply (flags_change_only_by_admin_toggle Sample.store 10
           (PutAdminRole (Some Sample.omar) Sample.omar)).
  intros [_ (uid & u & Hc & [[Hu _] Ha])].
  injection Hc as <-. vm_compute in Hu. injection Hu as <-. discriminate.
Defined.

End FlagsEverywhere.

(** ** The notification routes *)

Section NotificationFacts.
Import NotificationRoutes.

Lemma insert_sorted_perm n l : insert_sorted n l ≡ₚ n :: l.
Proof.
  induction l as [|m l IH]; simpl; [reflexivity|].
  destruct (Notification.createdAt m <=? Notification.createdAt n); [reflexivity|].
  rewrite IH. apply Permutation_swap.
Qed.

Lemma sort_newest_first_perm l : sort_newest_first l ≡ₚ l.
Proof.
  induction l as [|n l IH]; simpl; [reflexivity|].
  rewrite insert_sorted_perm, IH. reflexivity.
Qed.

Lemma insert_sorted_sorted n l :
  StronglySorted newer_or_same l → StronglySorted newer_or_same (insert_sorted n l).
Proof.
  induction 1 as [|m l Hs IH Hall]; simpl.
  - constructor; [constructor|constructor].
  - destruct (Z.leb_spec (Notification.createdAt m) (Notification.createdAt n)) as [Hle|Hgt].
    + constructor; [constructor; assumption|].
      constructor; [exact Hle|].
      eapply Forall_impl; [exact Hall|]. unfold newer_or_same. intros x Hx. simpl in *. lia.
    + constructor; [exact IH|].
      rewrite insert_sorted_perm. constructor; [|exact Hall].
      unfold newer_or_same. lia.
Qed.

Lemma sort_newest_first_sorted l : StronglySorted newer_or_same (sort_newest_first l).
Proof.
  induction l as [|n l IH]; simpl; [constructor|].
  apply insert_sorted_sorted. exact IH.
Qed.

Lemma sorted_split l k :
  StronglySorted newer_or_same l →
  StronglySorted newer_or_same (take k l)
  ∧ ∀ n m, n ∈ take k l → m ∈ drop k l → newer_or_same n m.
Proof.
  intros Hs. revert k. induction Hs as [|x l Hs IH Hall]; intros k.
  - rewrite take_nil, drop_nil. split; [constructor|]. intros n m H. inversion H.
  - destruct k as [|k]; simpl.
    + split; [constructor|]. intros n m H. inversion H.
    + destruct (IH k) as [Ht Hd]. split.
      * constructor; [exact Ht|].
        apply Forall_forall. intros y Hy. rewrite Forall_forall in Hall.
        apply Hall. eapply elem_of_sublist; [exact Hy | apply sublist_take].
      * intros n m Hn Hm. apply elem_of_cons in Hn as [->|Hn].
        -- rewrite Forall_forall in Hall. apply Hall.
           eapply elem_of_sublist; [exact Hm | apply sublist_drop].
        -- apply Hd; assumption.
Qed.

Lemma insert_sorted_mark n l :
  insert_sorted (mark n) (mark <$> l) = mark <$> insert_sorted n l.
Proof.
  induction l as [|m l IH]; [reflexivity|].
  rewrite fmap_cons. cbn [insert_sorted].
  change (Notification.createdAt (mark m)) with (Notification.createdAt m).
  change (Notification.createdAt (mark n)) with (Notification.createdAt n).
  destruct (Notification.createdAt m <=? Notification.createdAt n).
  - rewrite !fmap_cons. reflexivity.
  - rewrite fmap_cons, IH. reflexivity.
Qed.

Lemma sort_newest_first_mark l :
  sort_newest_first (mark <$> l) = mark <$> sort_newest_first l.
Proof.
  induction l as [|n l IH]; [reflexivity|].
  rewrite fmap_cons. unfold sort_newest_first in *. cbn [foldr].
  rewrite IH. apply insert_sorted_mark.
Qed.

Lemma getNotifications_signed_in s now uid u :
  signed_in s uid u →
  getNotifications s now (Some uid)
  = (save_user s uid (User.set_lastSeen u now),
     Success 200
       (take 30 (sort_newest_first (User.notifications u)),
        length (filter (fun n => Notification.read n = false)
                  (take 30 (sort_newest_first (User.notifications u)))))).
Proof.
  intros Hin. unfold getNotifications.
  rewrite (protect_signed_in s now uid u Hin). autorewrite with store. reflexivity.
Qed.

(** X16.  What [GET /api/auth/notifications] shows.  A signed-in user gets at
    most thirty notifications, newest first; they are notifications of the
    user, and every notification left out is no newer than any that is
    shown.  The unread count is taken over the shown ones only, so it never
    exceeds thirty, and the stored list is left as it is. *)
Theorem getNotifications_shows_newest_thirty s now uid u :
  signed_in s uid u →
  ∃ shown unread rest,
    getNotifications s now (Some uid)
    = (save_user s uid (User.set_lastSeen u now), Success 200 (shown, unread))
    ∧ (length shown ≤ 30)%nat
    ∧ length shown = Nat.min 30 (length (User.notifications u))
    ∧ StronglySorted newer_or_same shown
    ∧ shown ++ rest ≡ₚ User.notifications u
    ∧ (∀ n m, n ∈ shown → m ∈ rest → newer_or_same n m)
    ∧ unread = length (filter (fun n => Notification.read n = false) shown)
    ∧ (unread ≤ length shown)%nat.
Proof.
  intros Hin. rewrite (getNotifications_signed_in s now uid u Hin).
  set (sorted := sort_newest_first (User.notifications u)).
  pose proof (sort_newest_first_sorted (User.notifications u)) as Hs. fold sorted in Hs.
  pose proof (sort_newest_first_perm (User.notifications u)) as Hp. fold sorted in Hp.
  destruct (sorted_split sorted 30 Hs) as [Ht Hd].
  eexists (take 30 sorted), _, (drop 30 sorted).
  split; [reflexivity|]. split; [rewrite length_take; lia|].
  split; [rewrite length_take, (Permutation_length Hp); lia|].
  split; [exact Ht|]. split; [rewrite take_drop; exact Hp|].
  split; [exact Hd|]. split; [reflexivity|].
  apply length_filter.
Qed.

Lemma getNotifications_shows_newest_thirty_witness :
  ∃ shown unread,
    (getNotifications Sample.crowded 900 (Some Sample.sara)).2
    = Success 200 (shown, unread)
    ∧ length shown = 30%nat.
Proof.
  destruct (getNotifications_shows_newest_thirty Sample.crowded 900 Sample.sara
              (User.set_notifications Sample.sara_user
                 (Sample.old_notice <$> seq 0 50)))
    as (shown & unread & rest & E & _ & Hlen & _).
  - split; reflexivity.
  - exists shown, unread. rewrite E. split; [reflexivity|].
    rewrite Hlen. reflexivity.
Defined.

(** X17.  Marking all as read.  After [PUT /api/auth/notifications/read] the
    user holds the same notifications in the same order, each read; the
    next listing shows the same notifications as before with an unread
    count of zero.  No other account is touched. *)
Theorem markAllRead_clears_unread s t1 t2 uid u :
  signed_in s uid u →
  let s1 := (markAllRead s t1 (Some uid)).1 in
  let before := take 30 (sort_newest_first (User.notifications u)) in
  users s1 !! uid
  = Some (User.set_notifications (User.set_lastSeen u t1)
            (mark <$> User.notifications u))
  ∧ (∀ other, other ≠ uid → users s1 !! other = users s !! other)
  ∧ (getNotifications s1 t2 (Some uid)).2 = Success 200 (mark <$> before, 0%nat)
  ∧ Forall (fun n => Notification.read n = true) (mark <$> before).
Proof.
  intros Hin s1 before.
  assert (Hs1 : s1 = save_user (save_user s uid (User.set_lastSeen u t1)) uid
                       (User.set_notifications (User.set_lastSeen u t1)
                          (mark <$> User.notifications u))).
  { unfold s1, markAllRead. rewrite (protect_signed_in s t1 uid u Hin).
    autorewrite with store. reflexivity. }
  assert (Hread : Forall (fun n => Notification.read n = true) (mark <$> before)).
  { apply Forall_fmap. apply Forall_true. reflexivity. }
  split; [rewrite Hs1; apply users_save_user_eq|]. split.
  - intros other Hne. rewrite Hs1. rewrite !users_save_user_ne by congruence.
    reflexivity.
  - split; [|exact Hread].
    rewrite (getNotifications_signed_in s1 t2 uid
               (User.set_notifications (User.set_lastSeen u t1)
                  (mark <$> User.notifications u))).
    + simpl. rewrite sort_newest_first_mark, <- fmap_take. fold before.
      do 3 f_equal.
      induction Hread as [|n l Hn _ IH]; [reflexivity|].
      rewrite filter_cons. destruct (decide (Notification.read n = false));
        [congruence|exact IH].
    + split; [rewrite Hs1; apply users_save_user_eq | apply Hin].
Qed.

Lemma markAllRead_clears_unread_witness :
  ∃ shown,
    (getNotifications (markAllRead Sample.crowded 10 (Some Sample.lina)).1 20
       (Some Sample.lina)).2 = Success 200 (shown, 0%nat).
Proof.
  eexists.
  apply (markAllRead_clears_unread Sample.crowded 10 20 Sample.lina
           (User.set_notifications Sample.lina_user (Sample.old_notice <$> seq 0 50))).
  split; reflexivity.
Defined.

End NotificationFacts.

(** ** Conversations and messages *)

Section Quiet.

Lemma quiet_refl s : quiet s s.
Proof. repeat split; reflexivity. Qed.

(** Runs through the branches of a handler that never writes to the chat
    collections. *)
Ltac hush :=
  unfold AdminRoutes.guard, Auth.protect, Auth.adminOnly, Auth.verifiedOnly;
  repeat case_match; simplify_eq; simpl;
  repeat split; simpl; (reflexivity || lia).

Lemma quiet_submit s now token documentType files :
  quiet s (VerificationRoutes.submit s now token documentType files).1.
Proof. unfold VerificationRoutes.submit. hush. Qed.

Lemma quiet_review mail s now token userId action reason :
  quiet s (AdminRoutes.review mail s now token userId action reason).1.1.
Proof. unfold AdminRoutes.review. hush. Qed.

Lemma quiet_moderate mail s now token id action note :
  quiet s (AdminRoutes.moderate mail s now token id action note).1.1.
Proof. unfold AdminRoutes.moderate. hush. Qed.

Lemma quiet_getListing s now token id :
  quiet s (ListingRoutes.getListing s now token id).1.
Proof. unfold ListingRoutes.getListing. hush. Qed.

Lemma quiet_createListing s now token body files :
  quiet s (ListingWrites.createListing s now token body files).1.
Proof. unfold ListingWrites.createListing. hush. Qed.

Lemma quiet_favorite s now token id :
  quiet s (ListingWrites.favorite s now token id).1.
Proof. unfold ListingWrites.favorite. hush. Qed.

Lemma quiet_report s now token id reason :
  quiet s (ListingWrites.report s now token id reason).1.
Proof. unfold ListingWrites.report. hush. Qed.

Lemma quiet_softDelete s now token id reason :
  quiet s (ListingWrites.softDelete s now token id reason).1.
Proof. unfold ListingWrites.softDelete. hush. Qed.

Lemma quiet_getConversations s now token :
  quiet s (MessageRoutes.getConversations s now token).1.
Proof. unfold MessageRoutes.getConversations. hush. Qed.

Lemma quiet_getOriginal s now token id :
  quiet s (MessageRoutes.getOriginal s now token id).1.
Proof. unfold MessageRoutes.getOriginal. hush. Qed.

Lemma quiet_markSold s now token id :
  quiet s (ListingOwner.markSold s now token id).1.
Proof. unfold ListingOwner.markSold. hush. Qed.

Lemma quiet_toggleRole s now token id :
  quiet s (AdminUsers.toggleRole s now token id).1.
Proof. unfold AdminUsers.toggleRole. hush. Qed.

Lemma quiet_toggleStatus s now token id :
  quiet s (AdminUsers.toggleStatus s now token id).1.
Proof. unfold AdminUsers.toggleStatus. hush. Qed.

Lemma quiet_toggleStatusUsers s now token id :
  quiet s (AdminUsers.toggleStatusUsers s now token id).1.
Proof. unfold AdminUsers.toggleStatusUsers. hush. Qed.

Lemma quiet_deleteListing s now token id :
  quiet s (AdminUsers.deleteListing s now token id).1.
Proof. unfold AdminUsers.deleteListing. hush. Qed.

Lemma quiet_unreadCount s now token :
  quiet s (ConversationRoutes.unreadCount s now token).1.
Proof. unfold ConversationRoutes.unreadCount. hush. Qed.

Lemma quiet_getNotifications s now token :
  quiet s (NotificationRoutes.getNotifications s now token).1.
Proof. unfold NotificationRoutes.getNotifications. hush. Qed.

Lemma quiet_markAllRead s now token :
  quiet s (NotificationRoutes.markAllRead s now token).1.
Proof. unfold NotificationRoutes.markAllRead. hush. Qed.

End Quiet.

Section Moves.

Lemma conv_step_refl c : conv_step c c.
Proof. repeat split; auto. Qed.

Lemma msg_step_refl m : msg_step m m.
Proof. repeat split; auto. Qed.

Lemma conv_step_trans c1 c2 c3 : conv_step c1 c2 → conv_step c2 c3 → conv_step c1 c3.
Proof.
  intros (P1 & L1 & A1) (P2 & L2 & A2). repeat split; [congruence..|auto].
Qed.

Lemma msg_step_trans m1 m2 m3 : msg_step m1 m2 → msg_step m2 m3 → msg_step m1 m3.
Proof.
  intros (A1 & B1 & C1 & D1 & E1 & F1 & G1 & H1) (A2 & B2 & C2 & D2 & E2 & F2 & G2 & H2).
  repeat split; [congruence..|auto].
Qed.

Lemma evolve_refl s : chats_evolve s s.
Proof.
  split; [reflexivity|]. split.
  - intros cid c Hc. exists c. split; [exact Hc | apply conv_step_refl].
  - intros mid m Hm. exists m. split; [exact Hm | apply msg_step_refl].
Qed.

Lemma evolve_trans s1 s2 s3 : chats_evolve s1 s2 → chats_evolve s2 s3 → chats_evolve s1 s3.
Proof.
  intros (N1 & C1 & M1) (N2 & C2 & M2). split; [lia|]. split.
  - intros cid c Hc. destruct (C1 cid c Hc) as (c2 & Hc2 & S2).
    destruct (C2 cid c2 Hc2) as (c3 & Hc3 & S3). exists c3.
    split; [exact Hc3 | eapply conv_step_trans; eassumption].
  - intros mid m Hm. destruct (M1 mid m Hm) as (m2 & Hm2 & S2).
    destruct (M2 mid m2 Hm2) as (m3 & Hm3 & S3). exists m3.
    split; [exact Hm3 | eapply msg_step_trans; eassumption].
Qed.

Lemma move_refl s : chats_move s s.
Proof. intros H. split; [exact H | apply evolve_refl]. Qed.

Lemma move_trans s1 s2 s3 : chats_move s1 s2 → chats_move s2 s3 → chats_move s1 s3.
Proof.
  intros H12 H23 H1. destruct (H12 H1) as [H2 E12]. destruct (H23 H2) as [H3 E23].
  split; [exact H3 | eapply evolve_trans; eassumption].
Qed.

Lemma move_quiet s s' : quiet s s' → chats_move s s'.
Proof.
  intros (Hc & Hm & Hn) (Hpair & Huniq & Hfresh). split.
  - split; [|split].
    + intros cid c. rewrite Hc. intros H. destruct (Hpair cid c H). split; [assumption|lia].
    + intros i j ci cj. rewrite Hc. apply Huniq.
    + intros mid m. rewrite Hm. intros H. pose proof (Hfresh mid m H). lia.
  - split; [exact Hn|]. split.
    + intros cid c H. exists c. rewrite Hc. split; [exact H | apply conv_step_refl].
    + intros mid m H. exists m. rewrite Hm. split; [exact H | apply msg_step_refl].
Qed.

(** A conversation is saved with the same participants and listing. *)
Lemma move_replace s cid c c' :
  conversations s !! cid = Some c → conv_step c c' →
  chats_move s (save_conversation s cid c').
Proof.
  intros Hc (HP & HL & HA) (Hpair & Huniq & Hfresh).
  assert (Hlook : ∀ i ci', conversations (save_conversation s cid c') !! i = Some ci' →
            ∃ ci, conversations s !! i = Some ci
                  ∧ Conversation.participants ci' = Conversation.participants ci
                  ∧ Conversation.listing ci' = Conversation.listing ci).
  { intros i ci'. simpl. destruct (decide (cid = i)) as [<-|Hne].
    - rewrite lookup_insert_eq. intros [= <-]. exists c. auto.
    - rewrite lookup_insert_ne by exact Hne. intros H. exists ci'. auto. }
  split.
  - split; [|split].
    + intros i ci' Hi. destruct (Hlook i ci' Hi) as (ci & Hci & EP & _).
      destruct (Hpair i ci Hci) as [(a & b & Hp) Hlt].
      split; [|exact Hlt]. exists a, b. congruence.
    + intros i j ci' cj' Hi Hj HLL HPP.
      destruct (Hlook i ci' Hi) as (ci & Hci & EPi & ELi).
      destruct (Hlook j cj' Hj) as (cj & Hcj & EPj & ELj).
      apply (Huniq i j ci cj Hci Hcj); congruence.
    + exact Hfresh.
  - split; [reflexivity|]. split.
    + intros i ci Hci. simpl. destruct (decide (cid = i)) as [<-|Hne].
      * rewrite lookup_insert_eq. exists c'. split; [reflexivity|].
        rewrite Hc in Hci. injection Hci as <-. repeat split; assumption.
      * rewrite lookup_insert_ne by exact Hne. exists ci.
        split; [exact Hci | apply conv_step_refl].
    + intros mid m Hm. exists m. split; [exact Hm | apply msg_step_refl].
Qed.

(** A message is stored under the next id. *)
Lemma move_post s m :
  chats_move s
    {| users := users s; listings := listings s; conversations := conversations s;
       messages := <[nextId s := m]> (messages s); nextId := Pos.succ (nextId s) |}.
Proof.
  intros (Hpair & Huniq & Hfresh). split.
  - split; [|split]; simpl.
    + intros cid c H. destruct (Hpair cid c H). split; [assumption|lia].
    + exact Huniq.
    + intros mid m'. destruct (decide (nextId s = mid)) as [<-|Hne].
      * intros _. lia.
      * rewrite lookup_insert_ne by exact Hne. intros H.
        pose proof (Hfresh mid m' H). lia.
  - split; [simpl; lia|]. split; simpl.
    + intros cid c H. exists c. split; [exact H | apply conv_step_refl].
    + intros mid m' H. exists m'. split; [|apply msg_step_refl].
      rewrite lookup_insert_ne; [exact H|].
      intros <-. pose proof (Hfresh _ _ H). lia.
Qed.

(** Messages are marked read. *)
Lemma move_marks s (g : Message.t → Message.t) :
  (∀ m, msg_step m (g m)) →
  chats_move s
    {| users := users s; listings := listings s; conversations := conversations s;
       messages := g <$> messages s; nextId := nextId s |}.
Proof.
  intros Hg (Hpair & Huniq & Hfresh). split.
  - split; [exact Hpair|]. split; [exact Huniq|]. simpl.
    intros mid m'. rewrite lookup_fmap.
    destruct (messages s !! mid) as [m|] eqn:Hm; [|discriminate].
    intros _. exact (Hfresh mid m Hm).
  - split; [reflexivity|]. split; simpl.
    + intros cid c H. exists c. split; [exact H | apply conv_step_refl].
    + intros mid m H. exists (g m). rewrite lookup_fmap, H. split; [reflexivity|apply Hg].
Qed.

(** A conversation is created under the next id, for two participant
    entries that have none on the listing yet. *)
Lemma move_open s a b lid c :
  Conversation.participants c = [a; b] →
  Conversation.listing c = lid →
  (∀ cid c0, conversations s !! cid = Some c0 → ¬ ConversationRoutes.between a b lid c0) →
  chats_move s
    {| users := users s; listings := listings s;
       conversations := <[nextId s := c]> (conversations s);
       messages := messages s; nextId := Pos.succ (nextId s) |}.
Proof.
  intros HP HL Hnone (Hpair & Huniq & Hfresh).
  assert (Hnew : conversations s !! nextId s = None).
  { destruct (conversations s !! nextId s) as [c0|] eqn:E; [|reflexivity].
    destruct (Hpair _ _ E) as [_ Hlt]. lia. }
  assert (Hclash : ∀ j cj, conversations s !! j = Some cj →
            Conversation.listing c = Conversation.listing cj →
            Conversation.participants c ≡ₚ Conversation.participants cj → False).
  { intros j cj Hj HLL HPP. apply (Hnone j cj Hj). rewrite HP in HPP.
    unfold ConversationRoutes.between. rewrite <- HPP, <- HLL.
    repeat split; [solve [repeat constructor]..|exact HL]. }
  split.
  - split; [|split]; simpl.
    + intros cid c0. destruct (decide (nextId s = cid)) as [<-|Hne].
      * rewrite lookup_insert_eq. intros [= <-]. split; [|lia]. exists a, b. exact HP.
      * rewrite lookup_insert_ne by exact Hne. intros H.
        destruct (Hpair cid c0 H). split; [assumption|lia].
    + intros i j ci cj.
      destruct (decide (nextId s = i)) as [<-|Hi], (decide (nextId s = j)) as [<-|Hj].
      * reflexivity.
      * rewrite lookup_insert_eq, lookup_insert_ne by exact Hj.
        intros [= <-] Hcj HLL HPP. exfalso. eapply Hclash; eassumption.
      * rewrite lookup_insert_eq, lookup_insert_ne by exact Hi.
        intros Hci [= <-] HLL HPP. exfalso. eapply Hclash; [exact Hci|congruence|].
        symmetry. exact HPP.
      * rewrite !lookup_insert_ne by assumption. apply Huniq.
    + intros mid m H. pose proof (Hfresh mid m H). lia.
  - split; [simpl; lia|]. split; simpl.
    + intros cid c0 H. exists c0. split; [|apply conv_step_refl].
      rewrite lookup_insert_ne; [exact H|]. intros <-. congruence.
    + intros mid m H. exists m. split; [exact H | apply msg_step_refl].
Qed.

Lemma quiet_protect {A} s now token : quiet s (Auth.protect (A := A) s now token).1.
Proof. unfold Auth.protect. repeat case_match; simpl; repeat split; reflexivity. Qed.

End Moves.

Section ChatRoutes.
Import ConversationRoutes.

Lemma findOne_Some a b lid s cid c :
  findOne a b lid s = Some (cid, c) →
  conversations s !! cid = Some c ∧ between a b lid c.
Proof.
  unfold findOne. intros H.
  apply head_Some_elem_of, elem_of_map_to_list, map_lookup_filter_Some in H.
  exact H.
Qed.

Lemma findOne_None a b lid s :
  findOne a b lid s = None →
  ∀ cid c, conversations s !! cid = Some c → ¬ between a b lid c.
Proof.
  unfold findOne. intros H cid c Hc Hb.
  apply head_None, map_to_list_empty_iff in H.
  assert (Hin : filter (fun kv => between a b lid (snd kv)) (conversations s) !! cid
                = Some c) by (apply map_lookup_filter_Some; auto).
  rewrite H in Hin. rewrite lookup_empty in Hin. discriminate.
Qed.

Lemma findOne_is_Some a b lid s cid c :
  conversations s !! cid = Some c → between a b lid c →
  is_Some (findOne a b lid s).
Proof.
  intros Hc Hb. destruct (findOne a b lid s) eqn:E; [eauto|].
  exfalso. exact (findOne_None a b lid s E cid c Hc Hb).
Qed.

Lemma findOne_swap a b lid s : findOne a b lid s = findOne b a lid s.
Proof.
  unfold findOne. f_equal. f_equal. apply map_filter_ext.
  intros cid c _. unfold between. simpl. tauto.
Qed.

Lemma move_startConversation s now token listingId sellerId :
  chats_move s (startConversation s now token listingId sellerId).1.
Proof.
  unfold startConversation.
  pose proof (quiet_protect (A := started) s now token) as Hq.
  destruct (Auth.protect (A := started) s now token) as [s0 [r|[uid u]]];
    simpl in Hq; [apply move_quiet; exact Hq|].
  destruct listingId as [listingId|], sellerId as [sellerId|];
    try (apply move_quiet; exact Hq).
  destruct (is_string_of sellerId uid); [apply move_quiet; exact Hq|].
  destruct (cast listingId) as [lid|]; [|apply move_quiet; exact Hq].
  destruct (listings s0 !! lid); [|apply move_quiet; exact Hq].
  destruct (cast sellerId) as [sid|]; [|apply move_quiet; exact Hq].
  destruct (findOne uid sid lid s0) as [[cid c]|] eqn:Hfind;
    [apply move_quiet; exact Hq|].
  simpl fst. eapply move_trans; [apply move_quiet; exact Hq|].
  apply (move_open s0 uid sid lid); [reflexivity|reflexivity|].
  apply findOne_None. exact Hfind.
Qed.

Lemma move_archiveConversation s now token id :
  chats_move s (archiveConversation s now token id).1.
Proof.
  unfold archiveConversation.
  pose proof (quiet_protect (A := unit) s now token) as Hq.
  destruct (Auth.protect (A := unit) s now token) as [s0 [r|[uid u]]];
    simpl in Hq; [apply move_quiet; exact Hq|].
  destruct (conversations s0 !! id) as [c|] eqn:Hc; [|apply move_quiet; exact Hq].
  destruct (negb _); [apply move_quiet; exact Hq|].
  simpl fst. eapply move_trans; [apply move_quiet; exact Hq|].
  eapply move_replace; [exact Hc|]. repeat split.
Qed.

Lemma mark_read_step now m : msg_step m (MessageRoutes.mark_read now m).
Proof. repeat split. Qed.

Lemma move_getConversation s now token id :
  chats_move s (MessageRoutes.getConversation s now token id).1.
Proof.
  unfold MessageRoutes.getConversation.
  pose proof (quiet_protect (A := Conversation.t * gmap Id Message.t) s now token) as Hq.
  destruct (Auth.protect s now token) as [s0 [r|[uid u]]];
    simpl in Hq; [apply move_quiet; exact Hq|].
  destruct (conversations s0 !! id) as [c|] eqn:Hc; [|apply move_quiet; exact Hq].
  destruct (negb _); [apply move_quiet; exact Hq|].
  simpl fst. eapply move_trans; [apply move_quiet; exact Hq|].
  eapply move_trans.
  - apply (move_marks s0
             (fun m => if bool_decide (Message.conversation m = id)
                          && negb (bool_decide (Message.sender m = uid))
                          && negb (Message.read m)
                       then MessageRoutes.mark_read now m else m)).
    intros m. destruct (_ && _); [apply mark_read_step | apply msg_step_refl].
  - eapply move_replace; [exact Hc|]. repeat split. auto.
Qed.

Lemma move_sendMessage s now token cid content type :
  chats_move s (MessageRoutes.sendMessage s now token cid content type).1.1.
Proof.
  unfold MessageRoutes.sendMessage.
  pose proof (quiet_protect (A := Id * Message.t) s now token) as Hq.
  destruct (Auth.protect s now token) as [s0 [r|[uid u]]];
    simpl in Hq; [apply move_quiet; exact Hq|].
  destruct content as [|c0 content]; [apply move_quiet; exact Hq|].
  destruct (conversations s0 !! cid) as [c|] eqn:Hc; [|apply move_quiet; exact Hq].
  destruct (negb _); [apply move_quiet; exact Hq|].
  destruct (MessageRoutes.parse_type type); [|apply move_quiet; exact Hq].
  destruct (_ || _); [apply move_quiet; exact Hq|].
  eapply move_trans; [apply move_quiet; exact Hq|].
  destruct (List.find _ _) as [other|]; simpl fst; [|apply move_post].
  eapply move_trans; [apply move_post|].
  destruct (users _ !! other).
  - match goal with
    | |- chats_move _ (save_user ?x _ _) => apply (move_trans _ x)
    end.
    + eapply move_replace; [exact Hc|repeat split; auto].
    + apply move_quiet. repeat split; reflexivity.
  - eapply move_replace; [exact Hc|repeat split; auto].
Qed.

Lemma move_perform s now c : chats_move s (perform s now c).
Proof.
  destruct c as [r| | | | | | | | | |]; simpl; [destruct r; simpl|..].
  - apply move_quiet, quiet_submit.
  - apply move_quiet, quiet_moderate.
  - apply move_quiet, quiet_review.
  - apply move_quiet, quiet_getListing.
  - apply move_quiet, quiet_createListing.
  - apply move_quiet, quiet_favorite.
  - apply move_quiet, quiet_report.
  - apply move_quiet, quiet_softDelete.
  - apply move_sendMessage.
  - apply move_quiet, quiet_getConversations.
  - apply move_getConversation.
  - apply move_quiet, quiet_getOriginal.
  - apply move_quiet. repeat split; reflexivity.
  - apply move_quiet, quiet_markSold.
  - apply move_quiet, quiet_toggleRole.
  - apply move_quiet, quiet_toggleStatus.
  - apply move_quiet, quiet_toggleStatusUsers.
  - apply move_quiet, quiet_deleteListing.
  - apply move_startConversation.
  - apply move_archiveConversation.
  - apply move_quiet, quiet_unreadCount.
  - apply move_quiet, quiet_getNotifications.
  - apply move_quiet, quiet_markAllRead.
Qed.

Lemma move_perform_all cs : ∀ s, chats_move s (perform_all s cs).
Proof.
  induction cs as [|[now c] cs IH]; intros s; [apply move_refl|].
  eapply move_trans; [apply move_perform | apply IH].
Qed.

End ChatRoutes.

Section ChatInvariants.
Import ConversationRoutes.

Lemma sample_threads cid c :
  conversations Sample.store !! cid = Some c → Sample.thread = cid ∧ Sample.chat = c.
Proof.
  change (conversations Sample.store)
    with ({[Sample.thread := Sample.chat]} : gmap Id Conversation.t).
  apply lookup_singleton_Some.
Qed.

Lemma sample_chats_ok : chats_ok Sample.store.
Proof.
  split; [|split].
  - intros cid c [<- <-]%sample_threads. split; [|reflexivity].
    exists Sample.omar, Sample.sara. reflexivity.
  - intros i j ci cj [<- <-]%sample_threads [<- <-]%sample_threads _ _.
    reflexivity.
  - intros mid m H. simpl in H. rewrite lookup_empty in H. discriminate.
Qed.

(** X18.  One conversation per listing and participants.  On a store where
    every conversation has two participant entries, no two conversations
    share the listing and the participants, and no conversation or message
    id is still to come, every call keeps all of this true, and so does
    every run of calls: [POST /api/messages/conversations] never opens a
    second conversation for the same participants on a listing, in
    whichever order the two are named and however their ids are spelled.
    The two entries need not be different users. *)
Theorem chats_stay_in_order s cs :
  chats_ok s → chats_ok (perform_all s cs).
Proof. intros H. exact (proj1 (move_perform_all cs s H)). Qed.

Lemma chats_stay_in_order_witness :
  chats_ok
    (perform_all Sample.store
       [(10, PostConversation (Some Sample.sara) (Some (Spelled Sample.live true))
               (Some (Spelled Sample.omar true)));
        (20, PostConversation (Some Sample.omar) (Some (Spelled Sample.live true))
               (Some (Spelled Sample.rami false)));
        (30, PostConversation (Some Sample.rami) (Some (Spelled Sample.live true))
               (Some (Spelled Sample.rami false)))]).
Proof. apply chats_stay_in_order. exact sample_chats_ok. Defined.

(** X19.  Chats only move forward.  Along every run of calls from a store
    whose chats are in order, a stored message stays stored with the same
    conversation, sender, content, original content, flag, type and date:
    all that can happen to it is that it is marked read, and a read message
    stays read.  A stored conversation stays stored with the same
    participants and listing, and once archived it is never active again. *)
Theorem chats_only_move_forward s cs :
  chats_ok s →
  (∀ mid m, messages s !! mid = Some m →
     ∃ m', messages (perform_all s cs) !! mid = Some m' ∧ msg_step m m')
  ∧ (∀ cid c, conversations s !! cid = Some c →
       ∃ c', conversations (perform_all s cs) !! cid = Some c' ∧ conv_step c c').
Proof.
  intros H. destruct (move_perform_all cs s H) as [_ (_ & Hc & Hm)].
  split; assumption.
Qed.

Lemma chats_only_move_forward_witness :
  ∃ c',
    conversations
      (perform_all Sample.store
         [(10, DeleteConversation (Some Sample.omar) Sample.thread);
          (20, Served (PostMessage (Some Sample.sara) Sample.thread (utf16 "hello") None))])
      !! Sample.thread = Some c'
    ∧ conv_step Sample.chat c'.
Proof.
  apply (proj2 (chats_only_move_forward Sample.store _ sample_chats_ok)).
  reflexivity.
Defined.

Lemma startConversation_signed_in s now uid u lid cl l other co :
  signed_in s uid u → is_string_of (Spelled other co) uid = false →
  listings s !! lid = Some l →
  startConversation s now (Some uid) (Some (Spelled lid cl)) (Some (Spelled other co))
  = let s0 := save_user s uid (User.set_lastSeen u now) in
    match findOne uid other lid s with
    | Some (cid, c) =>
        (s0, Success 200 {| conversationId := cid; conversation := c; isNew := false |})
    | None =>
        let c :=
          {| Conversation.participants := [uid; other];
             Conversation.listing := lid;
             Conversation.lastMessage := None;
             Conversation.unreadCount := ∅;
             Conversation.isActive := true;
             Conversation.updatedAt := now |} in
        ({| users := users s0; listings := listings s0;
            conversations := <[nextId s := c]> (conversations s);
            messages := messages s; nextId := Pos.succ (nextId s) |},
         Success 201 {| conversationId := nextId s; conversation := c; isNew := true |})
    end.
Proof.
  intros Hin Hne Hl. unfold startConversation.
  rewrite (protect_signed_in s now uid u Hin).
  rewrite Hne. cbn [cast].
  autorewrite with store. rewrite Hl.
  change (findOne uid other lid (save_user s uid (User.set_lastSeen u now)))
    with (findOne uid other lid s).
  destruct (findOne uid other lid s) as [[cid c]|]; reflexivity.
Qed.

Lemma findOne_only a b lid s cid c :
  conversations s !! cid = Some c → between a b lid c →
  (∀ j cj, conversations s !! j = Some cj → between a b lid cj → j = cid) →
  findOne a b lid s = Some (cid, c).
Proof.
  intros Hc Hb Honly.
  destruct (findOne_is_Some a b lid s cid c Hc Hb) as [[j cj] E].
  destruct (findOne_Some a b lid s j cj E) as [Hj Hbj].
  rewrite E. pose proof (Honly j cj Hj Hbj) as ->. congruence.
Qed.

(** X20.  Get or create.  When two different signed-in users have no
    conversation on an existing listing, the first request creates one under
    the next id, with the caller first among the participants and no unread
    count; asking again, by either of the two naming the other in whatever
    spelling, returns that same conversation with [isNew] false and creates
    nothing.  Naming oneself by the very string of one's id is refused with
    400; naming oneself in another spelling passes the guard and, when the
    caller takes part in no conversation on the listing, creates a
    conversation whose two participants are the caller.  A seller id or a
    listing id that cannot be cast is answered with 500. *)
Theorem startConversation_gets_or_creates s t1 t2 a ua b ub lid l cl cl' ca cb cb' :
  signed_in s a ua →
  signed_in s b ub →
  a ≠ b →
  listings s !! lid = Some l →
  (∀ cid c, conversations s !! cid = Some c → ¬ between a b lid c) →
  let first :=
    startConversation s t1 (Some a) (Some (Spelled lid cl)) (Some (Spelled b cb)) in
  let created :=
    {| Conversation.participants := [a; b]; Conversation.listing := lid;
       Conversation.lastMessage := None; Conversation.unreadCount := ∅;
       Conversation.isActive := true; Conversation.updatedAt := t1 |} in
  let again :=
    startConversation first.1 t2 (Some a) (Some (Spelled lid cl')) (Some (Spelled b cb')) in
  let swapped :=
    startConversation first.1 t2 (Some b) (Some (Spelled lid cl')) (Some (Spelled a ca)) in
  let found :=
    Success 200
      {| conversationId := nextId s; conversation := created; isNew := false |} in
  let self :=
    {| Conversation.participants := [a; a]; Conversation.listing := lid;
       Conversation.lastMessage := None; Conversation.unreadCount := ∅;
       Conversation.isActive := true; Conversation.updatedAt := t1 |} in
  let alone :=
    startConversation s t1 (Some a) (Some (Spelled lid cl)) (Some (Spelled a false)) in
  first.2
  = Success 201 {| conversationId := nextId s; conversation := created; isNew := true |}
  ∧ conversations first.1 = <[nextId s := created]> (conversations s)
  ∧ again.2 = found ∧ conversations again.1 = conversations first.1
  ∧ swapped.2 = found ∧ conversations swapped.1 = conversations first.1
  ∧ (startConversation s t1 (Some a) (Some (Spelled lid cl)) (Some (Spelled a true))).2
    = Fail 400 (Message_ "You cannot message yourself")
  ∧ ((∀ cid c, conversations s !! cid = Some c →
        ¬ (a ∈ Conversation.participants c ∧ Conversation.listing c = lid)) →
     alone.2
     = Success 201 {| conversationId := nextId s; conversation := self; isNew := true |}
     ∧ conversations alone.1 = <[nextId s := self]> (conversations s))
  ∧ (startConversation s t1 (Some a) (Some (Spelled lid cl)) (Some Uncastable)).2
    = Fail 500 (Message_ "Server error")
  ∧ (startConversation s t1 (Some a) (Some Uncastable) (Some (Spelled b cb))).2
    = Fail 500 (Message_ "Server error").
Proof.
  intros Ha Hb Hab Hl Hnone first created again swapped found self alone.
  assert (Hguard : ∀ x y c, x ≠ y → is_string_of (Spelled x c) y = false).
  { intros x y [|] Hxy; [|reflexivity]. simpl. apply bool_decide_eq_false_2. exact Hxy. }
  assert (Hfirst : first
            = ({| users := <[a := User.set_lastSeen ua t1]> (users s);
                  listings := listings s;
                  conversations := <[nextId s := created]> (conversations s);
                  messages := messages s; nextId := Pos.succ (nextId s) |},
               Success 201 {| conversationId := nextId s; conversation := created;
                              isNew := true |})).
  { unfold first.
    rewrite (startConversation_signed_in s t1 a ua lid cl l b cb Ha) by auto.
    destruct (findOne a b lid s) as [[cid c]|] eqn:E; [|reflexivity].
    destruct (findOne_Some _ _ _ _ _ _ E) as [Hc Hbt]. destruct (Hnone cid c Hc Hbt). }
  set (s1 := first.1) in *.
  assert (Hs1 : s1 = {| users := <[a := User.set_lastSeen ua t1]> (users s);
                        listings := listings s;
                        conversations := <[nextId s := created]> (conversations s);
                        messages := messages s; nextId := Pos.succ (nextId s) |})
    by (unfold s1; rewrite Hfirst; reflexivity).
  assert (Hc1 : conversations s1 !! nextId s = Some created)
    by (rewrite Hs1; apply lookup_insert_eq).
  assert (Hbt : between a b lid created)
    by (repeat split; solve [repeat constructor]).
  assert (Hfind : findOne a b lid s1 = Some (nextId s, created)).
  { apply (findOne_only a b lid s1 _ _ Hc1 Hbt).
    intros j cj Hj Hbj. rewrite Hs1 in Hj. simpl in Hj.
    destruct (decide (nextId s = j)) as [<-|Hne]; [reflexivity|].
    rewrite lookup_insert_ne in Hj by exact Hne. destruct (Hnone j cj Hj Hbj). }
  assert (Ha1 : signed_in s1 a (User.set_lastSeen ua t1)).
  { rewrite Hs1. split; [apply lookup_insert_eq | apply Ha]. }
  assert (Hb1 : signed_in s1 b ub).
  { rewrite Hs1. split; [|apply Hb]. simpl.
    rewrite lookup_insert_ne by exact Hab. apply Hb. }
  assert (Hl1 : listings s1 !! lid = Some l) by (rewrite Hs1; exact Hl).
  split; [rewrite Hfirst; reflexivity|].
  split; [rewrite Hs1; reflexivity|].
  unfold again, swapped.
  rewrite (startConversation_signed_in s1 t2 a _ lid cl' l b cb' Ha1) by auto.
  rewrite (startConversation_signed_in s1 t2 b _ lid cl' l a ca Hb1) by auto.
  rewrite <- (findOne_swap a b lid s1), Hfind.
  split; [reflexivity|]. split; [reflexivity|]. split; [reflexivity|].
  split; [reflexivity|].
  split; [|split; [|split]].
  - unfold startConversation. rewrite (protect_signed_in s t1 a ua Ha).
    cbn [is_string_of]. rewrite bool_decide_eq_true_2 by reflexivity. reflexivity.
  - intros Halone. unfold alone.
    rewrite (startConversation_signed_in s t1 a ua lid cl l a false Ha eq_refl Hl).
    destruct (findOne a a lid s) as [[cid c]|] eqn:E.
    + destruct (findOne_Some _ _ _ _ _ _ E) as [Hc (Hin & _ & Hlid)].
      destruct (Halone cid c Hc (conj Hin Hlid)).
    + split; reflexivity.
  - unfold startConversation. rewrite (protect_signed_in s t1 a ua Ha).
    cbn [is_string_of cast]. autorewrite with store. rewrite Hl. reflexivity.
  - unfold startConversation. rewrite (protect_signed_in s t1 a ua Ha).
    rewrite (Hguard b a cb) by congruence. reflexivity.
Qed.

Lemma startConversation_gets_or_creates_witness :
  (startConversation
     (startConversation Sample.store 10 (Some Sample.rami)
        (Some (Spelled Sample.live true)) (Some (Spelled Sample.sara true))).1
     20 (Some Sample.sara) (Some (Spelled Sample.live true))
     (Some (Spelled Sample.rami false))).2
  = Success 200
      {| conversationId := 100%positive;
         conversation :=
           {| Conversation.participants := [Sample.rami; Sample.sara];
              Conversation.listing := Sample.live;
              Conversation.lastMessage := None; Conversation.unreadCount := ∅;
              Conversation.isActive := true; Conversation.updatedAt := 10 |};
         isNew := false |}
  ∧ (startConversation Sample.store 10 (Some Sample.rami)
       (Some (Spelled Sample.live true)) (Some (Spelled Sample.rami true))).2
    = Fail 400 (Message_ "You cannot message yourself")
  ∧ (startConversation Sample.store 10 (Some Sample.rami)
       (Some (Spelled Sample.live true)) (Some (Spelled Sample.rami false))).2
    = Success 201
        {| conversationId := 100%positive;
           conversation :=
             {| Conversation.participants := [Sample.rami; Sample.rami];
                Conversation.listing := Sample.live;
                Conversation.lastMessage := None; Conversation.unreadCount := ∅;
                Conversation.isActive := true; Conversation.updatedAt := 10 |};
           isNew := true |}.
Proof.
  assert (Hnot : ∀ cid c, conversations Sample.store !! cid = Some c →
                   Sample.rami ∉ Conversation.participants c).
  { intros cid c [<- <-]%sample_threads Hin. simpl in Hin.
    apply elem_of_cons in Hin as [Hin|Hin]; [discriminate|].
    apply elem_of_cons in Hin as [Hin|Hin]; [discriminate|].
    inversion Hin. }
  destruct (startConversation_gets_or_creates Sample.store 10 20
              Sample.rami Sample.rami_user Sample.sara Sample.sara_user
              Sample.live (Sample.lamp Listing.mod_approved Listing.active None)
              true true false true true)
    as (_ & _ & _ & _ & Hswapped & _ & Hself & Halone & _).
  - split; reflexivity.
  - split; reflexivity.
  - discriminate.
  - reflexivity.
  - intros cid c Hc (Hin & _). exact (Hnot cid c Hc Hin).
  - split; [exact Hswapped|]. split; [exact Hself|].
    apply Halone. intros cid c Hc [Hin _]. exact (Hnot cid c Hc Hin).
Defined.

End ChatInvariants.

Section Sending.
Import MessageRoutes.

Lemma sendMessage_inv s now token cid content type s' events mid m :
  sendMessage s now token cid content type = (s', events, Success 201 (mid, m)) →
  ∃ uid u c other kind,
    token = Some uid ∧ signed_in s uid u
    ∧ conversations s !! cid = Some c
    ∧ uid ∈ Conversation.participants c
    ∧ List.find (fun p => negb (bool_decide (p = uid))) (Conversation.participants c)
      = Some other
    ∧ parse_type type = Some kind
    ∧ content ≠ []
    ∧ mid = nextId s
    ∧ m = sent_message now uid cid content kind
    ∧ events = [newMessage cid m]
    ∧ let s0 := save_user s uid (User.set_lastSeen u now) in
      let s2 :=
        save_conversation
          {| users := users s0; listings := listings s; conversations := conversations s;
             messages := <[mid := m]> (messages s); nextId := Pos.succ mid |}
          cid (sent_conversation now uid other content c) in
      s' = match users s0 !! other with
           | Some receiver =>
               save_user s2 other
                 (User.set_notifications receiver
                    (push_slice (User.notifications receiver)
                       (message_notice now (User.name u) cid)))
           | None => s2
           end.
Proof.
  unfold sendMessage.
  destruct (protect_cases (A := Id * Message.t) s now token)
    as [[why ->]|(uid & u & -> & Hin & ->)]; [discriminate|].
  destruct content as [|c0 content']; [discriminate|].
  set (content := c0 :: content').
  change (conversations (save_user s uid (User.set_lastSeen u now)))
    with (conversations s).
  destruct (conversations s !! cid) as [c|] eqn:Hc; [|discriminate].
  destruct (bool_decide_reflect (uid ∈ Conversation.participants c)) as [Hp|Hp];
    cbn [negb]; [|discriminate].
  destruct (parse_type type) as [kind|] eqn:Hk; [|discriminate].
  destruct (_ || _); [discriminate|].
  destruct (List.find _ _) as [other|] eqn:Hf; [|discriminate].
  intros [= <- <- <- <-].
  exists uid, u, c, other, kind.
  repeat (split; [first [reflexivity | assumption | discriminate]|]).
  cbv zeta. cbn [users save_user save_conversation set_users set_conversations].
  destruct (<[uid:=User.set_lastSeen u now]> (users s) !! other); reflexivity.
Qed.

Lemma sendMessage_succeeds s now uid u cid c other content type kind :
  signed_in s uid u →
  conversations s !! cid = Some c →
  uid ∈ Conversation.participants c →
  List.find (fun p => negb (bool_decide (p = uid))) (Conversation.participants c)
  = Some other →
  content ≠ [] →
  parse_type type = Some kind →
  (length (ContentFilter.r_filtered
             (ContentFilter.filterPersonalInfo content ContentFilter.default_options))
   ≤ 1000)%nat →
  ∃ s', sendMessage s now (Some uid) cid content type
        = (s', [newMessage cid (sent_message now uid cid content kind)],
           Success 201 (nextId s, sent_message now uid cid content kind)).
Proof.
  intros Hin Hc Hp Hfind Hne Hk Hlen. unfold sendMessage.
  rewrite (protect_signed_in s now uid u Hin).
  destruct content as [|c0 content']; [congruence|].
  set (content := c0 :: content') in *.
  change (conversations (save_user s uid (User.set_lastSeen u now)))
    with (conversations s).
  rewrite Hc, (bool_decide_eq_true_2 _ Hp). cbn [negb]. rewrite Hk.
  pose proof (filter_keeps_nonempty content Hne) as Hstored.
  rewrite (proj2 (Nat.ltb_ge _ _) Hlen), (bool_decide_eq_false_2 _ Hstored).
  cbn [orb]. rewrite Hfind. eexists. reflexivity.
Qed.

Lemma find_other (a b : Id) (l : list Id) :
  a ≠ b → l ≡ₚ [a; b] →
  List.find (fun p => negb (bool_decide (p = a))) l = Some b.
Proof.
  intros Hab Hp. symmetry in Hp. apply Permutation_length_2_inv in Hp as [->| ->]; simpl.
  - rewrite bool_decide_eq_true_2 by reflexivity. simpl.
    rewrite bool_decide_eq_false_2 by congruence. reflexivity.
  - rewrite bool_decide_eq_false_2 by congruence. reflexivity.
Qed.

End Sending.

Section RoundTrip.
Import MessageRoutes.

Lemma getConversation_participant s now uid u cid c :
  signed_in s uid u →
  conversations s !! cid = Some c →
  uid ∈ Conversation.participants c →
  getConversation s now (Some uid) cid
  = let c' :=
      {| Conversation.participants := Conversation.participants c;
         Conversation.listing := Conversation.listing c;
         Conversation.lastMessage := Conversation.lastMessage c;
         Conversation.unreadCount := <[uid := 0]> (Conversation.unreadCount c);
         Conversation.isActive := Conversation.isActive c;
         Conversation.updatedAt := now |} in
    ({| users := <[uid := User.set_lastSeen u now]> (users s);
        listings := listings s;
        conversations := <[cid := c']> (conversations s);
        messages :=
          (fun m =>
             if bool_decide (Message.conversation m = cid)
                && negb (bool_decide (Message.sender m = uid))
                && negb (Message.read m)
             then mark_read now m else m) <$> messages s;
        nextId := nextId s |},
     Success 200
       (c', selected <$> filter (fun kv => Message.conversation (snd kv) = cid)
                           (messages s))).
Proof.
  intros Hin Hc Hp. unfold getConversation.
  rewrite (protect_signed_in s now uid u Hin).
  change (conversations (save_user s uid (User.set_lastSeen u now)))
    with (conversations s).
  rewrite Hc. rewrite (bool_decide_eq_true_2 _ Hp). reflexivity.
Qed.

(** X21.  A message from sending to reading.  When [a] sends into a
    conversation with [b], the message is stored unread under the next id
    and pushed as one event; the unread counter of [b] on the conversation
    grows by one and that of [a] stays; [b] holds one more notification,
    and never more than fifty.  When [b] then opens the conversation, the
    response carries the message without its original content, the counter
    of [b] is back to zero and the stored message has its read flag set and
    the time of the reading, with every other field as it was sent; when
    the sender opens it instead, the message stays stored as it was, unread,
    and the counter of [b] stays. *)
Theorem message_from_sending_to_reading
    s t1 t2 a b ub cid c content type s1 events mid m :
  sendMessage s t1 (Some a) cid content type = (s1, events, Success 201 (mid, m)) →
  conversations s !! cid = Some c →
  Conversation.participants c ≡ₚ [a; b] →
  a ≠ b →
  signed_in s b ub →
  let before := default 0 (Conversation.unreadCount c !! b) in
  (events = [newMessage cid m] ∧ mid = nextId s ∧ messages s1 !! mid = Some m
   ∧ Message.read m = false ∧ Message.sender m = a)
  ∧ (∃ c1, conversations s1 !! cid = Some c1
           ∧ Conversation.unreadCount c1 !! b = Some (before + 1)
           ∧ Conversation.unreadCount c1 !! a = Conversation.unreadCount c !! a)
  ∧ (∃ ub1 notice,
       users s1 !! b = Some ub1
       ∧ User.notifications ub1 = push_slice (User.notifications ub) notice
       ∧ last (User.notifications ub1) = Some notice
       ∧ Notification.relatedId notice = Some cid
       ∧ (length (User.notifications ub1) ≤ 50)%nat)
  ∧ (∃ s2 c2 msgs,
       getConversation s1 t2 (Some b) cid = (s2, Success 200 (c2, msgs))
       ∧ msgs !! mid = Some (selected m)
       ∧ Message.originalContent (selected m) = None
       ∧ conversations s2 !! cid = Some c2
       ∧ Conversation.unreadCount c2 !! b = Some 0
       ∧ ∃ m2, messages s2 !! mid = Some m2
               ∧ Message.read m2 = true
               ∧ Message.readAt m2 = Some t2
               ∧ Message.conversation m2 = cid
               ∧ Message.sender m2 = a
               ∧ Message.content m2 = Message.content m
               ∧ Message.originalContent m2 = Message.originalContent m
               ∧ Message.isFiltered m2 = Message.isFiltered m
               ∧ Message.type m2 = Message.type m
               ∧ Message.createdAt m2 = t1)
  ∧ (∃ s2 c2 msgs,
       getConversation s1 t2 (Some a) cid = (s2, Success 200 (c2, msgs))
       ∧ conversations s2 !! cid = Some c2
       ∧ Conversation.unreadCount c2 !! b = Some (before + 1)
       ∧ messages s2 !! mid = Some m).
Proof.
  intros Hsend Hc Hperm Hab Hb before.
  destruct (sendMessage_inv _ _ _ _ _ _ _ _ _ _ Hsend)
    as (uid & u & c' & other & kind & Htok & Ha & Hc' & Hin & Hfind & Hk & Hne
        & Hmid & Hm & Hev & Hs1).
  injection Htok as <-. rewrite Hc in Hc'. injection Hc' as <-.
  rewrite (find_other a b _ Hab Hperm) in Hfind. injection Hfind as <-.
  cbv zeta in Hs1.
  rewrite users_save_user_ne in Hs1 by exact Hab.
  destruct Hb as [Hub Hbact]. rewrite Hub in Hs1.
  set (notice := message_notice t1 (User.name u) cid) in *.
  set (ub1 := User.set_notifications ub (push_slice (User.notifications ub) notice)) in *.
  set (c1 := sent_conversation t1 a b content c) in *.
  assert (Hm1 : messages s1 !! mid = Some m).
  { rewrite Hs1. simpl. apply lookup_insert_eq. }
  assert (Hc1 : conversations s1 !! cid = Some c1).
  { rewrite Hs1. simpl. apply lookup_insert_eq. }
  assert (Hb1 : signed_in s1 b ub1).
  { rewrite Hs1. split; [apply users_save_user_eq | exact Hbact]. }
  assert (Ha1 : signed_in s1 a (User.set_lastSeen u t1)).
  { rewrite Hs1. split; [|apply Ha].
    rewrite users_save_user_ne by congruence. simpl. apply lookup_insert_eq. }
  assert (Hpa : a ∈ Conversation.participants c1) by exact Hin.
  assert (Hpb : b ∈ Conversation.participants c1).
  { change (b ∈ Conversation.participants c). rewrite Hperm. solve [repeat constructor]. }
  assert (Hread : Message.read m = false) by (rewrite Hm; reflexivity).
  assert (Hsender : Message.sender m = a) by (rewrite Hm; reflexivity).
  assert (Hconv : Message.conversation m = cid) by (rewrite Hm; reflexivity).
  assert (Hmsgs : (selected <$> filter (fun kv => Message.conversation (snd kv) = cid)
                                  (messages s1)) !! mid = Some (selected m)).
  { rewrite lookup_fmap.
    erewrite (proj2 (map_lookup_filter_Some _ _ mid m)); [reflexivity|].
    split; [exact Hm1 | exact Hconv]. }
  split; [repeat split; assumption|]. split; [|split; [|split]].
  - exists c1. split; [exact Hc1|]. split.
    + simpl. apply lookup_insert_eq.
    + simpl. apply lookup_insert_ne. congruence.
  - exists ub1, notice. split; [apply Hb1|].
    destruct (push_slice_bounded (User.notifications ub) notice) as (Hlen & _ & Hlast).
    repeat split; assumption.
  - rewrite (getConversation_participant s1 t2 b ub1 cid c1 Hb1 Hc1 Hpb).
    eexists _, _, _. split; [reflexivity|]. split; [exact Hmsgs|].
    split; [reflexivity|]. split; [simpl; apply lookup_insert_eq|].
    split; [simpl; apply lookup_insert_eq|].
    exists (mark_read t2 m). split.
    + simpl. rewrite lookup_fmap, Hm1. simpl. rewrite Hconv, Hsender, Hread.
      rewrite bool_decide_eq_true_2 by reflexivity.
      rewrite bool_decide_eq_false_2 by exact Hab. reflexivity.
    + simpl. rewrite Hconv, Hsender.
      repeat (split; [reflexivity|]). rewrite Hm. reflexivity.
  - rewrite (getConversation_participant s1 t2 a _ cid c1 Ha1 Hc1 Hpa).
    eexists _, _, _. split; [reflexivity|].
    split; [simpl; apply lookup_insert_eq|]. split.
    + simpl. rewrite lookup_insert_ne by exact Hab. apply lookup_insert_eq.
    + simpl. rewrite lookup_fmap, Hm1. simpl. rewrite Hconv, Hsender.
      rewrite !bool_decide_eq_true_2 by reflexivity. reflexivity.
Qed.

End RoundTrip.

Section RoundTripWitness.
Import MessageRoutes.

Lemma message_from_sending_to_reading_witness :
  ∃ s2 c2 msgs,
    getConversation
      (sendMessage Sample.store 10 (Some Sample.omar) Sample.thread (utf16 "hello")
         None).1.1
      20 (Some Sample.sara) Sample.thread
    = (s2, Success 200 (c2, msgs))
    ∧ Conversation.unreadCount c2 !! Sample.sara = Some 0
    ∧ ∃ m2, messages s2 !! 100%positive = Some m2 ∧ Message.read m2 = true
            ∧ Message.readAt m2 = Some 20.
Proof.
  destruct (sendMessage Sample.store 10 (Some Sample.omar) Sample.thread
              (utf16 "hello") None) as [[s1 ev] r] eqn:E.
  assert (Hr : ∃ mid m, r = Success 201 (mid, m)).
  { assert (Er : r = (sendMessage Sample.store 10 (Some Sample.omar) Sample.thread
                        (utf16 "hello") None).2) by (rewrite E; reflexivity).
    rewrite Er. vm_compute. eauto. }
  destruct Hr as (mid & m & ->).
  destruct (message_from_sending_to_reading Sample.store 10 20 Sample.omar Sample.sara
              Sample.sara_user Sample.thread Sample.chat (utf16 "hello") None
              s1 ev mid m E)
    as ((_ & Hmid & _) & _ & _
        & (s2 & c2 & msgs & Hg & _ & _ & _ & H0 & m2 & Hm2 & Hread & Hat & _) & _).
  - reflexivity.
  - reflexivity.
  - discriminate.
  - split; reflexivity.
  - exists s2, c2, msgs. split; [exact Hg|]. split; [exact H0|].
    exists m2. rewrite Hmid in Hm2. repeat split; assumption.
Defined.

End RoundTripWitness.

Section Originals.
Import MessageRoutes.

(** X22.  The raw text is for admins.  For every message that was sent, the
    admin route returns the text exactly as the sender typed it, whether the
    filter altered it or not, next to the stored content and the flag; a
    signed-in user who is not an admin is answered 403.  No response of
    [GET /api/messages/conversations/:id] carries an original content. *)
Theorem original_is_for_admins s t1 token cid content type s1 events mid m :
  sendMessage s t1 token cid content type = (s1, events, Success 201 (mid, m)) →
  (∀ t2 adm uadm,
     signed_in_admin s1 adm uadm →
     (getOriginal s1 t2 (Some adm) mid).2
     = Success 200
         {| o_content := Message.content m;
            o_originalContent := content;
            o_isFiltered := Message.isFiltered m;
            o_sender := Message.sender m;
            o_createdAt := t1 |})
  ∧ (∀ t2 uid u,
       signed_in s1 uid u → User.isAdmin u = false →
       (getOriginal s1 t2 (Some uid) mid).2
       = Fail 403 (Message_ "Not authorized - Admin access required"))
  ∧ (∀ t2 reader id s2 c msgs,
       getConversation s1 t2 reader id = (s2, Success 200 (c, msgs)) →
       ∀ k shown, msgs !! k = Some shown → Message.originalContent shown = None).
Proof.
  intros Hsend.
  destruct (sendMessage_stores _ _ _ _ _ _ _ _ _ _ Hsend) as (Hm1 & Hcontent & Hflag & Horig & _).
  destruct (sendMessage_inv _ _ _ _ _ _ _ _ _ _ Hsend)
    as (uid & u & c & other & kind & _ & _ & _ & _ & _ & _ & Hne & _ & Hm & _).
  destruct (filter_flags_iff_alters content) as [_ Hsame]. simpl in Hsame.
  split; [|split].
  - intros t2 adm uadm Hadm. unfold getOriginal.
    pose proof Hadm as [Hin Hisadm].
    rewrite (protect_signed_in s1 t2 adm uadm Hin).
    change (User.isAdmin (User.set_lastSeen uadm t2)) with (User.isAdmin uadm).
    rewrite Hisadm. simpl negb. cbv iota.
    change (messages (save_user s1 adm (User.set_lastSeen uadm t2))) with (messages s1).
    assert (Hraw : match Message.originalContent m with
                   | Some o => match o with [] => Message.content m | _ => o end
                   | None => Message.content m
                   end = content).
    { rewrite Horig, Hcontent.
      destruct (ContentFilter.r_hasFiltered _) eqn:Hf.
      - destruct content; [congruence|reflexivity].
      - apply Hsame. exact Hf. }
    rewrite Hm1. cbv beta iota. rewrite Hraw.
    replace (Message.createdAt m) with t1 by (rewrite Hm; reflexivity).
    reflexivity.
  - intros t2 x ux Hin Hna. unfold getOriginal.
    rewrite (protect_signed_in s1 t2 x ux Hin).
    change (User.isAdmin (User.set_lastSeen ux t2)) with (User.isAdmin ux).
    rewrite Hna. reflexivity.
  - intros t2 reader id s2 c2 msgs Hget k shown Hk.
    unfold getConversation in Hget.
    destruct (protect_cases (A := Conversation.t * gmap Id Message.t) s1 t2 reader)
      as [[why E]|(x & ux & -> & Hin & E)]; rewrite E in Hget; [discriminate|].
    destruct (conversations _ !! id); [|discriminate].
    destruct (negb _); [discriminate|].
    injection Hget as _ _ <-.
    rewrite lookup_fmap in Hk.
    destruct (filter _ _ !! k); [|discriminate].
    injection Hk as <-. reflexivity.
Qed.

Lemma original_is_for_admins_witness :
  (getOriginal
     (sendMessage Sample.store 10 (Some Sample.omar) Sample.thread
        (utf16 "call me 01012345678") None).1.1
     20 (Some Sample.admin) 100%positive).2
  = Success 200
      {| o_content := utf16 "call me [HIDDEN]";
         o_originalContent := utf16 "call me 01012345678";
         o_isFiltered := true;
         o_sender := Sample.omar;
         o_createdAt := 10 |}.
Proof.
  destruct (sendMessage Sample.store 10 (Some Sample.omar) Sample.thread
              (utf16 "call me 01012345678") None) as [[s1 ev] r] eqn:E.
  assert (Hr : r = Success 201
                     (100%positive,
                      sent_message 10 Sample.omar Sample.thread
                        (utf16 "call me 01012345678") Message.text)).
  { assert (Er : r = (sendMessage Sample.store 10 (Some Sample.omar) Sample.thread
                        (utf16 "call me 01012345678") None).2) by (rewrite E; reflexivity).
    rewrite Er. vm_compute. reflexivity. }
  subst r.
  destruct (original_is_for_admins Sample.store 10 (Some Sample.omar) Sample.thread
              (utf16 "call me 01012345678") None s1 ev _ _ E) as [Hadm _].
  assert (Hin : signed_in_admin s1 Sample.admin Sample.admin_user).
  { assert (Es : s1 = (sendMessage Sample.store 10 (Some Sample.omar) Sample.thread
                         (utf16 "call me 01012345678") None).1.1) by (rewrite E; reflexivity).
    rewrite Es. repeat split; vm_compute; reflexivity. }
  cbn [fst]. rewrite (Hadm 20 Sample.admin Sample.admin_user Hin).
  vm_compute. reflexivity.
Defined.

End Originals.

Section Archive.
Import MessageRoutes ConversationRoutes.

(** X23.  Archiving.  A participant who deletes a conversation marks it
    inactive for everyone: it leaves the conversation list of every caller,
    while both participants still open it by id.  A message sent into it by
    a signed-in participant is accepted with 201 like any other (non-empty
    content, a known type, a filtered text of at most 1000 units, another
    participant to address), and every accepted message leaves it inactive.
    A request to start a conversation for the same listing between two of
    its participants returns an existing conversation instead of creating
    one. *)
Theorem archive_hides_for_everyone s t1 a ua cid c :
  signed_in s a ua →
  conversations s !! cid = Some c →
  a ∈ Conversation.participants c →
  let out := archiveConversation s t1 (Some a) cid in
  let s1 := out.1 in
  out.2 = Success 200 tt
  ∧ (∃ c1, conversations s1 !! cid = Some c1 ∧ Conversation.isActive c1 = false
           ∧ conv_step c c1
           ∧ Conversation.unreadCount c1 = Conversation.unreadCount c)
  ∧ (∀ now reader s2 listed,
       getConversations s1 now reader = (s2, Success 200 listed) →
       listed !! cid = None)
  ∧ (∀ now x ux,
       signed_in s1 x ux → x ∈ Conversation.participants c →
       ∃ c2 msgs, (getConversation s1 now (Some x) cid).2 = Success 200 (c2, msgs)
                  ∧ Conversation.isActive c2 = false)
  ∧ (∀ now x ux other content type kind,
       signed_in s1 x ux → x ∈ Conversation.participants c →
       List.find (fun p => negb (bool_decide (p = x))) (Conversation.participants c)
       = Some other →
       content ≠ [] →
       parse_type type = Some kind →
       (length (ContentFilter.r_filtered
                  (ContentFilter.filterPersonalInfo content
                     ContentFilter.default_options)) ≤ 1000)%nat →
       ∃ s2 c2,
         sendMessage s1 now (Some x) cid content type
         = (s2, [newMessage cid (sent_message now x cid content kind)],
            Success 201 (nextId s1, sent_message now x cid content kind))
         ∧ conversations s2 !! cid = Some c2
         ∧ Conversation.isActive c2 = false)
  ∧ (∀ now sender content type s2 events mid m,
       sendMessage s1 now sender cid content type = (s2, events, Success 201 (mid, m)) →
       ∃ c2, conversations s2 !! cid = Some c2 ∧ Conversation.isActive c2 = false)
  ∧ (∀ now x ux y l cl cy,
       signed_in s1 x ux → is_string_of (Spelled y cy) x = false →
       x ∈ Conversation.participants c → y ∈ Conversation.participants c →
       listings s !! Conversation.listing c = Some l →
       let again :=
         startConversation s1 now (Some x) (Some (Spelled (Conversation.listing c) cl))
           (Some (Spelled y cy)) in
       ∃ st, again.2 = Success 200 st ∧ isNew st = false
             ∧ conversations again.1 = conversations s1).
Proof.
  intros Ha Hc Hin out s1.
  set (c1 := {| Conversation.participants := Conversation.participants c;
                Conversation.listing := Conversation.listing c;
                Conversation.lastMessage := Conversation.lastMessage c;
                Conversation.unreadCount := Conversation.unreadCount c;
                Conversation.isActive := false;
                Conversation.updatedAt := t1 |}).
  assert (Hout : out = (save_conversation (save_user s a (User.set_lastSeen ua t1)) cid c1,
                        Success 200 tt)).
  { unfold out, archiveConversation. rewrite (protect_signed_in s t1 a ua Ha).
    change (conversations (save_user s a (User.set_lastSeen ua t1)))
      with (conversations s).
    rewrite Hc, (bool_decide_eq_true_2 _ Hin). reflexivity. }
  assert (Hs1 : s1 = save_conversation (save_user s a (User.set_lastSeen ua t1)) cid c1)
    by (unfold s1; rewrite Hout; reflexivity).
  assert (Hc1 : conversations s1 !! cid = Some c1)
    by (rewrite Hs1; simpl; apply lookup_insert_eq).
  split; [rewrite Hout; reflexivity|].
  split; [exists c1; repeat split; (exact Hc1 || reflexivity)|].
  assert (Hsent : ∀ now sender content type s2 events mid m,
            sendMessage s1 now sender cid content type
            = (s2, events, Success 201 (mid, m)) →
            ∃ c2, conversations s2 !! cid = Some c2 ∧ Conversation.isActive c2 = false).
  { intros now sender content type s2 events mid m Hsend.
    destruct (sendMessage_inv _ _ _ _ _ _ _ _ _ _ Hsend)
      as (uid & u & c' & other & kind & _ & _ & Hc' & _ & _ & _ & _ & _ & _ & _ & Hs2).
    rewrite Hc1 in Hc'. injection Hc' as <-.
    exists (sent_conversation now uid other content c1). split; [|reflexivity].
    rewrite Hs2. cbv zeta. destruct (users _ !! other); simpl; apply lookup_insert_eq. }
  split; [|split; [|split; [|split]]].
  - intros now reader s2 listed Hget. unfold getConversations in Hget.
    destruct (protect_cases (A := gmap Id (Conversation.t * Z)) s1 now reader)
      as [[why E]|(x & ux & -> & Hx & E)]; rewrite E in Hget; [discriminate|].
    injection Hget as _ <-. rewrite lookup_fmap.
    change (conversations (save_user s1 x (User.set_lastSeen ux now)))
      with (conversations s1).
    erewrite (proj2 (map_lookup_filter_None _ _ cid)); [reflexivity|].
    right. intros c2 Hc2 [_ Hact]. rewrite Hc1 in Hc2. injection Hc2 as <-.
    discriminate.
  - intros now x ux Hx Hxin.
    rewrite (getConversation_participant s1 now x ux cid c1 Hx Hc1 Hxin).
    eexists _, _. split; reflexivity.
  - intros now x ux other content type kind Hx Hxin Hfind Hne Hk Hlen.
    destruct (sendMessage_succeeds s1 now x ux cid c1 other content type kind
                Hx Hc1 Hxin Hfind Hne Hk Hlen) as [s2 Hsend].
    destruct (Hsent _ _ _ _ _ _ _ _ Hsend) as (c2 & Hc2 & Hact).
    exists s2, c2. split; [exact Hsend|]. split; assumption.
  - exact Hsent.
  - intros now x ux y l cl cy Hx Hxy Hxin Hyin Hl again.
    assert (Hl1 : listings s1 !! Conversation.listing c = Some l)
      by (rewrite Hs1; exact Hl).
    assert (Hbt : between x y (Conversation.listing c) c1) by (repeat split; assumption).
    destruct (findOne_is_Some x y _ s1 cid c1 Hc1 Hbt) as [[j cj] Hfind].
    unfold again.
    rewrite (startConversation_signed_in s1 now x ux _ cl l y cy Hx) by auto.
    rewrite Hfind. eexists. repeat split.
Qed.

Lemma archive_hides_for_everyone_witness :
  (∃ c1,
     conversations
       (archiveConversation Sample.store 10 (Some Sample.omar) Sample.thread).1
       !! Sample.thread = Some c1
     ∧ Conversation.isActive c1 = false)
  ∧ (∃ s2 c2,
       sendMessage
         (archiveConversation Sample.store 10 (Some Sample.omar) Sample.thread).1
         20 (Some Sample.sara) Sample.thread (utf16 "hello") None
       = (s2, [newMessage Sample.thread
                 (sent_message 20 Sample.sara Sample.thread (utf16 "hello") Message.text)],
          Success 201
            (100%positive,
             sent_message 20 Sample.sara Sample.thread (utf16 "hello") Message.text))
       ∧ conversations s2 !! Sample.thread = Some c2
       ∧ Conversation.isActive c2 = false).
Proof.
  destruct (archive_hides_for_everyone Sample.store 10 Sample.omar Sample.omar_user
              Sample.thread Sample.chat)
    as (_ & (c1 & Hc1 & Hact & _) & _ & _ & Hsend & _).
  - split; reflexivity.
  - reflexivity.
  - solve [repeat constructor].
  - split; [exists c1; split; assumption|].
    apply (Hsend 20 Sample.sara Sample.sara_user Sample.omar (utf16 "hello") None
             Message.text).
    + split; reflexivity.
    + solve [repeat constructor].
    + reflexivity.
    + discriminate.
    + reflexivity.
    + vm_compute. lia.
Defined.

End Archive.

(** ** Favorites and counters over every route *)

Section ConsistentEverywhere.

Lemma frames_guard {A} s now token :
  frames s (AdminRoutes.guard (A := A) s now token).1.
Proof.
  unfold AdminRoutes.guard.
  pose proof (frames_protect (A := A) s now token) as Hp.
  destruct (Auth.protect s now token) as [s0 [r|[uid u]]]; [exact Hp|].
  destruct (Auth.adminOnly u); exact Hp.
Qed.

Ltac open_admin s now token A :=
  let Hp := fresh "Hp" in
  pose proof (frames_guard (A := A) s now token) as Hp;
  destruct (AdminRoutes.guard (A := A) s now token) as [? [?|[? ?]]];
  simpl in Hp; [exact Hp|];
  repeat case_match; simpl fst; try exact Hp.

Lemma frames_markSold s now token id :
  frames s (ListingOwner.markSold s now token id).1.
Proof.
  unfold ListingOwner.markSold.
  open_handler s now token unit; frame.
Qed.

Lemma frames_toggleRole s now token id :
  frames s (AdminUsers.toggleRole s now token id).1.
Proof. unfold AdminUsers.toggleRole. open_admin s now token (string * AdminUsers.summary)%type; frame. Qed.

Lemma frames_toggleStatus s now token id :
  frames s (AdminUsers.toggleStatus s now token id).1.
Proof. unfold AdminUsers.toggleStatus. open_admin s now token (string * AdminUsers.summary)%type; frame. Qed.

Lemma frames_toggleStatusUsers s now token id :
  frames s (AdminUsers.toggleStatusUsers s now token id).1.
Proof.
  unfold AdminUsers.toggleStatusUsers.
  open_admin s now token (Id * string * string * bool)%type; frame.
Qed.

Lemma frames_deleteListing s now token id :
  frames s (AdminUsers.deleteListing s now token id).1.
Proof.
  unfold AdminUsers.deleteListing.
  open_admin s now token unit.
  eapply frames_trans; [exact Hp|].
  split; [reflexivity|]. split; [reflexivity|].
  intros id2 l2. simpl. intros Hl2. exists l2. split; [|reflexivity].
  apply lookup_delete_Some in Hl2. apply Hl2.
Qed.

Lemma frames_startConversation s now token listingId sellerId :
  frames s (ConversationRoutes.startConversation s now token listingId sellerId).1.
Proof.
  unfold ConversationRoutes.startConversation.
  open_handler s now token ConversationRoutes.started; frame.
Qed.

Lemma frames_archiveConversation s now token id :
  frames s (ConversationRoutes.archiveConversation s now token id).1.
Proof.
  unfold ConversationRoutes.archiveConversation.
  open_handler s now token unit.
  all: apply frames_save_conversation; frame.
Qed.

Lemma frames_unreadCount s now token :
  frames s (ConversationRoutes.unreadCount s now token).1.
Proof. unfold ConversationRoutes.unreadCount. open_handler s now token Z. Qed.

Lemma frames_getNotifications s now token :
  frames s (NotificationRoutes.getNotifications s now token).1.
Proof.
  unfold NotificationRoutes.getNotifications.
  open_handler s now token (list Notification.t * nat)%type.
Qed.

Lemma frames_markAllRead s now token :
  frames s (NotificationRoutes.markAllRead s now token).1.
Proof.
  unfold NotificationRoutes.markAllRead.
  open_handler s now token unit; frame.
Qed.

Lemma perform_keeps_consistent s now c : consistent s → consistent (perform s now c).
Proof.
  intros Hs. destruct c; simpl.
  - apply serve_keeps_consistent. exact Hs.
  - exact (consistent_frames _ _ Hs (frames_markSold _ _ _ _)).
  - exact (consistent_frames _ _ Hs (frames_toggleRole _ _ _ _)).
  - exact (consistent_frames _ _ Hs (frames_toggleStatus _ _ _ _)).
  - exact (consistent_frames _ _ Hs (frames_toggleStatusUsers _ _ _ _)).
  - exact (consistent_frames _ _ Hs (frames_deleteListing _ _ _ _)).
  - exact (consistent_frames _ _ Hs (frames_startConversation _ _ _ _ _)).
  - exact (consistent_frames _ _ Hs (frames_archiveConversation _ _ _ _)).
  - exact (consistent_frames _ _ Hs (frames_unreadCount _ _ _)).
  - exact (consistent_frames _ _ Hs (frames_getNotifications _ _ _)).
  - exact (consistent_frames _ _ Hs (frames_markAllRead _ _ _)).
Qed.

(** X24.  Favorites and counters stay in step on every route.  On a store
    where no user holds a listing twice, every counter is the number of
    users who hold the listing, and no id is still to come, every run of
    calls over all the modelled routes keeps this true; in particular no
    counter is ever negative, and the hard delete, the sweeper and the
    account toggles cannot put a counter out of step. *)
Theorem every_route_keeps_counters_in_step s cs :
  consistent s →
  consistent (perform_all s cs)
  ∧ nonneg_counts (perform_all s cs).
Proof.
  intros Hs.
  assert (H : consistent (perform_all s cs)).
  { revert s Hs. induction cs as [|[now c] cs IH]; intros s Hs; [exact Hs|].
    apply IH. apply perform_keeps_consistent. exact Hs. }
  split; [exact H|].
  intros id l Hl. destruct H as [[_ Hcnt] _]. rewrite (Hcnt id l Hl). lia.
Qed.

Lemma every_route_keeps_counters_in_step_witness :
  consistent
    (perform_all Sample.store
       [(10, Served (PostFavorite (Some Sample.omar) Sample.live));
        (20, DeleteAdminListing (Some Sample.admin) Sample.live);
        (30, Served (PostFavorite (Some Sample.omar) Sample.live));
        (40, PutSold (Some Sample.sara) Sample.gone)]).
Proof.
  apply (every_route_keeps_counters_in_step Sample.store _ sample_store_consistent).
Defined.

End ConsistentEverywhere.

(** ** The socket registry *)

Section SocketRegistry.
Import Sockets.

(** X25.  One registry entry per user.  The socket that joined last under a
    user id is the one that receives the relayed messages.  When a user has
    joined from two sockets and the older one disconnects, the entry of the
    user is deleted and a [userOffline] goes out although the newer socket
    is still open: relayed messages and typing notices for the user are
    dropped from then on.  A socket that joined under the empty string is
    never taken out of the registry by its disconnect. *)
Theorem stale_disconnect_unregisters h older newer user now sender content listingId :
  user ≠ ""%string →
  older ≠ newer →
  let h2 := (join (join h older user).1 newer user).1 in
  let h3 := (disconnect h2 older).1 in
  connectedUsers h2 !! user = Some newer
  ∧ (sendMessage h2 now sender user content listingId).2
    = [To newer (newMessage sender user content listingId now)]
  ∧ (disconnect h2 older).2 = [ToAll (userOffline user)]
  ∧ connectedUsers h3 !! user = None
  ∧ userId h3 !! newer = Some user
  ∧ sendMessage h3 now sender user content listingId = (h3, [])
  ∧ (∀ from, typing h3 from user = (h3, []))
  ∧ (∀ socket,
       let joined := (join h socket "").1 in
       disconnect joined socket
       = ({| connectedUsers := connectedUsers joined;
             userId := delete socket (userId joined) |}, [])
       ∧ connectedUsers (disconnect joined socket).1 !! ""%string = Some socket).
Proof.
  intros Hne Hsock h2 h3.
  assert (Hreg : connectedUsers h2 !! user = Some newer) by apply lookup_insert_eq.
  assert (Hold : userId h2 !! older = Some user).
  { unfold h2. simpl. rewrite lookup_insert_ne by congruence. apply lookup_insert_eq. }
  assert (Hdis : disconnect h2 older
                 = ({| connectedUsers := delete user (connectedUsers h2);
                       userId := delete older (userId h2) |},
                    [ToAll (userOffline user)])).
  { unfold disconnect. rewrite Hold.
    rewrite (proj2 (String.eqb_neq user "") Hne). reflexivity. }
  assert (Hgone : connectedUsers h3 !! user = None).
  { unfold h3. rewrite Hdis. simpl. apply lookup_delete_eq. }
  split; [exact Hreg|].
  split; [unfold sendMessage; rewrite Hreg; reflexivity|].
  split; [rewrite Hdis; reflexivity|].
  split; [exact Hgone|]. split.
  { unfold h3. rewrite Hdis. simpl. rewrite lookup_delete_ne by exact Hsock.
    apply lookup_insert_eq. }
  split; [unfold sendMessage; rewrite Hgone; reflexivity|].
  split; [intros from; unfold typing; rewrite Hgone; reflexivity|].
  intros socket joined.
  assert (Hd : disconnect joined socket
               = ({| connectedUsers := connectedUsers joined;
                     userId := delete socket (userId joined) |}, [])).
  { unfold disconnect, joined. simpl. rewrite lookup_insert_eq. reflexivity. }
  split; [exact Hd|]. rewrite Hd. simpl. apply lookup_insert_eq.
Qed.

Lemma stale_disconnect_unregisters_witness :
  let empty := {| connectedUsers := ∅; userId := ∅ |} in
  let h2 := (join (join empty 1%positive "sara").1 2%positive "sara").1 in
  sendMessage (disconnect h2 1%positive).1 50 "omar" "sara" (utf16 "hi") "10"
  = ((disconnect h2 1%positive).1, []).
Proof.
  apply (stale_disconnect_unregisters {| connectedUsers := ∅; userId := ∅ |}
           1%positive 2%positive "sara" 50 "omar" (utf16 "hi") "10");
    discriminate.
Defined.

End SocketRegistry.

(** ** The unread badge *)

Section Badge.
Import MessageRoutes ConversationRoutes.



Lemma badge_same s s' uid :
  conversations s' = conversations s → badge s' uid = badge s uid.
Proof. intros E. unfold badge. rewrite E. reflexivity. Qed.



End Badge.
